(** * rlpyt DQN / CategoricalDQN learner: a shallow embedding

    The development follows [rlpyt/algos/dqn/dqn.py] and
    [rlpyt/algos/dqn/cat_dqn.py].

    Conventions of the embedding.

    - Python [int]s are [Z]; Python floats and torch scalars are exact
      rationals [Q] (compared with [==]), so rounding, [inf] and [nan] are
      outside the model.  A one-dimensional tensor is a [list Q], a boolean
      tensor a [list bool]; elementwise operations assume operands of the
      same length, as torch requires.
    - A Python exception is a value [Raise e] of the type [result]; stateful
      methods run in the monad [M], which keeps the state reached when the
      exception was raised.  The state carries, next to the replay buffer
      and the agent, the log [calls] of the calls made on them.
    - The collaborators whose code is not part of these files (replay
      buffer, agent, optimizer, [valid_from_done], [valid_mean],
      [select_at_indexes], reductions of torch whose tie or empty-input
      behaviour plays no role) are the fields of the class [Externals]. *)

From Stdlib Require Import String.
From Stdlib Require Import ZArith QArith Qabs Qminmax Qround Qpower.
From Stdlib Require Import List Bool Lia Lqa.
Import ListNotations.

Local Open Scope Q_scope.

(** ** Exceptions and results *)

Inductive exn : Type :=
| AssertionError
| NotImplementedError
| ZeroDivisionError
| UnboundLocalError
| AttributeError.

Inductive result (A : Type) : Type :=
| Ok (a : A)
| Raise (e : exn).

Arguments Ok {A} a.
Arguments Raise {A} e.

Definition is_ok {A} (r : result A) : bool :=
  match r with Ok _ => true | Raise _ => false end.

(** ** Tensors *)

Definition tensor := list Q.

Fixpoint map2 {A B C} (f : A -> B -> C) (l : list A) (l' : list B) : list C :=
  match l, l' with
  | a :: t, b :: t' => f a b :: map2 f t t'
  | _, _ => []
  end.

Definition t_add : tensor -> tensor -> tensor := map2 Qplus.
Definition t_sub : tensor -> tensor -> tensor := map2 Qminus.
Definition t_mul : tensor -> tensor -> tensor := map2 Qmult.
Definition t_abs : tensor -> tensor := map Qabs.

(** [x.float()] on a boolean tensor. *)
Definition to_float (b : bool) : Q := if b then 1 else 0.
Definition t_float : list bool -> tensor := map to_float.

(** [torch.clamp(x, lo, hi)] is [min(max(x, lo), hi)], also when [lo > hi]. *)
Definition clamp (lo hi x : Q) : Q := Qmin (Qmax x lo) hi.
Definition t_clamp (lo hi : Q) : tensor -> tensor := map (clamp lo hi).

(** [torch.where(cond, a, b)]. *)
Fixpoint t_where (c : list bool) (a b : tensor) : tensor :=
  match c, a, b with
  | ci :: c', ai :: a', bi :: b' => (if ci then ai else bi) :: t_where c' a' b'
  | _, _, _ => []
  end.

Definition t_sum (t : tensor) : Q := fold_right Qplus 0 t.

(** [torch.mean]; the mean of the empty tensor ([nan] in torch) is not
    represented, the model gives [0 / 0 = 0]. *)
Definition t_mean (t : tensor) : Q := t_sum t / inject_Z (Z.of_nat (List.length t)).

(** [t[::8]]. *)
Fixpoint every_from {A} (k skip : nat) (l : list A) : list A :=
  match l with
  | [] => []
  | x :: t =>
      match skip with
      | O => x :: every_from k (k - 1) t
      | S s => every_from k s t
      end
  end.

Definition downsample8 {A} (l : list A) : list A := every_from 8 0 l.

(** Python's [round] on a float: to the nearest integer, ties to even. *)
Definition py_round (x : Q) : Z :=
  let f := Qfloor x in
  let r := x - inject_Z f in
  match Qcompare r (1 # 2) with
  | Lt => f
  | Gt => (f + 1)%Z
  | Eq => if Z.even f then f else (f + 1)%Z
  end.

(** ** Construction-time configuration: [DQN.__init__] and
    [CategoricalDQN.__init__] *)

Inductive AlgoKind : Type := DQN | CategoricalDQN.

(** The four frame buffers of [rlpyt.replays.non_sequence.frame], and a
    class supplied by the user through [ReplayBufferCls], identified by its
    name. *)
Inductive BufferCls : Type :=
| UniformReplayFrameBuffer
| PrioritizedReplayFrameBuffer
| AsyncUniformReplayFrameBuffer
| AsyncPrioritizedReplayFrameBuffer
| UserCls (name : string).

(** The keyword arguments of the constructor, as the caller writes them. *)
Record InitArgs : Type := mkInitArgs {
  arg_discount : Q;
  arg_batch_size : Z;
  arg_min_steps_learn : Z;
  arg_delta_clip : option Q;
  arg_replay_size : Z;
  arg_replay_ratio : Q;
  arg_target_update_tau : Q;
  arg_target_update_interval : Z;
  arg_n_step_return : nat;
  arg_clip_grad_norm : Q;
  arg_eps_steps : Z;
  arg_double_dqn : bool;
  arg_prioritized_replay : bool;
  arg_pri_alpha : Q;
  arg_pri_beta_init : Q;
  arg_pri_beta_final : Q;
  arg_pri_beta_steps : Z;
  arg_default_priority : option Q;
  arg_ReplayBufferCls : option string;
  arg_updates_per_sync : Z;
  arg_V_min : Q;
  arg_V_max : Q
}.

(** The attributes stored on [self] by the constructor. *)
Record Config : Type := mkConfig {
  kind : AlgoKind;
  discount : Q;
  batch_size : Z;
  min_steps_learn : Z;
  delta_clip : option Q;
  replay_size : Z;
  replay_ratio : Q;
  target_update_tau : Q;
  target_update_interval : Z;
  n_step_return : nat;
  clip_grad_norm : Q;
  eps_steps : Z;
  double_dqn : bool;
  prioritized_replay : bool;
  pri_alpha : Q;
  pri_beta_init : Q;
  pri_beta_final : Q;
  pri_beta_steps : Z;
  default_priority : option Q;
  ReplayBufferCls : option string;
  updates_per_sync : Z;
  V_min : Q;
  V_max : Q
}.

(** [__init__]: [default_priority] falls back to [delta_clip]; the other
    arguments are saved as given.  [update_counter = 0] is the initial
    value of the mutable state below. *)
Definition init (k : AlgoKind) (a : InitArgs) : Config :=
  let default_priority :=
    match arg_default_priority a with
    | None => arg_delta_clip a
    | Some d => Some d
    end in
  mkConfig k (arg_discount a) (arg_batch_size a) (arg_min_steps_learn a)
    (arg_delta_clip a) (arg_replay_size a) (arg_replay_ratio a)
    (arg_target_update_tau a) (arg_target_update_interval a)
    (arg_n_step_return a) (arg_clip_grad_norm a) (arg_eps_steps a)
    (arg_double_dqn a)
    (arg_prioritized_replay a) (arg_pri_alpha a) (arg_pri_beta_init a)
    (arg_pri_beta_final a) (arg_pri_beta_steps a) default_priority
    (arg_ReplayBufferCls a) (arg_updates_per_sync a)
    (arg_V_min a) (arg_V_max a).

(** ** Data exchanged with the collaborators *)

(** The carrier types of the objects whose code lives outside these files. *)
Class Carriers : Type := {
  Obs : Type;      (* observation arrays *)
  Act : Type;      (* action arrays written by the sampler *)
  Inputs : Type;   (* the tuples [agent_inputs] and [target_inputs] *)
  Agent : Type;    (* the agent: model, target model and optimizer state *)
  Buffer : Type    (* the replay buffer object *)
}.

Section Data.
Context {C : Carriers}.

(** The sampler's batch, restricted to the fields the algorithm reads:
    [samples.env.observation], [samples.agent.action], [samples.env.reward]
    and [samples.env.done]. *)
Record Samples : Type := mkSamples {
  env_observation : Obs;
  agent_action : Act;
  env_reward : tensor;
  env_done : list bool
}.

(** The [examples] dictionary given to [initialize]. *)
Record Examples : Type := mkExamples {
  ex_observation : Obs;
  ex_action : Act;
  ex_reward : tensor;
  ex_done : list bool
}.

(** The namedarraytuple [SamplesToBuffer]. *)
Record SamplesToBuffer : Type := mkSamplesToBuffer {
  observation : Obs;
  stb_action : Act;
  reward : tensor;
  stb_done : list bool
}.

(** What [sample_batch] returns; [is_weights] is read only with
    prioritized replay. *)
Record SamplesFromReplay : Type := mkSamplesFromReplay {
  agent_inputs : Inputs;
  target_inputs : Inputs;
  return_ : tensor;
  done : list bool;
  done_n : list bool;
  action : list Z;
  is_weights : tensor
}.

(** [batch_spec], with its [B] and its [size]. *)
Record BatchSpec : Type := mkBatchSpec {
  spec_B : Z;
  spec_size : Z
}.

(** Values of the keyword arguments handed to the buffer's constructor. *)
Inductive KwVal : Type :=
| KwExample (e : SamplesToBuffer)
| KwInt (z : Z)
| KwNat (n : nat)
| KwNum (q : Q)
| KwOptNum (q : option Q).

Definition kwargs := list (string * KwVal).

(** [d.update(d')] and lookup on a dict kept in insertion order. *)
Fixpoint dict_set (k : string) (v : KwVal) (d : kwargs) : kwargs :=
  match d with
  | [] => [(k, v)]
  | (k', v') :: t =>
      if String.eqb k k' then (k, v) :: t else (k', v') :: dict_set k v t
  end.

Definition dict_update (d d' : kwargs) : kwargs :=
  fold_left (fun acc kv => dict_set (fst kv) (snd kv) acc) d' d.

Fixpoint dict_get (k : string) (d : kwargs) : option KwVal :=
  match d with
  | [] => None
  | (k', v) :: t => if String.eqb k k' then Some v else dict_get k t
  end.

(** [OptInfo], a namedtuple of three Python lists. *)
Record OptInfo : Type := mkOptInfo {
  loss_ : list Q;
  gradNorm : list Q;
  tdAbsErr : list Q
}.

(** Calls made on the collaborators, in the order they happen. *)
Inductive Event : Type :=
| CallAppendSamples (s : SamplesToBuffer)
| CallSampleBatch (n : Z) (returned : SamplesFromReplay)
| CallUpdateBatchPriorities (errors : tensor)
| CallSetBeta (beta : Q)
| CallUpdateTarget (tau : Q).

Definition is_append (ev : Event) : bool :=
  match ev with CallAppendSamples _ => true | _ => false end.

Definition is_sample (ev : Event) : bool :=
  match ev with CallSampleBatch _ _ => true | _ => false end.

Definition is_update (ev : Event) : bool :=
  match ev with CallUpdateBatchPriorities _ => true | _ => false end.

Definition is_set_beta (ev : Event) : bool :=
  match ev with CallSetBeta _ => true | _ => false end.

(** A call that neither samples a batch nor reports priorities. *)
Definition quiet (ev : Event) : Prop :=
  is_sample ev = false /\ is_update ev = false.

(** The arguments of the [update_batch_priorities] calls of a log. *)
Fixpoint update_args (evs : list Event) : list tensor :=
  match evs with
  | [] => []
  | CallUpdateBatchPriorities e :: t => e :: update_args t
  | _ :: t => update_args t
  end.

End Data.

(** The operations of the collaborators. *)
Class Externals {C : Carriers} : Type := {
  (* replay buffer *)
  construct : BufferCls -> kwargs -> Buffer;
  append_samples : SamplesToBuffer -> Buffer -> Buffer;
  sample_batch : Z -> Buffer -> SamplesFromReplay * Buffer;
  update_batch_priorities : tensor -> Buffer -> Buffer;
  set_beta : Q -> Buffer -> Buffer;
  (* agent: [agent(...)] and [agent.target(...)], with scalar Q-values
     [B,A] for DQN and atom probabilities [B,A,P] for CategoricalDQN *)
  agent_call : Agent -> Inputs -> list tensor;
  agent_target : Agent -> Inputs -> list tensor;
  agent_call_p : Agent -> Inputs -> list (list tensor);
  agent_target_p : Agent -> Inputs -> list (list tensor);
  n_atoms : Agent -> Z;
  update_target : Q -> Agent -> Agent;
  set_epsilon_itr_min_max : Z -> Z -> Agent -> Agent;
  give_V_min_max : Q -> Q -> Agent -> Agent;
  (* [OptimCls(agent.parameters(), ...)] and the optional state dict *)
  make_optimizer : Agent -> Agent;
  (* [zero_grad], [loss.backward()], [clip_grad_norm_], [optimizer.step()]:
     the new parameters and the gradient norm *)
  gradient_step : Q -> SamplesFromReplay -> Agent -> Agent * Q;
  (* rlpyt.utils.tensor, rlpyt.algos.utils and torch *)
  select_at_indexes : forall T : Type, list Z -> list (list T) -> list T;
  argmax_last : tensor -> Z;
  max_last : tensor -> Q;
  ln : Q -> Q;
  valid_from_done : list bool -> tensor;
  valid_mean : tensor -> tensor -> Q
}.

(** ** The error monad of pure computations *)

Definition rbind {A B} (r : result A) (k : A -> result B) : result B :=
  match r with
  | Ok a => k a
  | Raise e => Raise e
  end.

Notation "'let?' x ':=' c 'in' k" := (rbind c (fun x => k))
  (at level 10, x name, c at level 100, k at level 200).

(** [a / b] and [a // b] on Python integers. *)
Definition py_div (a b : Z) : result Q :=
  if (b =? 0)%Z then Raise ZeroDivisionError
  else Ok (inject_Z a / inject_Z b).

Definition py_floordiv (a b : Z) : result Z :=
  if (b =? 0)%Z then Raise ZeroDivisionError else Ok (a / b)%Z.

(** [x / b] for a float [x] and an integer [b]. *)
Definition py_fdiv (x : Q) (b : Z) : result Q :=
  if (b =? 0)%Z then Raise ZeroDivisionError else Ok (x / inject_Z b).

Section Learner.
Context {C : Carriers} {E : Externals}.

(** The attributes set by [initialize], [async_initialize] and
    [optim_initialize]; [pri_beta_itr] exists only with prioritized
    replay, and [optimizer] tells whether [self.optimizer] exists: it is
    assigned by [optim_initialize] only (the optimizer object itself is
    part of the agent's carrier). *)
Record Sched : Type := mkSched {
  sampler_bs : Z;
  mid_batch_reset : bool;
  updates_per_optimize : Z;
  min_itr_learn : Z;
  pri_beta_itr : option Z;
  optimizer : bool
}.

(** The mutable part of [self], with the log of calls on the
    collaborators. *)
Record State : Type := mkState {
  update_counter : Z;
  replay_buffer : Buffer;
  agent : Agent;
  calls : list Event
}.

Definition M (A : Type) : Type := State -> result A * State.

Definition ret {A} (a : A) : M A := fun s => (Ok a, s).

Definition raise {A} (e : exn) : M A := fun s => (Raise e, s).

Definition bind {A B} (c : M A) (k : A -> M B) : M B :=
  fun s =>
    match c s with
    | (Ok a, s') => k a s'
    | (Raise e, s') => (Raise e, s')
    end.

Definition lift {A} (r : result A) : M A := fun s => (r, s).

Definition get_state : M State := fun s => (Ok s, s).

Definition log (ev : Event) : M unit :=
  fun s => (Ok tt, mkState (update_counter s) (replay_buffer s) (agent s)
                     (calls s ++ [ev])).

Definition set_buffer (b : Buffer) : M unit :=
  fun s => (Ok tt, mkState (update_counter s) b (agent s) (calls s)).

Definition set_agent (a : Agent) : M unit :=
  fun s => (Ok tt, mkState (update_counter s) (replay_buffer s) a (calls s)).

Definition set_update_counter (n : Z) : M unit :=
  fun s => (Ok tt, mkState n (replay_buffer s) (agent s) (calls s)).

End Learner.

Declare Scope learner_scope.
Delimit Scope learner_scope with learner.

Notation "x <- c ;; k" := (bind c (fun x => k))
  (at level 61, c at next level, right associativity) : learner_scope.
Notation "c ;; k" := (bind c (fun _ => k))
  (at level 61, right associativity) : learner_scope.

Local Open Scope learner_scope.

(** ** The losses *)

Section Losses.
Context {C : Carriers} {E : Externals}.
Variable cfg : Config.
Variable sched : Sched.

(** [EPS = 1e-6] of [cat_dqn.py]. *)
Definition EPS : Q := 1 # 1000000.

(** [DQN._get_loss_values(q, done, weigths, target)].  The method receives
    [weigths = None] exactly when prioritized replay is off, where the
    argument is not read; the model then passes the empty tensor. *)
Definition dqn_get_loss_values
    (q : tensor) (done_ : list bool) (weigths : tensor) (target : tensor)
  : result (Q * tensor) :=
  let delta := t_sub target q in
  let losses := map (fun d => (1 # 2) * d ^ 2) delta in
  let abs_delta := t_abs delta in
  let losses :=
    match delta_clip cfg with
    | Some dc =>
        let b := map (fun a => dc * (a - dc / 2)) abs_delta in
        t_where (map (fun a => Qle_bool a dc) abs_delta) losses b
    | None => losses
    end in
  let losses := if prioritized_replay cfg then t_mul losses weigths else losses in
  let td_abs_errors := abs_delta in
  let td_abs_errors :=
    match delta_clip cfg with
    | Some dc => t_clamp 0 dc td_abs_errors
    | None => td_abs_errors
    end in
  if negb (mid_batch_reset sched) then Raise NotImplementedError
  else
    let loss := t_mean losses in
    Ok (loss, td_abs_errors).

(** The learning target of [DQN.loss]:
    [y = return_ + (1 - done_n.float()) * (discount ** n_step_return) * target_q]. *)
Definition dqn_target (ret_ : tensor) (done_n_ : list bool) (target_q : tensor)
  : tensor :=
  let disc_target_q :=
    map (Qmult (discount cfg ^ Z.of_nat (n_step_return cfg))) target_q in
  t_add ret_ (t_mul (map (fun d => 1 - d) (t_float done_n_)) disc_target_q).

(** [DQN.loss(samples)]; [buffer_to] only moves data between devices. *)
Definition dqn_loss (ag : Agent) (samples : SamplesFromReplay)
  : result (Q * tensor) :=
  let samples_is_weights :=
    if prioritized_replay cfg then is_weights samples else [] in
  let qs := agent_call ag (agent_inputs samples) in
  let q := select_at_indexes Q (action samples) qs in
  let target_qs := agent_target ag (target_inputs samples) in
  let target_q :=
    if double_dqn cfg then
      let next_qs := agent_call ag (target_inputs samples) in
      let next_a := map argmax_last next_qs in
      select_at_indexes Q next_a target_qs
    else map max_last target_qs in
  let y := dqn_target (return_ samples) (done_n samples) target_q in
  dqn_get_loss_values q (done samples) samples_is_weights y.

(** The intermediate values of [DQN.loss], under the names they have in
    the source: the Q-value [q] of the action taken, the value [target_q]
    that the target network gives to the next state (for the action chosen
    by the online network with [double_dqn], its maximum otherwise), and
    the target [y]. *)
Definition dqn_q (ag : Agent) (samples : SamplesFromReplay) : tensor :=
  let qs := agent_call ag (agent_inputs samples) in
  select_at_indexes Q (action samples) qs.

Definition dqn_target_q (ag : Agent) (samples : SamplesFromReplay) : tensor :=
  let target_qs := agent_target ag (target_inputs samples) in
  if double_dqn cfg then
    let next_qs := agent_call ag (target_inputs samples) in
    let next_a := map argmax_last next_qs in
    select_at_indexes Q next_a target_qs
  else map max_last target_qs.

Definition dqn_y (ag : Agent) (samples : SamplesFromReplay) : tensor :=
  dqn_target (return_ samples) (done_n samples) (dqn_target_q ag samples).

(** [CategoricalDQN._get_loss_values(p, done, weigths, target_p)]; [p] and
    [target_p] have shape [B,P], the sums run over the atoms. *)
Definition cat_get_loss_values
    (p : list tensor) (done_ : list bool) (weigths : tensor)
    (target_p : list tensor) : result (Q * tensor) :=
  let p := map (t_clamp EPS 1) p in
  let losses :=
    map2 (fun tp pr => - t_sum (t_mul tp (map ln pr))) target_p p in
  let losses := if prioritized_replay cfg then t_mul losses weigths else losses in
  let target_p := map (t_clamp EPS 1) target_p in
  let KL_div :=
    map2 (fun tp pr => t_sum (t_mul tp (t_sub (map ln tp) (map ln pr))))
      target_p p in
  let KL_div := t_clamp EPS (1 / EPS) KL_div in
  if negb (mid_batch_reset sched) then
    let valid := valid_from_done done_ in
    let loss := valid_mean losses valid in
    let KL_div := t_mul KL_div valid in
    Ok (loss, KL_div)
  else
    let loss := t_mean losses in
    Ok (loss, KL_div).

(** [torch.linspace(lo, hi, steps)]. *)
Definition linspace (lo hi : Q) (steps : Z) : tensor :=
  map (fun i => lo + inject_Z (Z.of_nat i) * ((hi - lo) / inject_Z (steps - 1)))
      (seq 0 (Z.to_nat steps)).

(** The contracted and shifted support of [CategoricalDQN.loss], shape
    [B,P']: [next_z = clamp(ret + ger(1 - done_n, z * discount ** n), V_min, V_max)]. *)
Definition cat_next_z (z : tensor) (ret_ : tensor) (done_n_ : list bool)
  : list tensor :=
  let next_z := map (fun zj => zj * discount cfg ^ Z.of_nat (n_step_return cfg)) z in
  let next_z :=
    map (fun u => map (fun v => u * v) next_z)
        (map (fun d => 1 - d) (t_float done_n_)) in
  map2 (fun r row => map (fun x => clamp (V_min cfg) (V_max cfg) (r + x)) row)
       ret_ next_z.

(** [CategoricalDQN.loss(samples)].  Without prioritized replay the local
    [samples_is_weights] is never assigned, and reading it at the call of
    [_get_loss_values] raises. *)
Definition cat_loss (ag : Agent) (samples : SamplesFromReplay)
  : result (Q * tensor) :=
  let samples_is_weights :=
    if prioritized_replay cfg then Some (is_weights samples) else None in
  let? delta_z := py_fdiv (V_max cfg - V_min cfg) (n_atoms ag - 1) in
  let z := linspace (V_min cfg) (V_max cfg) (n_atoms ag) in
  let next_z := cat_next_z z (return_ samples) (done_n samples) in
  let projection_coeffs :=
    map (fun row =>
           map (fun zi =>
                  map (fun nz => clamp 0 1 (1 - Qabs (nz - zi) / delta_z)) row)
               z)
        next_z in
  let target_ps := agent_target_p ag (target_inputs samples) in
  let tensordot_z := map (map (fun pr => t_sum (t_mul pr z))) in
  let next_a :=
    if double_dqn cfg then
      let next_ps := agent_call_p ag (target_inputs samples) in
      let next_qs := tensordot_z next_ps in
      map argmax_last next_qs
    else
      let target_qs := tensordot_z target_ps in
      map argmax_last target_qs in
  let target_p_unproj := select_at_indexes tensor next_a target_ps in
  let target_p :=
    map2 (fun tpu coeffs => map (fun c => t_sum (t_mul tpu c)) coeffs)
         target_p_unproj projection_coeffs in
  let ps := agent_call_p ag (agent_inputs samples) in
  let p := select_at_indexes tensor (action samples) ps in
  match samples_is_weights with
  | None => Raise UnboundLocalError
  | Some w => cat_get_loss_values p (done samples) w target_p
  end.

(** [self.loss], dispatched on the class. *)
Definition loss (ag : Agent) (samples : SamplesFromReplay)
  : result (Q * tensor) :=
  match kind cfg with
  | DQN => dqn_loss ag samples
  | CategoricalDQN => cat_loss ag samples
  end.

End Losses.

(** ** Initialization *)

Section Initialization.
Context {C : Carriers} {E : Externals}.
Variable cfg : Config.

(** [examples_to_buffer(examples)]. *)
Definition examples_to_buffer (examples : Examples) : SamplesToBuffer :=
  mkSamplesToBuffer (ex_observation examples) (ex_action examples)
    (ex_reward examples) (ex_done examples).

(** The class and the keyword arguments chosen by
    [initialize_replay_buffer(examples, batch_spec, async_)]. *)
Definition replay_selection
    (examples : Examples) (batch_spec : BatchSpec) (async_ : bool)
  : BufferCls * kwargs :=
  let example_to_buffer := examples_to_buffer examples in
  let replay_kwargs : kwargs :=
    [ ("example"%string, KwExample example_to_buffer);
      ("size"%string, KwInt (replay_size cfg));
      ("B"%string, KwInt (spec_B batch_spec));
      ("discount"%string, KwNum (discount cfg));
      ("n_step_return"%string, KwNat (n_step_return cfg)) ] in
  let '(replay_kwargs, ReplayCls) :=
    if prioritized_replay cfg then
      (dict_update replay_kwargs
         [ ("alpha"%string, KwNum (pri_alpha cfg));
           ("beta"%string, KwNum (pri_beta_init cfg));
           ("default_priority"%string, KwOptNum (default_priority cfg)) ],
       if async_ then AsyncPrioritizedReplayFrameBuffer
       else PrioritizedReplayFrameBuffer)
    else
      (replay_kwargs,
       if async_ then AsyncUniformReplayFrameBuffer
       else UniformReplayFrameBuffer) in
  let ReplayCls :=
    match ReplayBufferCls cfg with
    | Some cls => UserCls cls
    | None => ReplayCls
    end in
  (ReplayCls, replay_kwargs).

(** [initialize_replay_buffer]: the selected class is called with the
    keyword arguments and the object is stored in [self.replay_buffer]. *)
Definition initialize_replay_buffer
    (examples : Examples) (batch_spec : BatchSpec) (async_ : bool) : Buffer :=
  let '(ReplayCls, replay_kwargs) := replay_selection examples batch_spec async_ in
  construct ReplayCls replay_kwargs.

(** [optim_initialize(rank)]: builds the optimizer, assigns it to
    [self.optimizer] and, with prioritized replay, sets
    [pri_beta_itr = max(1, pri_beta_steps // sampler_bs)]. *)
Definition optim_initialize (sc : Sched) (st : State) : result (Sched * State) :=
  let ag := make_optimizer (agent st) in
  let? pbi :=
    if prioritized_replay cfg then
      let? d := py_floordiv (pri_beta_steps cfg) (sampler_bs sc) in
      Ok (Some (Z.max 1 d))
    else Ok (pri_beta_itr sc) in
  Ok (mkSched (sampler_bs sc) (mid_batch_reset sc) (updates_per_optimize sc)
        (min_itr_learn sc) pbi true,
      mkState (update_counter st) (replay_buffer st) ag (calls st)).

(** [DQN.initialize(agent, n_itr, batch_spec, mid_batch_reset, examples)];
    [n_itr], [world_size] and [rank] are stored or ignored and never read by
    the methods modelled here. *)
Definition dqn_initialize
    (ag : Agent) (batch_spec : BatchSpec) (mid_batch_reset_ : bool)
    (examples : Examples) : result (Sched * State) :=
  let sampler_bs_ := spec_size batch_spec in
  let? ratio :=
    py_fdiv (replay_ratio cfg * inject_Z sampler_bs_) (batch_size cfg) in
  let updates_per_optimize_ := Z.max 1 (py_round ratio) in
  let? min_itr_learn_ := py_floordiv (min_steps_learn cfg) sampler_bs_ in
  let? eps_itr := py_floordiv (eps_steps cfg) sampler_bs_ in
  let eps_itr_max := Z.max 1 eps_itr in
  let ag := set_epsilon_itr_min_max min_itr_learn_ eps_itr_max ag in
  let buf := initialize_replay_buffer examples batch_spec false in
  optim_initialize
    (mkSched sampler_bs_ mid_batch_reset_ updates_per_optimize_ min_itr_learn_
       None false)
    (mkState 0 buf ag []).

(** [DQN.async_initialize(agent, sampler_n_itr, batch_spec, mid_batch_reset,
    examples)]: no optimizer yet, [updates_per_optimize = updates_per_sync]. *)
Definition dqn_async_initialize
    (ag : Agent) (batch_spec : BatchSpec) (mid_batch_reset_ : bool)
    (examples : Examples) : result (Sched * State) :=
  let buf := initialize_replay_buffer examples batch_spec true in
  let sampler_bs_ := spec_size batch_spec in
  let updates_per_optimize_ := updates_per_sync cfg in
  let? min_itr_learn_ := py_floordiv (min_steps_learn cfg) sampler_bs_ in
  let? eps_itr := py_floordiv (eps_steps cfg) sampler_bs_ in
  let eps_itr_max := Z.max 1 eps_itr in
  let ag := set_epsilon_itr_min_max min_itr_learn_ eps_itr_max ag in
  Ok (mkSched sampler_bs_ mid_batch_reset_ updates_per_optimize_ min_itr_learn_
        None false,
      mkState 0 buf ag []).

(** [CategoricalDQN] runs the parent's method and then
    [agent.give_V_min_max(V_min, V_max)]. *)
Definition give_V (r : result (Sched * State)) : result (Sched * State) :=
  let? p := r in
  let st := snd p in
  Ok (fst p,
      mkState (update_counter st) (replay_buffer st)
        (give_V_min_max (V_min cfg) (V_max cfg) (agent st)) (calls st)).

Definition initialize
    (ag : Agent) (batch_spec : BatchSpec) (mid_batch_reset_ : bool)
    (examples : Examples) : result (Sched * State) :=
  match kind cfg with
  | DQN => dqn_initialize ag batch_spec mid_batch_reset_ examples
  | CategoricalDQN =>
      give_V (dqn_initialize ag batch_spec mid_batch_reset_ examples)
  end.

Definition async_initialize
    (ag : Agent) (batch_spec : BatchSpec) (mid_batch_reset_ : bool)
    (examples : Examples) : result (Sched * State) :=
  match kind cfg with
  | DQN => dqn_async_initialize ag batch_spec mid_batch_reset_ examples
  | CategoricalDQN =>
      give_V (dqn_async_initialize ag batch_spec mid_batch_reset_ examples)
  end.

End Initialization.

(** ** One optimization iteration *)

Section Optimization.
Context {C : Carriers} {E : Externals}.
Variable cfg : Config.
Variable sched : Sched.

(** [samples_to_buffer(samples)]. *)
Definition samples_to_buffer (samples : Samples) : SamplesToBuffer :=
  mkSamplesToBuffer (env_observation samples) (agent_action samples)
    (env_reward samples) (env_done samples).

(** Calls on the collaborators, each one recorded in the log. *)
Definition call_append_samples (s : SamplesToBuffer) : M unit :=
  st <- get_state ;;
  set_buffer (append_samples s (replay_buffer st)) ;;
  log (CallAppendSamples s).

Definition call_sample_batch (n : Z) : M SamplesFromReplay :=
  st <- get_state ;;
  let '(batch, buf) := sample_batch n (replay_buffer st) in
  set_buffer buf ;;
  log (CallSampleBatch n batch) ;;
  ret batch.

Definition call_update_batch_priorities (errors : tensor) : M unit :=
  st <- get_state ;;
  set_buffer (update_batch_priorities errors (replay_buffer st)) ;;
  log (CallUpdateBatchPriorities errors).

Definition call_set_beta (beta : Q) : M unit :=
  st <- get_state ;;
  set_buffer (set_beta beta (replay_buffer st)) ;;
  log (CallSetBeta beta).

Definition call_update_target (tau : Q) : M unit :=
  st <- get_state ;;
  set_agent (update_target tau (agent st)) ;;
  log (CallUpdateTarget tau).

(** [add_samples_to_buffer(itr, samples=None)]. *)
Definition add_samples_to_buffer (itr : Z) (samples : option Samples) : M unit :=
  if negb (0 <=? itr)%Z then raise AssertionError
  else
    match samples with
    | Some s =>
        let samples_to_buffer_ := samples_to_buffer s in
        call_append_samples samples_to_buffer_
    | None => ret tt
    end.

(** [pre_optimize_process()]: [pass]. *)
Definition pre_optimize_process : M unit := ret tt.

(** [_get_empty_optim_info()]. *)
Definition get_empty_optim_info : OptInfo := mkOptInfo [] [] [].

(** [_apply_optimization(samples_from_replay, opt_info)].  Its first
    statement, [self.optimizer.zero_grad()], reads [self.optimizer], which
    raises [AttributeError] when [optim_initialize] has not run. *)
Definition apply_optimization
    (samples_from_replay : SamplesFromReplay) (opt_info : OptInfo) : M OptInfo :=
  (if optimizer sched then ret tt else raise AttributeError) ;;
  st <- get_state ;;
  r <- lift (loss cfg sched (agent st) samples_from_replay) ;;
  let '(loss_v, td_abs_errors) := r in
  let '(ag, grad_norm) :=
    gradient_step (clip_grad_norm cfg) samples_from_replay (agent st) in
  set_agent ag ;;
  (if prioritized_replay cfg
   then call_update_batch_priorities td_abs_errors
   else ret tt) ;;
  ret (mkOptInfo (loss_ opt_info ++ [loss_v])
         (gradNorm opt_info ++ [grad_norm])
         (tdAbsErr opt_info ++ downsample8 td_abs_errors)).

(** The annealing fraction of [update_itr_hyperparams]:
    [min(1, max(0, itr - min_itr_learn) / (pri_beta_itr - min_itr_learn))]. *)
Definition beta_prog (pri_beta_itr_ itr : Z) : result Q :=
  let? ratio :=
    py_div (Z.max 0 (itr - min_itr_learn sched))
           (pri_beta_itr_ - min_itr_learn sched) in
  Ok (Qmin 1 ratio).

(** [new_beta = prog * pri_beta_final + (1 - prog) * pri_beta_init]. *)
Definition new_beta (prog : Q) : Q :=
  prog * pri_beta_final cfg + (1 - prog) * pri_beta_init cfg.

(** [update_itr_hyperparams(itr)]. *)
Definition update_itr_hyperparams (itr : Z) : M unit :=
  if prioritized_replay cfg then
    match pri_beta_itr sched with
    | None => raise AttributeError
    | Some pri_beta_itr_ =>
        if (itr <=? pri_beta_itr_)%Z then
          prog <- lift (beta_prog pri_beta_itr_ itr) ;;
          call_set_beta (new_beta prog)
        else ret tt
    end
  else ret tt.

(** The body of the loop of [optimize_agent]. *)
Definition optimize_step (opt_info : OptInfo) : M OptInfo :=
  samples_from_replay <- call_sample_batch (batch_size cfg) ;;
  opt_info <- apply_optimization samples_from_replay opt_info ;;
  st <- get_state ;;
  set_update_counter (update_counter st + 1) ;;
  r <- lift (if (target_update_interval cfg =? 0)%Z
             then Raise ZeroDivisionError
             else Ok ((update_counter st + 1) mod target_update_interval cfg)%Z) ;;
  (if (r =? 0)%Z then call_update_target (target_update_tau cfg) else ret tt) ;;
  ret opt_info.

(** [for _ in range(n): opt_info = body(opt_info)]. *)
Fixpoint for_range (n : nat) (body : OptInfo -> M OptInfo) (opt_info : OptInfo)
  : M OptInfo :=
  match n with
  | O => ret opt_info
  | S n' => opt_info <- body opt_info ;; for_range n' body opt_info
  end.

(** [optimize_agent(itr, samples=None, sampler_itr=None)]. *)
Definition optimize_agent
    (itr : Z) (samples : option Samples) (sampler_itr : option Z) : M OptInfo :=
  let itr := match sampler_itr with None => itr | Some s => s end in
  add_samples_to_buffer itr samples ;;
  let opt_info := get_empty_optim_info in
  if (itr <? min_itr_learn sched)%Z then ret opt_info
  else
    (if (itr =? min_itr_learn sched)%Z then pre_optimize_process else ret tt) ;;
    opt_info <- for_range (Z.to_nat (updates_per_optimize sched))
                  optimize_step opt_info ;;
    update_itr_hyperparams itr ;;
    ret opt_info.

End Optimization.

(** ** A scripted set of collaborators

    Test doubles used to run the learner on concrete inputs: a replay buffer
    that serves prepared batches in order and records what it is told, and
    an agent whose network outputs are its inputs scaled by one weight.
    The doubles of [valid_from_done] and [valid_mean], whose code is not
    among the modelled files, behave as rlpyt documents
    [rlpyt.algos.utils.valid_from_done] and [rlpyt.utils.tensor.valid_mean]:
    the mask is [1] up to and including the first [done] and [0] after it,
    the masked mean is [sum(t * valid) / sum(valid)]. *)

Module Scripted.

Definition RawBatch : Type :=
  (list tensor * list tensor * tensor * list bool * list bool * list Z * tensor)%type.

Record ScriptedBuffer : Type := mkScripted {
  queue : list RawBatch;
  appended : list (tensor * list bool);
  beta_now : option Q;
  priorities : list tensor
}.

Record LinearAgent : Type := mkLinear {
  weight : Q;
  target_weight : Q;
  atoms : Z
}.

#[global] Instance carriers : Carriers := {|
  Obs := list Q;
  Act := list Z;
  Inputs := list tensor;
  Agent := LinearAgent;
  Buffer := ScriptedBuffer
|}.

Definition of_raw (r : RawBatch) : SamplesFromReplay :=
  let '(ai, ti, ret_, d, dn, a, w) := r in
  mkSamplesFromReplay ai ti ret_ d dn a w.

Definition empty_batch : SamplesFromReplay :=
  mkSamplesFromReplay [] [] [] [] [] [] [].

Definition scripted_sample (n : Z) (b : ScriptedBuffer)
  : SamplesFromReplay * ScriptedBuffer :=
  match queue b with
  | [] => (empty_batch, b)
  | r :: rest => (of_raw r, mkScripted rest (appended b) (beta_now b) (priorities b))
  end.

Fixpoint pick {T} (idx : list Z) (rows : list (list T)) : list T :=
  match idx, rows with
  | i :: idx', row :: rows' =>
      match nth_error row (Z.to_nat i) with
      | Some x => x :: pick idx' rows'
      | None => pick idx' rows'
      end
  | _, _ => []
  end.

Fixpoint argmax_from (best : Q) (besti i : Z) (t : tensor) : Z :=
  match t with
  | [] => besti
  | x :: t' =>
      if Qle_bool x best then argmax_from best besti (i + 1) t'
      else argmax_from x i (i + 1) t'
  end.

Definition argmax (t : tensor) : Z :=
  match t with
  | [] => 0%Z
  | x :: t' => argmax_from x 0 1 t'
  end.

Definition maximum (t : tensor) : Q :=
  match t with
  | [] => 0
  | x :: t' => fold_left Qmax t' x
  end.

(** [valid[0] = 1], [valid[t] = 1 - min(1, done[0] + ... + done[t-1])]. *)
Fixpoint valid_after (seen : bool) (d : list bool) : tensor :=
  match d with
  | [] => []
  | x :: d' => (if seen then 0 else 1) :: valid_after (seen || x) d'
  end.

Definition split_probs (n : Z) (rows : list tensor) : list (list tensor) :=
  map (fun row => map (fun x => repeat x (Z.to_nat n)) row) rows.

#[global] Instance externals : Externals := {|
  construct := fun _ _ => mkScripted [] [] None [];
  append_samples := fun s b =>
    mkScripted (queue b) (appended b ++ [(reward s, stb_done s)])
      (beta_now b) (priorities b);
  sample_batch := scripted_sample;
  update_batch_priorities := fun e b =>
    mkScripted (queue b) (appended b) (beta_now b) (priorities b ++ [e]);
  set_beta := fun x b =>
    mkScripted (queue b) (appended b) (Some x) (priorities b);
  agent_call := fun a x => map (map (Qmult (weight a))) x;
  agent_target := fun a x => map (map (Qmult (target_weight a))) x;
  agent_call_p := fun a x => split_probs (atoms a) (map (map (Qmult (weight a))) x);
  agent_target_p := fun a x =>
    split_probs (atoms a) (map (map (Qmult (target_weight a))) x);
  n_atoms := atoms;
  update_target := fun _ a => mkLinear (weight a) (weight a) (atoms a);
  set_epsilon_itr_min_max := fun _ _ a => a;
  give_V_min_max := fun _ _ a => a;
  make_optimizer := fun a => a;
  gradient_step := fun _ _ a => (a, 0);
  select_at_indexes := @pick;
  argmax_last := argmax;
  max_last := maximum;
  ln := fun x => x - 1;
  valid_from_done := valid_after false;
  valid_mean := fun t v => t_sum (t_mul t v) / t_sum v
|}.

(** The constructor's defaults, with a small warm-up and annealing span. *)
Definition default_args : InitArgs :=
  mkInitArgs (99 # 100) 32 64 (Some 1) 1000000 8 1 312 1 10 1000000
    false false (6 # 10) (4 # 10) 1 320 None None 1 (-10) 10.

Definition with_priorities (a : InitArgs) : InitArgs :=
  mkInitArgs (arg_discount a) (arg_batch_size a) (arg_min_steps_learn a)
    (arg_delta_clip a) (arg_replay_size a) (arg_replay_ratio a)
    (arg_target_update_tau a) (arg_target_update_interval a)
    (arg_n_step_return a) (arg_clip_grad_norm a) (arg_eps_steps a)
    (arg_double_dqn a) true (arg_pri_alpha a) (arg_pri_beta_init a)
    (arg_pri_beta_final a) (arg_pri_beta_steps a) (arg_default_priority a)
    (arg_ReplayBufferCls a) (arg_updates_per_sync a) (arg_V_min a) (arg_V_max a).

Definition some_examples : Examples := mkExamples [0] [0%Z] [0] [false].
Definition some_samples : Samples := mkSamples [1; 2] [0%Z; 1%Z] [1; 0] [false; true].
Definition some_agent : LinearAgent := mkLinear 1 1 3.

(** The learner right after [initialize] on a sampler batch of 4 x 8 steps:
    plain DQN, DQN with prioritized replay, and CategoricalDQN with
    prioritized replay. *)
Definition dqn_config : Config := init DQN default_args.
Definition pri_config : Config := init DQN (with_priorities default_args).
Definition cat_config : Config := init CategoricalDQN (with_priorities default_args).

(** Prioritized DQN whose annealing span ends where learning starts:
    [pri_beta_steps = min_steps_learn = 64]. *)
Definition tight_args : InitArgs :=
  mkInitArgs (99 # 100) 32 64 (Some 1) 1000000 8 1 312 1 10 1000000
    false true (6 # 10) (4 # 10) 1 64 None None 1 (-10) 10.
Definition tight_config : Config := init DQN tight_args.
Definition tight_sched : Sched := mkSched 32 true 8 2 (Some 2%Z) true.

Definition spec_4x8 : BatchSpec := mkBatchSpec 8 32.

Definition sched0 : Sched := mkSched 32 true 8 2 None true.
Definition pri_sched : Sched := mkSched 32 true 8 2 (Some 10%Z) true.
Definition state0 : State := mkState 0 (mkScripted [] [] None []) some_agent [].

(** The same learner when the sampler resets environments only between
    iterations. *)
Definition no_reset_sched : Sched := mkSched 32 false 8 2 (Some 10%Z) true.

(** One transition whose Q-value equals its target. *)
Definition exact_batch : RawBatch :=
  ([[2]], [[0]], [2], [true], [true], [0%Z], [1]).

(** Two transitions over two atoms, the first one ending its episode. *)
Definition cat_batch : RawBatch :=
  ([[1 # 2; 1 # 2]; [1 # 2; 1 # 2]], [[1 # 2; 1 # 2]; [1 # 2; 1 # 2]],
   [1; 1], [true; false], [false; false], [0%Z; 1%Z], [1; 1]).

Definition load (bs : list RawBatch) (st : State) : State :=
  mkState (update_counter st)
    (mkScripted bs (appended (replay_buffer st)) (beta_now (replay_buffer st))
       (priorities (replay_buffer st)))
    (agent st) (calls st).

End Scripted.

(** ** Definitions that follow the wording of the specification *)

(** The buffer variant as a function of the two flags. *)
Definition spec_buffer_variant (prioritized async_ : bool) : BufferCls :=
  match prioritized, async_ with
  | false, false => UniformReplayFrameBuffer
  | true, false => PrioritizedReplayFrameBuffer
  | false, true => AsyncUniformReplayFrameBuffer
  | true, true => AsyncPrioritizedReplayFrameBuffer
  end.

(** The annealing fraction with the clipping applied to the quotient:
    [min(1, max(0, (itr - min_itr_learn) / (pri_beta_itr - min_itr_learn)))]. *)
Definition spec_prog (min_itr_learn_ pri_beta_itr_ itr : Z) : Q :=
  Qmin 1 (Qmax 0 (inject_Z (itr - min_itr_learn_)
                  / inject_Z (pri_beta_itr_ - min_itr_learn_))).

(** [x] lies between [a] and [b], in either order. *)
Definition between (a b x : Q) : Prop := Qmin a b <= x /\ x <= Qmax a b.

Section Vocabulary.
Context {C : Carriers} {E : Externals}.
Variable cfg : Config.
Variable sched : Sched.

(** The iteration number that [optimize_agent] works with. *)
Definition effective_itr (itr : Z) (sampler_itr : option Z) : Z :=
  match sampler_itr with None => itr | Some s => s end.

(** The calls of [add_samples_to_buffer(itr, samples)]. *)
Definition append_calls (itr : Z) (samples : option Samples) : list Event :=
  match samples with
  | Some s =>
      if (0 <=? itr)%Z then [CallAppendSamples (samples_to_buffer s)] else []
  | None => []
  end.

(** [errors] is the second component of what [loss] returns on [batch]. *)
Definition errors_of (batch : SamplesFromReplay) (errors : tensor) : Prop :=
  exists ag l, loss cfg sched ag batch = Ok (l, errors).

(** The calls of one pass of the loop body that got past the loss: the
    batch is sampled, its errors are reported when replay is prioritized,
    and the target network may be refreshed. *)
Inductive completed_pass : list Event -> Prop :=
| pass_intro (n : Z) (batch : SamplesFromReplay) (errors : tensor)
    (tl : list Event) :
    errors_of batch errors ->
    tl = [] \/ tl = [CallUpdateTarget (target_update_tau cfg)] ->
    completed_pass
      (CallSampleBatch n batch
         :: (if prioritized_replay cfg
             then [CallUpdateBatchPriorities errors] else [])
         ++ tl).

(** The calls of a pass that raised [e] before reporting any error: the
    optimizer was missing, or the loss raised. *)
Definition interrupted_pass (evs : list Event) (e : exn) : Prop :=
  exists n batch,
    evs = [CallSampleBatch n batch] /\
    ((optimizer sched = false /\ e = AttributeError) \/
     (optimizer sched = true /\
      exists ag, loss cfg sched ag batch = Raise e)).

(** The value given to [set_beta], when the call is made. *)
Definition beta_set_by (itr : Z) (b : Q) : Prop :=
  exists pbi prog,
    prioritized_replay cfg = true /\ pri_beta_itr sched = Some pbi /\
    (itr <= pbi)%Z /\ beta_prog sched pbi itr = Ok prog /\
    b = new_beta cfg prog.

(** A log in which every [sample_batch] is followed, before the next
    [sample_batch], by exactly one [update_batch_priorities], whose argument
    is the error tensor of the batch just sampled, and which has no other
    [update_batch_priorities]. *)
Inductive follows_protocol : list Event -> Prop :=
| protocol_nil : follows_protocol []
| protocol_other (ev : Event) (l : list Event) :
    is_sample ev = false -> is_update ev = false ->
    follows_protocol l -> follows_protocol (ev :: l)
| protocol_sample (n : Z) (batch : SamplesFromReplay) (errors : tensor)
    (mid l : list Event) :
    errors_of batch errors ->
    Forall quiet mid ->
    follows_protocol l ->
    follows_protocol
      (CallSampleBatch n batch :: mid ++ CallUpdateBatchPriorities errors :: l).

End Vocabulary.

(** ** Definitions for the further properties *)

Section Accounting.
Context {C : Carriers} {E : Externals}.

Definition is_update_target (ev : Event) : bool :=
  match ev with CallUpdateTarget _ => true | _ => false end.

(** How many calls of a log satisfy [p]. *)
Definition count_calls (p : Event -> bool) (evs : list Event) : nat :=
  List.length (filter p evs).

(** The number of passes of the loop of [optimize_agent] at iteration
    [itr]. *)
Definition passes (sched : Sched) (itr : Z) : nat :=
  if (itr <? min_itr_learn sched)%Z then 0%nat
  else Z.to_nat (updates_per_optimize sched).

(** Whether [update_itr_hyperparams(itr)] enters its annealing branch. *)
Definition anneals (cfg : Config) (sched : Sched) (itr : Z) : bool :=
  prioritized_replay cfg &&
  match pri_beta_itr sched with
  | Some pbi => (itr <=? pbi)%Z
  | None => false
  end.

(** The loss of one sample of [DQN._get_loss_values] as a function of its
    TD error [d = target - q]: [0.5 * d ** 2], replaced beyond [delta_clip]
    by [delta_clip * (abs(d) - delta_clip / 2)]. *)
Definition sample_loss (delta_clip_ : option Q) (d : Q) : Q :=
  match delta_clip_ with
  | Some dc =>
      if Qle_bool (Qabs d) dc then (1 # 2) * d ^ 2
      else dc * (Qabs d - dc / 2)
  | None => (1 # 2) * d ^ 2
  end.

(** A sampled batch with its importance weights replaced. *)
Definition with_is_weights (w : tensor) (s : SamplesFromReplay)
  : SamplesFromReplay :=
  mkSamplesFromReplay (agent_inputs s) (target_inputs s) (return_ s) (done s)
    (done_n s) (action s) w.

(** A sampled batch with its [done] flags replaced. *)
Definition with_done (d : list bool) (s : SamplesFromReplay)
  : SamplesFromReplay :=
  mkSamplesFromReplay (agent_inputs s) (target_inputs s) (return_ s) d
    (done_n s) (action s) (is_weights s).

(** The two steps of the projection in [CategoricalDQN.loss]:
    [projection_coeffs = clamp(1 - abs(next_z_bc - z_bc) / delta_z, 0, 1)],
    of shape [B,P,P'], and
    [target_p = (target_p_unproj.unsqueeze(1) * projection_coeffs).sum(-1)],
    of shape [B,P]. *)
Definition cat_projection_coeffs (delta_z : Q) (z : tensor)
    (next_z : list tensor) : list (list tensor) :=
  map (fun row =>
         map (fun zi =>
                map (fun nz => clamp 0 1 (1 - Qabs (nz - zi) / delta_z)) row)
             z)
      next_z.

Definition cat_project (target_p_unproj : list tensor)
    (projection_coeffs : list (list tensor)) : list tensor :=
  map2 (fun tpu coeffs => map (fun c => t_sum (t_mul tpu c)) coeffs)
       target_p_unproj projection_coeffs.

(** [target_p_unproj] of [CategoricalDQN.loss]: the target distribution of
    the greedy next action, shape [B,P']. *)
Definition cat_target_p_unproj (cfg : Config) (ag : Agent)
    (samples : SamplesFromReplay) : list tensor :=
  let z := linspace (V_min cfg) (V_max cfg) (n_atoms ag) in
  let target_ps := agent_target_p ag (target_inputs samples) in
  let tensordot_z := map (map (fun pr => t_sum (t_mul pr z))) in
  let next_a :=
    if double_dqn cfg then
      let next_ps := agent_call_p ag (target_inputs samples) in
      let next_qs := tensordot_z next_ps in
      map argmax_last next_qs
    else
      let target_qs := tensordot_z target_ps in
      map argmax_last target_qs in
  select_at_indexes tensor next_a target_ps.

(** [target_p] of [CategoricalDQN.loss]: [target_p_unproj] projected on the
    support [z]. *)
Definition cat_target_p (cfg : Config) (ag : Agent)
    (samples : SamplesFromReplay) (delta_z : Q) : list tensor :=
  let z := linspace (V_min cfg) (V_max cfg) (n_atoms ag) in
  let next_z := cat_next_z cfg z (return_ samples) (done_n samples) in
  cat_project (cat_target_p_unproj cfg ag samples)
    (cat_projection_coeffs delta_z z next_z).

(** The [optim_kwargs] stored by [DQN.__init__]: the argument, or
    [dict(eps=0.01 / batch_size)] when it is [None]. *)
Definition dqn_init_optim_kwargs (batch_size_ : Z) (optim_kwargs : option kwargs)
  : result kwargs :=
  match optim_kwargs with
  | None =>
      let? eps := py_fdiv (1 # 100) batch_size_ in
      Ok [("eps"%string, KwNum eps)]
  | Some d => Ok d
  end.

(** [CategoricalDQN.__init__] after the parent's constructor:
    [if "eps" not in self.optim_kwargs:
       self.optim_kwargs["eps"] = 0.01 / self.batch_size],
    where [self.batch_size] reads the [_batch_size] that the parent's
    constructor stored. *)
Definition cat_init_optim_kwargs (batch_size_ : Z) (optim_kwargs : option kwargs)
  : result kwargs :=
  let? d := dqn_init_optim_kwargs batch_size_ optim_kwargs in
  match dict_get "eps" d with
  | None =>
      let? eps := py_fdiv (1 # 100) batch_size_ in
      Ok (dict_set "eps" (KwNum eps) d)
  | Some _ => Ok d
  end.

Definition init_optim_kwargs (k : AlgoKind) (batch_size_ : Z)
    (optim_kwargs : option kwargs) : result kwargs :=
  match k with
  | DQN => dqn_init_optim_kwargs batch_size_ optim_kwargs
  | CategoricalDQN => cat_init_optim_kwargs batch_size_ optim_kwargs
  end.

End Accounting.

(** Further concrete learners and runs. *)
Module Scenarios.

(** CategoricalDQN with uniform replay. *)
Definition cat_plain_config : Config := init CategoricalDQN Scripted.default_args.

(** A learning iteration of the prioritized DQN learner on one batch. *)
Definition learning_run : result OptInfo * State :=
  optimize_agent Scripted.pri_config Scripted.pri_sched 2 None None
    (Scripted.load [Scripted.exact_batch] Scripted.state0).

Definition info_of (r : result OptInfo * State) : OptInfo :=
  match fst r with
  | Ok oi => oi
  | Raise _ => get_empty_optim_info
  end.

(** Constructor arguments with a zero training batch size. *)
Definition zero_batch_args : InitArgs :=
  mkInitArgs (99 # 100) 0 64 (Some 1) 1000000 8 1 312 1 10 1000000
    false false (6 # 10) (4 # 10) 1 320 None None 1 (-10) 10.

(** DQN that is told never to update its target network by an interval of
    zero. *)
Definition zero_interval_args : InitArgs :=
  mkInitArgs (99 # 100) 32 64 (Some 1) 1000000 8 1 0 1 10 1000000
    false false (6 # 10) (4 # 10) 1 320 None None 1 (-10) 10.
Definition zero_interval_config : Config := init DQN zero_interval_args.

(** One transition whose Q-value is 2 and whose target is 3. *)
Definition off_batch : Scripted.RawBatch :=
  ([[2]], [[0]], [3], [true], [true], [0%Z], [1]).

(** One update of the prioritized DQN learner on that transition. *)
Definition update_run : result OptInfo * State :=
  apply_optimization Scripted.pri_config Scripted.sched0
    (Scripted.of_raw off_batch) get_empty_optim_info Scripted.state0.

(** DQN with the squared-error loss: [delta_clip = None]. *)
Definition squared_args : InitArgs :=
  mkInitArgs (99 # 100) 32 64 None 1000000 8 1 312 1 10 1000000
    false false (6 # 10) (4 # 10) 1 320 None None 1 (-10) 10.
Definition squared_config : Config := init DQN squared_args.

(** Two Q-values with their targets, one TD error beyond [delta_clip = 1]
    and one within it. *)
Definition two_q : tensor := [0; 0].
Definition two_targets : tensor := [3; 1 # 2].

End Scenarios.

(** * Properties *)

(** ** The helpers on small inputs *)

Example py_round_ties :
  map py_round [5 # 2; 7 # 2; -(1 # 2); 6 # 10; -(3 # 2)] = [2; 4; 0; 1; -2]%Z.
Proof. reflexivity. Qed.

Example downsample8_20 :
  downsample8 (seq 0 20) = [0; 8; 16]%nat.
Proof. reflexivity. Qed.

Example clamp_crossed_bounds : clamp 0 (-1) 5 == -1.
Proof. reflexivity. Qed.

Example py_floordiv_signs :
  (py_floordiv (-7) 2, py_floordiv 7 (-2), py_floordiv 7 0)
  = (Ok (-4)%Z, Ok (-4)%Z, Raise ZeroDivisionError).
Proof. reflexivity. Qed.

Example linspace_default_support :
  Forall2 Qeq (linspace (-10) 10 5) [-10; -5; 0; 5; 10].
Proof. repeat constructor. Qed.

(** ** Arithmetic of [clamp] and of lists *)

Lemma clamp_le_hi (lo hi x : Q) : clamp lo hi x <= hi.
Proof. unfold clamp. apply Q.le_min_r. Qed.

Lemma clamp_ge_lo (lo hi x : Q) : lo <= hi -> lo <= clamp lo hi x.
Proof.
  intros H. unfold clamp. apply Q.min_glb; [apply Q.le_max_r | exact H].
Qed.

Lemma Forall_t_clamp (lo hi : Q) (t : tensor) :
  lo <= hi -> Forall (fun x => lo <= x /\ x <= hi) (t_clamp lo hi t).
Proof.
  intros H. unfold t_clamp. apply Forall_forall. intros x Hx.
  apply in_map_iff in Hx. destruct Hx as [y [<- _]].
  split; [apply clamp_ge_lo; exact H | apply clamp_le_hi].
Qed.

Lemma Forall_t_abs (t : tensor) : Forall (fun x => 0 <= x) (t_abs t).
Proof.
  unfold t_abs. apply Forall_forall. intros x Hx.
  apply in_map_iff in Hx. destruct Hx as [y [<- _]]. apply Qabs_nonneg.
Qed.

Lemma map2_length {A B D} (f : A -> B -> D) (l : list A) (l' : list B) :
  List.length (map2 f l l') = Nat.min (List.length l) (List.length l').
Proof.
  revert l'. induction l as [|a l IH]; intros [|b l']; simpl; auto.
Qed.

Lemma map2_nth {A B D} (f : A -> B -> D) (l : list A) (l' : list B)
    (i : nat) (da : A) (db : B) (dd : D) :
  (i < List.length l)%nat -> (i < List.length l')%nat ->
  nth i (map2 f l l') dd = f (nth i l da) (nth i l' db).
Proof.
  revert l' i. induction l as [|a l IH]; intros [|b l'] i Hl Hl'; simpl in *;
    try lia.
  destruct i as [|i]; [reflexivity|]. apply IH; lia.
Qed.

Lemma map_nth_in {A B} (f : A -> B) (l : list A) (i : nat) (da : A) (db : B) :
  (i < List.length l)%nat -> nth i (map f l) db = f (nth i l da).
Proof.
  revert i. induction l as [|a l IH]; intros i Hl; simpl in *; [lia|].
  destruct i as [|i]; [reflexivity|]. apply IH; lia.
Qed.

(** ** The state monad only ever extends the log *)

Section LogFacts.
Context {C : Carriers} {E : Externals}.
Variable cfg : Config.
Variable sched : Sched.

(** The three results of [add_samples_to_buffer]. *)
Lemma add_samples_negative (itr : Z) (samples : option Samples) (st : State) :
  (itr < 0)%Z -> add_samples_to_buffer itr samples st = (Raise AssertionError, st).
Proof.
  intros H. unfold add_samples_to_buffer.
  destruct (Z.leb_spec 0 itr); [lia | reflexivity].
Qed.

Lemma add_samples_none (itr : Z) (st : State) :
  (0 <= itr)%Z -> add_samples_to_buffer itr None st = (Ok tt, st).
Proof.
  intros H. unfold add_samples_to_buffer.
  destruct (Z.leb_spec 0 itr); [reflexivity | lia].
Qed.

Lemma add_samples_some (itr : Z) (s : Samples) (st : State) :
  (0 <= itr)%Z ->
  add_samples_to_buffer itr (Some s) st =
    (Ok tt,
     mkState (update_counter st)
       (append_samples (samples_to_buffer s) (replay_buffer st))
       (agent st)
       (calls st ++ [CallAppendSamples (samples_to_buffer s)])).
Proof.
  intros H. unfold add_samples_to_buffer.
  destruct (Z.leb_spec 0 itr); [reflexivity | lia].
Qed.

End LogFacts.

Section Protocol.
Context {C : Carriers} {E : Externals}.
Variable cfg : Config.
Variable sched : Sched.

Lemma optimize_step_log (oi : OptInfo) (st : State) :
  exists evs,
    calls (snd (optimize_step cfg sched oi st)) = calls st ++ evs /\
    ((completed_pass cfg sched evs /\
      (is_ok (fst (optimize_step cfg sched oi st)) = true \/
       fst (optimize_step cfg sched oi st) = Raise ZeroDivisionError)) \/
     (exists e, interrupted_pass cfg sched evs e /\
                fst (optimize_step cfg sched oi st) = Raise e)).
Proof.
  unfold optimize_step, call_sample_batch, apply_optimization, bind, get_state,
    set_buffer, log, lift, ret, set_agent, call_update_batch_priorities,
    call_update_target, set_update_counter.
  simpl.
  destruct (sample_batch (batch_size cfg) (replay_buffer st)) as [batch buf] eqn:Hs.
  simpl.
  destruct (optimizer sched) eqn:Ho; simpl.
  2:{ eexists. split; [reflexivity|]. right. exists AttributeError.
      split; [|reflexivity].
      exists (batch_size cfg), batch. split; [reflexivity|]. left.
      split; [exact Ho | reflexivity]. }
  destruct (loss cfg sched (agent st) batch) as [[l e]|ex] eqn:Hl.
  - destruct (gradient_step (clip_grad_norm cfg) batch (agent st)) as [ag gn].
    simpl.
    assert (Herr : errors_of cfg sched batch e) by (exists (agent st), l; exact Hl).
    destruct (prioritized_replay cfg) eqn:Hp; simpl;
      destruct (target_update_interval cfg =? 0)%Z; simpl;
      try destruct (_ mod _ =? 0)%Z; simpl;
      rewrite <- ?app_assoc; simpl;
      eexists; (split; [reflexivity|]); left;
      (split; [| auto]).
    all: match goal with
         | |- completed_pass cfg sched (?a :: ?b :: ?c :: nil) =>
             pose proof (pass_intro cfg sched (batch_size cfg) batch e [c] Herr) as P
         | |- completed_pass cfg sched (CallSampleBatch ?n ?x :: CallUpdateTarget ?t :: nil) =>
             pose proof (pass_intro cfg sched (batch_size cfg) batch e [CallUpdateTarget t] Herr) as P
         | |- _ =>
             pose proof (pass_intro cfg sched (batch_size cfg) batch e [] Herr) as P
         end; rewrite Hp in P; simpl in P; apply P; auto.
  - simpl. eexists. split; [reflexivity|]. right. exists ex. split; [|reflexivity].
    exists (batch_size cfg), batch. split; [reflexivity|]. right.
    split; [exact Ho|]. exists (agent st). exact Hl.
Qed.

(** The calls of the whole loop: completed passes, then at most one
    interrupted pass, which ends the run with the exception of its loss. *)
Lemma for_range_log (n : nat) (oi : OptInfo) (st : State) :
  exists blocks tail,
    calls (snd (for_range n (optimize_step cfg sched) oi st)) =
      calls st ++ concat blocks ++ tail /\
    Forall (completed_pass cfg sched) blocks /\
    (tail = [] \/
     exists e, interrupted_pass cfg sched tail e /\
               fst (for_range n (optimize_step cfg sched) oi st) = Raise e) /\
    (is_ok (fst (for_range n (optimize_step cfg sched) oi st)) = true ->
     tail = [] /\ List.length blocks = n).
Proof.
  revert oi st. induction n as [|n IH]; intros oi st.
  - exists [], []. simpl. rewrite app_nil_r. repeat split; auto.
  - change (for_range (S n) (optimize_step cfg sched) oi st)
      with (match optimize_step cfg sched oi st with
            | (Ok a, s') => for_range n (optimize_step cfg sched) a s'
            | (Raise e, s') => (Raise e, s')
            end).
    destruct (optimize_step_log oi st) as [evs [Hc Hcase]].
    destruct (optimize_step cfg sched oi st) as [[oi'|ex] st'] eqn:Hstep;
      simpl in *.
    + destruct Hcase as [[Hpass _] | [e [_ Habs]]]; [|discriminate].
      destruct (IH oi' st') as [blocks [tail [Hc' [Hb [Ht Hok]]]]].
      exists (evs :: blocks), tail. simpl.
      rewrite Hc', Hc, <- !app_assoc.
      repeat split; auto.
      * apply Hok; assumption.
      * f_equal. apply Hok; assumption.
    + destruct Hcase as [[Hpass _] | [e [Hint He]]].
      * exists [evs], []. simpl. rewrite !app_nil_r.
        repeat split; auto; discriminate.
      * exists [], evs. simpl.
        repeat split; auto; try discriminate.
        right. exists e. split; [exact Hint | exact He].
Qed.

(** [update_itr_hyperparams], case by case. *)
Lemma update_itr_hyperparams_cases (itr : Z) (st : State) :
  update_itr_hyperparams cfg sched itr st =
    if prioritized_replay cfg then
      match pri_beta_itr sched with
      | None => (Raise AttributeError, st)
      | Some pbi =>
          if (itr <=? pbi)%Z then
            match beta_prog sched pbi itr with
            | Ok prog =>
                (Ok tt,
                 mkState (update_counter st)
                   (set_beta (new_beta cfg prog) (replay_buffer st))
                   (agent st)
                   (calls st ++ [CallSetBeta (new_beta cfg prog)]))
            | Raise e => (Raise e, st)
            end
          else (Ok tt, st)
      end
    else (Ok tt, st).
Proof.
  unfold update_itr_hyperparams.
  destruct (prioritized_replay cfg); [|reflexivity].
  destruct (pri_beta_itr sched) as [pbi|]; [|reflexivity].
  destruct (itr <=? pbi)%Z; [|reflexivity].
  unfold bind, lift. destruct (beta_prog sched pbi itr); reflexivity.
Qed.

Lemma update_itr_hyperparams_log (itr : Z) (st : State) :
  exists post,
    calls (snd (update_itr_hyperparams cfg sched itr st)) = calls st ++ post /\
    (post = [] \/ exists b, post = [CallSetBeta b] /\ beta_set_by cfg sched itr b).
Proof.
  rewrite update_itr_hyperparams_cases.
  destruct (prioritized_replay cfg) eqn:Hp;
    [| exists []; rewrite app_nil_r; auto].
  destruct (pri_beta_itr sched) as [pbi|] eqn:Hb;
    [| exists []; rewrite app_nil_r; auto].
  destruct (Z.leb_spec itr pbi);
    [| exists []; rewrite app_nil_r; auto].
  destruct (beta_prog sched pbi itr) as [prog|e] eqn:Hprog;
    [| exists []; rewrite app_nil_r; auto].
  exists [CallSetBeta (new_beta cfg prog)]. split; [reflexivity|].
  right. exists (new_beta cfg prog). split; [reflexivity|].
  exists pbi, prog. auto.
Qed.

Lemma add_samples_log (itr : Z) (samples : option Samples) (st : State) :
  calls (snd (add_samples_to_buffer itr samples st)) =
    calls st ++ append_calls itr samples.
Proof.
  unfold append_calls, add_samples_to_buffer.
  destruct (0 <=? itr)%Z; destruct samples; simpl;
    rewrite ?app_nil_r; reflexivity.
Qed.

(** [optimize_agent] with its sequencing written out. *)
Lemma optimize_agent_unfold
    (itr : Z) (samples : option Samples) (sampler_itr : option Z) (st : State) :
  optimize_agent cfg sched itr samples sampler_itr st =
    let itr' := effective_itr itr sampler_itr in
    match add_samples_to_buffer itr' samples st with
    | (Raise e, s1) => (Raise e, s1)
    | (Ok _, s1) =>
        if (itr' <? min_itr_learn sched)%Z then (Ok get_empty_optim_info, s1)
        else
          match for_range (Z.to_nat (updates_per_optimize sched))
                  (optimize_step cfg sched) get_empty_optim_info s1 with
          | (Raise e, s2) => (Raise e, s2)
          | (Ok oi, s2) =>
              match update_itr_hyperparams cfg sched itr' s2 with
              | (Raise e, s3) => (Raise e, s3)
              | (Ok _, s3) => (Ok oi, s3)
              end
          end
    end.
Proof.
  unfold optimize_agent. fold (effective_itr itr sampler_itr). cbv zeta.
  unfold bind at 1.
  destruct (add_samples_to_buffer _ samples st) as [[[]|e] s1]; [|reflexivity].
  destruct (_ <? _)%Z; [reflexivity|].
  unfold bind at 1.
  replace ((if (effective_itr itr sampler_itr =? min_itr_learn sched)%Z
            then pre_optimize_process else ret tt) s1) with (Ok tt, s1)
    by (destruct (_ =? _)%Z; reflexivity).
  unfold bind at 1.
  destruct (for_range _ _ _ s1) as [[oi|e] s2]; [|reflexivity].
  unfold bind, ret.
  destruct (update_itr_hyperparams cfg sched _ s2) as [[[]|e] s3]; reflexivity.
Qed.

(** The calls of one [optimize_agent]: the append, the passes of the loop,
    and the new [beta]. *)
Lemma optimize_agent_log
    (itr : Z) (samples : option Samples) (sampler_itr : option Z) (st : State) :
  let run := optimize_agent cfg sched itr samples sampler_itr st in
  let itr' := effective_itr itr sampler_itr in
  exists blocks tail post,
    calls (snd run) =
      calls st ++ append_calls itr' samples ++ concat blocks ++ tail ++ post /\
    Forall (completed_pass cfg sched) blocks /\
    (tail = [] \/
     exists e, interrupted_pass cfg sched tail e /\ fst run = Raise e /\ post = []) /\
    (post = [] \/ exists b, post = [CallSetBeta b] /\ beta_set_by cfg sched itr' b) /\
    ((itr' < min_itr_learn sched)%Z -> blocks = [] /\ tail = [] /\ post = []).
Proof.
  intros run itr'. subst run. rewrite optimize_agent_unfold. cbv zeta. fold itr'.
  pose proof (add_samples_log itr' samples st) as Hadd.
  destruct (add_samples_to_buffer itr' samples st) as [[[]|ex] st1] eqn:Ha;
    simpl in Hadd.
  2:{ exists [], [], []. simpl. rewrite Hadd, !app_nil_r. repeat split; auto. }
  destruct (Z.ltb_spec itr' (min_itr_learn sched)) as [Hlt|Hge].
  { exists [], [], []. simpl. rewrite Hadd, !app_nil_r. repeat split; auto. }
  destruct (for_range_log (Z.to_nat (updates_per_optimize sched))
              get_empty_optim_info st1) as [blocks [tail [Hc [Hb [Ht Hok]]]]].
  destruct (for_range (Z.to_nat (updates_per_optimize sched))
              (optimize_step cfg sched) get_empty_optim_info st1)
    as [[oi|ex] st2] eqn:Hloop; simpl in *.
  - destruct (Hok eq_refl) as [-> _].
    destruct (update_itr_hyperparams_log itr' st2) as [post [Hp Hpost]].
    destruct (update_itr_hyperparams cfg sched itr' st2) as [[[]|ex] st3];
      simpl in *;
      exists blocks, [], post; rewrite Hp, Hc, Hadd, <- !app_assoc; simpl;
      repeat split; auto; lia.
  - exists blocks, tail, []. rewrite Hc, Hadd, <- !app_assoc, !app_nil_r.
    repeat split; auto; try lia.
    destruct Ht as [->|[e [Hi He]]]; [left; reflexivity|].
    right. exists e. auto.
Qed.

End Protocol.

(** ** Claims about the iteration *)

Section IterationClaims.
Context {C : Carriers} {E : Externals}.
Variable cfg : Config.
Variable sched : Sched.

Lemma completed_pass_no_append (evs : list Event) :
  completed_pass cfg sched evs -> Forall (fun ev => is_append ev = false) evs.
Proof.
  intros H. destruct H as [n batch errors tl _ Htl].
  constructor; [reflexivity|].
  apply Forall_app. split.
  - destruct (prioritized_replay cfg); repeat constructor.
  - destruct Htl as [-> | ->]; repeat constructor.
Qed.

Lemma passes_no_append (blocks : list (list Event)) :
  Forall (completed_pass cfg sched) blocks ->
  Forall (fun ev => is_append ev = false) (concat blocks).
Proof.
  induction 1 as [|b bs Hb _ IH]; simpl; [constructor|].
  apply Forall_app. split; [apply completed_pass_no_append; exact Hb | exact IH].
Qed.

(** Before learning starts, [optimize_agent] is [add_samples_to_buffer]
    followed by the return of the empty [OptInfo]. *)
Lemma optimize_agent_early
    (itr : Z) (samples : option Samples) (sampler_itr : option Z) (st : State) :
  (effective_itr itr sampler_itr < min_itr_learn sched)%Z ->
  optimize_agent cfg sched itr samples sampler_itr st =
    match add_samples_to_buffer (effective_itr itr sampler_itr) samples st with
    | (Ok _, st') => (Ok get_empty_optim_info, st')
    | (Raise e, st') => (Raise e, st')
    end.
Proof.
  intros Hlt. rewrite optimize_agent_unfold. cbv zeta.
  destruct (add_samples_to_buffer (effective_itr itr sampler_itr) samples st)
    as [[[]|e] st'] eqn:Ha; [|reflexivity].
  destruct (Z.ltb_spec (effective_itr itr sampler_itr) (min_itr_learn sched));
    [reflexivity | lia].
Qed.

(** The first call of a pass of the loop is [sample_batch] on the buffer
    the pass starts with; with the optimizer built and prioritized replay,
    the errors of that batch are reported next when its loss returns. *)
Lemma optimize_step_first_call (oi : OptInfo) (st : State) :
  exists rest,
    calls (snd (optimize_step cfg sched oi st)) =
      calls st ++
      CallSampleBatch (batch_size cfg)
        (fst (sample_batch (batch_size cfg) (replay_buffer st))) :: rest /\
    (optimizer sched = true -> prioritized_replay cfg = true ->
     forall l errors,
       loss cfg sched (agent st)
         (fst (sample_batch (batch_size cfg) (replay_buffer st))) =
         Ok (l, errors) ->
       exists rest', rest = CallUpdateBatchPriorities errors :: rest').
Proof.
  unfold optimize_step, call_sample_batch, apply_optimization, bind, get_state,
    set_buffer, log, lift, ret, raise, set_agent, call_update_batch_priorities,
    call_update_target, set_update_counter.
  simpl.
  destruct (sample_batch (batch_size cfg) (replay_buffer st)) as [batch buf].
  simpl.
  destruct (optimizer sched); simpl;
    [|eexists; split; [reflexivity | discriminate]].
  destruct (loss cfg sched (agent st) batch) as [[l e]|ex]; simpl;
    [|eexists; split; [reflexivity | intros _ _ l errors H; discriminate]].
  destruct (gradient_step (clip_grad_norm cfg) batch (agent st)) as [ag gn].
  simpl.
  destruct (prioritized_replay cfg); simpl;
    destruct (target_update_interval cfg =? 0)%Z; simpl;
    try destruct (_ mod _ =? 0)%Z; simpl;
    rewrite <- ?app_assoc; simpl; eexists; (split; [reflexivity|]);
    try discriminate;
    intros _ _ l' errors' H; injection H as _ <-; eexists; reflexivity.
Qed.

(** C10, as the code has it. For every [itr >= 0],
    [add_samples_to_buffer(itr, None)] returns with the state, and so the
    replay buffer, unchanged; for [itr < 0] the assertion fails before
    anything is appended; the method changes the state only when [samples]
    is given and [itr >= 0].  [optimize_agent] called with [samples = None]
    makes no [append_samples] call, fails on the same assertion for a
    negative iteration number, and for [itr >= 0] the rest of the method
    starts from the very state the method was called in: before
    [min_itr_learn] it returns with the state, and so the replay buffer,
    unchanged, while a learning iteration with at least one update goes on
    to call [sample_batch] on that buffer and, with the optimizer built and
    prioritized replay, [update_batch_priorities] with the errors of the
    sampled batch when its loss returns. *)
Theorem C10_no_append_without_samples :
  forall (itr : Z) (samples : option Samples) (sampler_itr : option Z)
         (st : State),
    ((0 <= itr)%Z -> add_samples_to_buffer itr None st = (Ok tt, st)) /\
    ((itr < 0)%Z ->
     add_samples_to_buffer itr samples st = (Raise AssertionError, st)) /\
    (snd (add_samples_to_buffer itr samples st) <> st ->
     (0 <= itr)%Z /\ samples <> None) /\
    (exists new,
       calls (snd (optimize_agent cfg sched itr None sampler_itr st)) =
         calls st ++ new /\
       Forall (fun ev => is_append ev = false) new) /\
    ((effective_itr itr sampler_itr < 0)%Z ->
     optimize_agent cfg sched itr samples sampler_itr st =
       (Raise AssertionError, st)) /\
    ((0 <= effective_itr itr sampler_itr)%Z ->
     optimize_agent cfg sched itr None sampler_itr st =
       if (effective_itr itr sampler_itr <? min_itr_learn sched)%Z
       then (Ok get_empty_optim_info, st)
       else
         match for_range (Z.to_nat (updates_per_optimize sched))
                 (optimize_step cfg sched) get_empty_optim_info st with
         | (Raise e, s2) => (Raise e, s2)
         | (Ok oi, s2) =>
             match update_itr_hyperparams cfg sched
                     (effective_itr itr sampler_itr) s2 with
             | (Raise e, s3) => (Raise e, s3)
             | (Ok _, s3) => (Ok oi, s3)
             end
         end) /\
    ((0 <= effective_itr itr sampler_itr)%Z ->
     (effective_itr itr sampler_itr < min_itr_learn sched)%Z ->
     optimize_agent cfg sched itr None sampler_itr st =
       (Ok get_empty_optim_info, st)) /\
    ((0 <= effective_itr itr sampler_itr)%Z ->
     (min_itr_learn sched <= effective_itr itr sampler_itr)%Z ->
     (1 <= updates_per_optimize sched)%Z ->
     exists rest,
       calls (snd (optimize_agent cfg sched itr None sampler_itr st)) =
         calls st ++
         CallSampleBatch (batch_size cfg)
           (fst (sample_batch (batch_size cfg) (replay_buffer st))) :: rest /\
       (optimizer sched = true -> prioritized_replay cfg = true ->
        forall l errors,
          loss cfg sched (agent st)
            (fst (sample_batch (batch_size cfg) (replay_buffer st))) =
            Ok (l, errors) ->
          exists rest', rest = CallUpdateBatchPriorities errors :: rest')).
Proof.
  intros itr samples sampler_itr st.
  assert (Hlearn :
            (0 <= effective_itr itr sampler_itr)%Z ->
            (min_itr_learn sched <= effective_itr itr sampler_itr)%Z ->
            (1 <= updates_per_optimize sched)%Z ->
            exists rest,
              calls (snd (optimize_agent cfg sched itr None sampler_itr st)) =
                calls st ++
                CallSampleBatch (batch_size cfg)
                  (fst (sample_batch (batch_size cfg) (replay_buffer st)))
                  :: rest /\
              (optimizer sched = true -> prioritized_replay cfg = true ->
               forall l errors,
                 loss cfg sched (agent st)
                   (fst (sample_batch (batch_size cfg) (replay_buffer st))) =
                   Ok (l, errors) ->
                 exists rest', rest = CallUpdateBatchPriorities errors :: rest')).
  { intros H0 Hge Hn. rewrite optimize_agent_unfold. cbv zeta.
    rewrite add_samples_none by assumption.
    destruct (Z.ltb_spec (effective_itr itr sampler_itr) (min_itr_learn sched));
      [lia|].
    destruct (Z.to_nat (updates_per_optimize sched)) as [|n] eqn:Hupo; [lia|].
    change (for_range (S n) (optimize_step cfg sched) get_empty_optim_info st)
      with (match optimize_step cfg sched get_empty_optim_info st with
            | (Ok a, s') => for_range n (optimize_step cfg sched) a s'
            | (Raise e, s') => (Raise e, s')
            end).
    destruct (optimize_step_first_call get_empty_optim_info st)
      as [rest1 [Hfirst Hnext]].
    assert (Hext : forall more,
              optimizer sched = true -> prioritized_replay cfg = true ->
              forall l errors,
                loss cfg sched (agent st)
                  (fst (sample_batch (batch_size cfg) (replay_buffer st))) =
                  Ok (l, errors) ->
                exists rest',
                  rest1 ++ more = CallUpdateBatchPriorities errors :: rest').
    { intros more Ho Hp l errors Hl.
      destruct (Hnext Ho Hp l errors Hl) as [rest' ->].
      eexists. reflexivity. }
    destruct (optimize_step cfg sched get_empty_optim_info st)
      as [[oi1|e1] s1]; simpl in Hfirst;
      [|exists rest1; split; [exact Hfirst | exact Hnext]].
    destruct (for_range_log cfg sched n oi1 s1)
      as [blocks [tail [Hloop _]]].
    destruct (for_range n (optimize_step cfg sched) oi1 s1) as [[oi2|e2] s2];
      simpl in Hloop.
    - destruct (update_itr_hyperparams_log cfg sched
                  (effective_itr itr sampler_itr) s2) as [post [Hpost _]].
      destruct (update_itr_hyperparams cfg sched _ s2) as [[[]|e3] s3];
        simpl in Hpost |- *;
        exists (rest1 ++ (concat blocks ++ tail) ++ post);
        (split; [|apply Hext]);
        rewrite Hpost, Hloop, Hfirst, <- !app_assoc; simpl;
        rewrite <- ?app_assoc; reflexivity.
    - simpl. exists (rest1 ++ concat blocks ++ tail).
      split; [|apply Hext].
      rewrite Hloop, Hfirst, <- !app_assoc. simpl. reflexivity. }
  repeat split; try exact Hlearn.
  - apply add_samples_none.
  - apply add_samples_negative.
  - destruct (Z.leb_spec 0 itr); [assumption|].
    rewrite add_samples_negative in H by assumption. contradiction.
  - intros ->. destruct (Z.leb_spec 0 itr).
    + rewrite add_samples_none in H by assumption. contradiction.
    + rewrite add_samples_negative in H by assumption. contradiction.
  - destruct (optimize_agent_log cfg sched itr None sampler_itr st)
      as [blocks [tail [post [Hc [Hb [Ht [Hp _]]]]]]].
    simpl in Hc. exists (concat blocks ++ tail ++ post). split; [exact Hc|].
    apply Forall_app. split; [apply passes_no_append; exact Hb|].
    apply Forall_app. split.
    + destruct Ht as [->|[e [[n [batch [-> _]]] _]]]; repeat constructor.
    + destruct Hp as [->|[b [-> _]]]; repeat constructor.
  - intros Hneg. rewrite optimize_agent_unfold. cbv zeta.
    rewrite add_samples_negative by assumption. reflexivity.
  - intros H0. rewrite optimize_agent_unfold. cbv zeta.
    rewrite add_samples_none by assumption. reflexivity.
  - intros H0 Hlt. rewrite optimize_agent_early by assumption.
    rewrite add_samples_none by assumption. reflexivity.
Qed.

(** C1, as the code has it. For every iteration with
    [0 <= itr < min_itr_learn] ([itr] being [sampler_itr] when that is
    given), [optimize_agent] appends the provided samples, makes no
    [sample_batch] call and returns the empty [OptInfo]; no [sample_batch]
    call is made for any [itr < min_itr_learn], so a run that samples has
    [itr >= min_itr_learn]; and [initialize] and [async_initialize] set
    [min_itr_learn = min_steps_learn // batch_spec.size]. *)
Theorem C1_no_sampling_before_min_itr_learn :
  forall (itr : Z) (samples : option Samples) (sampler_itr : option Z)
         (st : State),
    let itr' := effective_itr itr sampler_itr in
    let run := optimize_agent cfg sched itr samples sampler_itr st in
    ((0 <= itr')%Z -> (itr' < min_itr_learn sched)%Z ->
     run =
       (Ok get_empty_optim_info,
        match samples with
        | Some s =>
            mkState (update_counter st)
              (append_samples (samples_to_buffer s) (replay_buffer st))
              (agent st)
              (calls st ++ [CallAppendSamples (samples_to_buffer s)])
        | None => st
        end)) /\
    ((itr' < min_itr_learn sched)%Z ->
     exists new,
       calls (snd run) = calls st ++ new /\
       Forall (fun ev => is_sample ev = false) new) /\
    (forall new,
       calls (snd run) = calls st ++ new ->
       Exists (fun ev => is_sample ev = true) new ->
       (min_itr_learn sched <= itr')%Z) /\
    (forall ag batch_spec mbr examples sc st0,
       initialize cfg ag batch_spec mbr examples = Ok (sc, st0) \/
       async_initialize cfg ag batch_spec mbr examples = Ok (sc, st0) ->
       min_itr_learn sc = (min_steps_learn cfg / spec_size batch_spec)%Z).
Proof.
  intros itr samples sampler_itr st itr' run.
  assert (Hno : (itr' < min_itr_learn sched)%Z ->
                exists new,
                  calls (snd run) = calls st ++ new /\
                  Forall (fun ev => is_sample ev = false) new).
  { intros Hlt. subst run. rewrite optimize_agent_early by assumption.
    fold itr'. pose proof (add_samples_log itr' samples st) as Hl.
    exists (append_calls itr' samples). split.
    - destruct (add_samples_to_buffer itr' samples st) as [[[]|e] st'];
        exact Hl.
    - unfold append_calls. destruct samples; [|constructor].
      destruct (0 <=? itr')%Z; repeat constructor. }
  repeat split.
  - intros H0 Hlt. subst run. rewrite optimize_agent_early by assumption.
    fold itr'. destruct samples as [s|].
    + rewrite add_samples_some by assumption. reflexivity.
    + rewrite add_samples_none by assumption. reflexivity.
  - exact Hno.
  - intros new Hc Hex.
    destruct (Z.ltb_spec itr' (min_itr_learn sched)) as [Hlt|Hge]; [|exact Hge].
    destruct (Hno Hlt) as [new' [Hc' Hall]].
    rewrite Hc in Hc'. apply app_inv_head in Hc'. subst new'.
    apply Exists_exists in Hex. destruct Hex as [ev [Hin Hev]].
    rewrite Forall_forall in Hall. rewrite (Hall ev Hin) in Hev. discriminate.
  - intros ag batch_spec mbr examples sc st0 [Hinit|Hinit].
    + unfold initialize, give_V, dqn_initialize, optim_initialize, rbind,
        py_fdiv, py_floordiv in Hinit.
      destruct (kind cfg);
        destruct (batch_size cfg =? 0)%Z; try discriminate;
        destruct (spec_size batch_spec =? 0)%Z; try discriminate;
        simpl in Hinit;
        destruct (prioritized_replay cfg); simpl in Hinit;
        try (destruct (spec_size batch_spec =? 0)%Z; try discriminate);
        inversion Hinit; reflexivity.
    + unfold async_initialize, give_V, dqn_async_initialize, rbind,
        py_floordiv in Hinit.
      destruct (kind cfg);
        destruct (spec_size batch_spec =? 0)%Z; try discriminate;
        simpl in Hinit; inversion Hinit; reflexivity.
Qed.

End IterationClaims.

(** ** Concrete runs for the claims about the iteration *)

Example initialize_dqn :
  initialize Scripted.dqn_config Scripted.some_agent Scripted.spec_4x8 true
    Scripted.some_examples = Ok (Scripted.sched0, Scripted.state0).
Proof. reflexivity. Qed.

Example initialize_pri :
  initialize Scripted.pri_config Scripted.some_agent Scripted.spec_4x8 true
    Scripted.some_examples = Ok (Scripted.pri_sched, Scripted.state0).
Proof. reflexivity. Qed.

Lemma C10_witness :
  add_samples_to_buffer 0 None Scripted.state0 = (Ok tt, Scripted.state0) /\
  add_samples_to_buffer (-1) (Some Scripted.some_samples) Scripted.state0 =
    (Raise AssertionError, Scripted.state0).
Proof.
  split.
  - apply (proj1 (C10_no_append_without_samples Scripted.dqn_config
                    Scripted.sched0 0 None None Scripted.state0)).
    lia.
  - apply (proj1 (proj2 (C10_no_append_without_samples Scripted.dqn_config
                           Scripted.sched0 (-1) (Some Scripted.some_samples)
                           None Scripted.state0))).
    lia.
Defined.

(** C10 as stated fails at a learning iteration: at [itr = 2 >= 0], with
    [samples = None], [optimize_agent] of the prioritized learner makes
    eight [update_batch_priorities] calls and one [set_beta] call on the
    replay buffer, which is not the buffer the method was called with. *)
Lemma C10_counterexample :
  (0 <= effective_itr 2 None)%Z /\
  count_calls is_append
    (calls (snd (optimize_agent Scripted.pri_config Scripted.pri_sched 2
                   None None
                   (Scripted.load [Scripted.exact_batch] Scripted.state0))))
    = 0%nat /\
  count_calls is_update
    (calls (snd (optimize_agent Scripted.pri_config Scripted.pri_sched 2
                   None None
                   (Scripted.load [Scripted.exact_batch] Scripted.state0))))
    = 8%nat /\
  count_calls is_set_beta
    (calls (snd (optimize_agent Scripted.pri_config Scripted.pri_sched 2
                   None None
                   (Scripted.load [Scripted.exact_batch] Scripted.state0))))
    = 1%nat /\
  replay_buffer
    (snd (optimize_agent Scripted.pri_config Scripted.pri_sched 2 None None
            (Scripted.load [Scripted.exact_batch] Scripted.state0))) <>
    replay_buffer (Scripted.load [Scripted.exact_batch] Scripted.state0).
Proof.
  split; [simpl; lia|]. split; [vm_compute; reflexivity|].
  split; [vm_compute; reflexivity|]. split; [vm_compute; reflexivity|].
  intros H. vm_compute in H. discriminate H.
Qed.

(** C1 as stated fails below zero: at [itr = -1 < min_itr_learn = 2] the
    assertion of [add_samples_to_buffer] fails, the provided samples are not
    appended and no [OptInfo] is returned. *)
Lemma C1_counterexample :
  (effective_itr (-1) None < min_itr_learn Scripted.sched0)%Z /\
  optimize_agent Scripted.dqn_config Scripted.sched0 (-1)
    (Some Scripted.some_samples) None Scripted.state0 =
    (Raise AssertionError, Scripted.state0) /\
  fst (optimize_agent Scripted.dqn_config Scripted.sched0 (-1)
         (Some Scripted.some_samples) None Scripted.state0) <>
    Ok get_empty_optim_info.
Proof.
  split; [reflexivity|]. split; [reflexivity|]. discriminate.
Qed.

Lemma C1_witness :
  optimize_agent Scripted.dqn_config Scripted.sched0 1
    (Some Scripted.some_samples) None Scripted.state0 =
    (Ok get_empty_optim_info,
     mkState 0
       (append_samples (samples_to_buffer Scripted.some_samples)
          (replay_buffer Scripted.state0))
       Scripted.some_agent
       [CallAppendSamples (samples_to_buffer Scripted.some_samples)]).
Proof.
  apply (proj1 (C1_no_sampling_before_min_itr_learn Scripted.dqn_config
                  Scripted.sched0 1 (Some Scripted.some_samples) None
                  Scripted.state0)).
  - simpl. lia.
  - simpl. lia.
Defined.

(** ** Claims about construction and annealing *)

Section ScheduleClaims.
Context {C : Carriers} {E : Externals}.
Variable cfg : Config.

(** C7. [initialize_replay_buffer] builds the class that the two flags
    [prioritized_replay] and [async_] select among the four frame buffers,
    unless [ReplayBufferCls] is given, which replaces the selection; the
    keyword arguments [alpha = pri_alpha], [beta = pri_beta_init] and
    [default_priority] are present exactly with prioritized replay; and the
    constructor makes [default_priority] default to [delta_clip]. *)
Theorem C7_replay_buffer_selection :
  forall (examples : Examples) (batch_spec : BatchSpec) (async_ : bool),
    let sel := replay_selection cfg examples batch_spec async_ in
    fst sel =
      match ReplayBufferCls cfg with
      | Some cls => UserCls cls
      | None => spec_buffer_variant (prioritized_replay cfg) async_
      end /\
    dict_get "alpha" (snd sel) =
      (if prioritized_replay cfg then Some (KwNum (pri_alpha cfg)) else None) /\
    dict_get "beta" (snd sel) =
      (if prioritized_replay cfg then Some (KwNum (pri_beta_init cfg)) else None) /\
    dict_get "default_priority" (snd sel) =
      (if prioritized_replay cfg
       then Some (KwOptNum (default_priority cfg)) else None) /\
    initialize_replay_buffer cfg examples batch_spec async_ =
      construct (fst sel) (snd sel) /\
    (forall (k : AlgoKind) (a : InitArgs),
       default_priority (init k a) =
         match arg_default_priority a with
         | Some d => Some d
         | None => arg_delta_clip a
         end).
Proof.
  intros examples batch_spec async_ sel. subst sel.
  unfold initialize_replay_buffer, replay_selection.
  destruct (prioritized_replay cfg), async_, (ReplayBufferCls cfg);
    simpl; repeat split; intros; destruct (arg_default_priority a); reflexivity.
Qed.

End ScheduleClaims.

Section AnnealingClaims.
Context {C : Carriers} {E : Externals}.
Variable cfg : Config.
Variable sched : Sched.

Lemma py_div_ok (a b : Z) :
  b <> 0%Z -> py_div a b = Ok (inject_Z a / inject_Z b).
Proof.
  intros H. unfold py_div. destruct (Z.eqb_spec b 0); [contradiction|reflexivity].
Qed.

Lemma inject_Z_pos (d : Z) : (0 < d)%Z -> 0 < inject_Z d.
Proof. intros H. change 0 with (inject_Z 0). rewrite <- Zlt_Qlt. exact H. Qed.

(** With a positive divisor, clipping the numerator at zero is clipping
    the quotient at zero. *)
Lemma clip_numerator (a d : Z) :
  (0 < d)%Z ->
  inject_Z (Z.max 0 a) / inject_Z d == Qmax 0 (inject_Z a / inject_Z d).
Proof.
  intros Hd. pose proof (inject_Z_pos d Hd) as Hq.
  assert (Hinv : 0 < / inject_Z d) by (apply Qinv_lt_0_compat; exact Hq).
  destruct (Z.max_spec 0 a) as [[Hlt ->] | [Hle ->]].
  - assert (0 < inject_Z a)
      by (change 0 with (inject_Z 0); rewrite <- Zlt_Qlt; exact Hlt).
    rewrite Q.max_r; [reflexivity|].
    unfold Qdiv. apply Qlt_le_weak. apply Qmult_lt_0_compat; assumption.
  - assert (inject_Z a <= 0)
      by (change 0 with (inject_Z 0); rewrite <- Zle_Qle; exact Hle).
    rewrite Q.max_l.
    + unfold Qdiv. change (inject_Z 0) with 0. ring.
    + unfold Qdiv. setoid_replace 0 with (0 * / inject_Z d) by ring.
      apply Qmult_le_compat_r; [assumption | apply Qlt_le_weak; exact Hinv].
Qed.

Lemma beta_prog_eq (pbi itr : Z) :
  pbi <> min_itr_learn sched ->
  beta_prog sched pbi itr =
    Ok (Qmin 1 (inject_Z (Z.max 0 (itr - min_itr_learn sched))
                / inject_Z (pbi - min_itr_learn sched))).
Proof.
  intros H. unfold beta_prog. rewrite py_div_ok by lia. reflexivity.
Qed.

(** Whenever the division succeeds inside the annealing branch, the
    fraction is in the unit interval. *)
Lemma beta_prog_unit (pbi itr : Z) (prog : Q) :
  (itr <= pbi)%Z -> beta_prog sched pbi itr = Ok prog -> 0 <= prog /\ prog <= 1.
Proof.
  intros Hle Hp.
  destruct (Z.eq_dec pbi (min_itr_learn sched)) as [Heq|Hne].
  - unfold beta_prog in Hp.
    replace (pbi - min_itr_learn sched)%Z with 0%Z in Hp by lia.
    discriminate.
  - rewrite beta_prog_eq in Hp by assumption. inversion Hp; subst prog; clear Hp.
    split; [|apply Q.le_min_l].
    apply Q.min_glb; [discriminate|].
    destruct (Z.lt_trichotomy (min_itr_learn sched) pbi) as [Hlt|[Heq|Hgt]];
      [| congruence |].
    + rewrite clip_numerator by lia. apply Q.le_max_l.
    + replace (Z.max 0 (itr - min_itr_learn sched)) with 0%Z by lia.
      unfold Qdiv. change (inject_Z 0) with 0. rewrite Qmult_0_l. discriminate.
Qed.

Lemma new_beta_between (prog : Q) :
  0 <= prog -> prog <= 1 ->
  between (pri_beta_init cfg) (pri_beta_final cfg) (new_beta cfg prog).
Proof.
  intros H0 H1. unfold between, new_beta.
  set (a := pri_beta_init cfg). set (b := pri_beta_final cfg).
  destruct (Qlt_le_dec b a) as [Hba|Hab].
  - rewrite (Q.min_r a b) by (apply Qlt_le_weak; exact Hba).
    rewrite (Q.max_l a b) by (apply Qlt_le_weak; exact Hba).
    split; nra.
  - rewrite (Q.min_l a b) by exact Hab.
    rewrite (Q.max_r a b) by exact Hab.
    split; nra.
Qed.

Lemma beta_set_between (itr : Z) (b : Q) :
  beta_set_by cfg sched itr b ->
  between (pri_beta_init cfg) (pri_beta_final cfg) b.
Proof.
  intros [pbi [prog [_ [_ [Hle [Hp ->]]]]]].
  destruct (beta_prog_unit pbi itr prog Hle Hp).
  apply new_beta_between; assumption.
Qed.

(** C9. Inside the annealing branch ([prioritized_replay] and
    [itr <= pri_beta_itr]) the divisor [pri_beta_itr - min_itr_learn] is
    nonzero exactly when the two differ; nothing guards the division, which
    raises [ZeroDivisionError] exactly when they are equal; when
    [min_itr_learn < pri_beta_itr] the division succeeds and [prog] is in
    [[0, 1]]; and [optim_initialize] sets
    [pri_beta_itr = max(1, pri_beta_steps // sampler_bs)]. *)
Theorem C9_annealing_divisor :
  forall (pbi itr : Z) (st : State),
    prioritized_replay cfg = true ->
    pri_beta_itr sched = Some pbi ->
    (itr <= pbi)%Z ->
    ((pbi - min_itr_learn sched)%Z <> 0%Z <-> min_itr_learn sched <> pbi) /\
    (fst (update_itr_hyperparams cfg sched itr st) = Raise ZeroDivisionError
     <-> min_itr_learn sched = pbi) /\
    ((min_itr_learn sched < pbi)%Z ->
     exists prog,
       beta_prog sched pbi itr = Ok prog /\ 0 <= prog /\ prog <= 1 /\
       fst (update_itr_hyperparams cfg sched itr st) = Ok tt) /\
    (forall sc0 st0 sc1 st1,
       optim_initialize cfg sc0 st0 = Ok (sc1, st1) ->
       pri_beta_itr sc1 =
         Some (Z.max 1 (pri_beta_steps cfg / sampler_bs sc0))%Z).
Proof.
  intros pbi itr st Hp Hb Hle.
  assert (Hrun : update_itr_hyperparams cfg sched itr st =
                 match beta_prog sched pbi itr with
                 | Ok prog =>
                     (Ok tt,
                      mkState (update_counter st)
                        (set_beta (new_beta cfg prog) (replay_buffer st))
                        (agent st)
                        (calls st ++ [CallSetBeta (new_beta cfg prog)]))
                 | Raise e => (Raise e, st)
                 end).
  { rewrite update_itr_hyperparams_cases, Hp, Hb.
    destruct (Z.leb_spec itr pbi); [reflexivity | lia]. }
  split; [lia|]. split; [|split].
  - rewrite Hrun. split.
    + intros H. destruct (Z.eq_dec (min_itr_learn sched) pbi) as [|Hne];
        [assumption|].
      rewrite beta_prog_eq in H by congruence. discriminate.
    + intros Heq. unfold beta_prog.
      replace (pbi - min_itr_learn sched)%Z with 0%Z by lia. reflexivity.
  - intros Hlt. rewrite Hrun.
    destruct (beta_prog sched pbi itr) as [prog|e] eqn:Hprog.
    + exists prog. destruct (beta_prog_unit pbi itr prog Hle Hprog). auto.
    + rewrite beta_prog_eq in Hprog by lia. discriminate.
  - intros sc0 st0 sc1 st1. unfold optim_initialize, rbind, py_floordiv.
    rewrite Hp.
    destruct (sampler_bs sc0 =? 0)%Z; [discriminate|].
    intros H. inversion H. reflexivity.
Qed.

(** C2, as the code has it. With prioritized replay, [itr <= pri_beta_itr]
    and [min_itr_learn < pri_beta_itr], [update_itr_hyperparams] calls
    [set_beta] with [prog * pri_beta_final + (1 - prog) * pri_beta_init] for
    [prog = min(1, max(0, (itr - min_itr_learn) / (pri_beta_itr -
    min_itr_learn)))], which is [pri_beta_final] at [itr = pri_beta_itr];
    with [pri_beta_itr < min_itr_learn] instead, the numerator is clipped
    to zero and the value set is [pri_beta_init]; every value the method
    gives to [set_beta] lies between [pri_beta_init] and [pri_beta_final]
    and is given at an [itr <= pri_beta_itr]; and for [itr > pri_beta_itr]
    the method does nothing. *)
Theorem C2_beta_annealing :
  forall (pbi itr : Z) (st : State),
    prioritized_replay cfg = true ->
    pri_beta_itr sched = Some pbi ->
    let run := update_itr_hyperparams cfg sched itr st in
    ((itr <= pbi)%Z -> (min_itr_learn sched < pbi)%Z ->
     exists b,
       run =
         (Ok tt,
          mkState (update_counter st) (set_beta b (replay_buffer st))
            (agent st) (calls st ++ [CallSetBeta b])) /\
       b == new_beta cfg (spec_prog (min_itr_learn sched) pbi itr) /\
       (itr = pbi -> b == pri_beta_final cfg)) /\
    ((itr <= pbi)%Z -> (pbi < min_itr_learn sched)%Z ->
     exists b,
       run =
         (Ok tt,
          mkState (update_counter st) (set_beta b (replay_buffer st))
            (agent st) (calls st ++ [CallSetBeta b])) /\
       b == pri_beta_init cfg) /\
    (exists post,
       calls (snd run) = calls st ++ post /\
       forall b, In (CallSetBeta b) post ->
                 (itr <= pbi)%Z /\
                 between (pri_beta_init cfg) (pri_beta_final cfg) b) /\
    ((pbi < itr)%Z -> run = (Ok tt, st)).
Proof.
  intros pbi itr st Hp Hb run. subst run. split; [|split; [|split]].
  - intros Hle Hlt. rewrite update_itr_hyperparams_cases, Hp, Hb.
    destruct (Z.leb_spec itr pbi); [|lia].
    rewrite beta_prog_eq by lia.
    eexists. split; [reflexivity|].
    assert (Hprog :
              Qmin 1 (inject_Z (Z.max 0 (itr - min_itr_learn sched))
                      / inject_Z (pbi - min_itr_learn sched))
              == spec_prog (min_itr_learn sched) pbi itr).
    { unfold spec_prog. rewrite clip_numerator by lia. reflexivity. }
    split.
    + unfold new_beta. rewrite Hprog. reflexivity.
    + intros ->. unfold new_beta.
      replace (Z.max 0 (pbi - min_itr_learn sched))
        with (pbi - min_itr_learn sched)%Z by lia.
      assert (Hd : 0 < inject_Z (pbi - min_itr_learn sched))
        by (apply inject_Z_pos; lia).
      assert (Hone : inject_Z (pbi - min_itr_learn sched)
                     / inject_Z (pbi - min_itr_learn sched) == 1).
      { field. intros H0. rewrite H0 in Hd. discriminate. }
      rewrite Hone. rewrite (Q.min_l 1 1) by discriminate. ring.
  - intros Hle Hgt. rewrite update_itr_hyperparams_cases, Hp, Hb.
    destruct (Z.leb_spec itr pbi); [|lia].
    rewrite beta_prog_eq by lia.
    eexists. split; [reflexivity|].
    replace (Z.max 0 (itr - min_itr_learn sched)) with 0%Z by lia.
    unfold new_beta, Qdiv. change (inject_Z 0) with 0. rewrite Qmult_0_l.
    rewrite (Q.min_r 1 0) by discriminate. ring.
  - destruct (update_itr_hyperparams_log cfg sched itr st) as [post [Hc Hpost]].
    exists post. split; [exact Hc|].
    intros b Hin.
    destruct Hpost as [-> | [b' [-> Hset]]]; [contradiction|].
    destruct Hin as [Heq|[]]. inversion Heq; subst b'.
    split; [| apply (beta_set_between itr b Hset)].
    destruct Hset as [pbi' [prog [_ [Hb' [Hle _]]]]].
    rewrite Hb in Hb'. inversion Hb'. subst pbi'. exact Hle.
  - intros Hgt. rewrite update_itr_hyperparams_cases, Hp, Hb.
    destruct (Z.leb_spec itr pbi); [lia | reflexivity].
Qed.

End AnnealingClaims.

(** ** Concrete runs for the claims about annealing *)

Example initialize_tight :
  initialize Scripted.tight_config Scripted.some_agent Scripted.spec_4x8 true
    Scripted.some_examples = Ok (Scripted.tight_sched, Scripted.state0).
Proof. reflexivity. Qed.

Lemma C9_witness :
  exists prog,
    beta_prog Scripted.pri_sched 10 5 = Ok prog /\ 0 <= prog /\ prog <= 1 /\
    fst (update_itr_hyperparams Scripted.pri_config Scripted.pri_sched 5
           Scripted.state0) = Ok tt.
Proof.
  apply (proj1 (proj2 (proj2
           (C9_annealing_divisor Scripted.pri_config Scripted.pri_sched 10 5
              Scripted.state0 eq_refl eq_refl ltac:(lia))))).
  simpl. lia.
Defined.

Lemma C2_witness :
  exists b,
    update_itr_hyperparams Scripted.pri_config Scripted.pri_sched 10
      Scripted.state0 =
      (Ok tt,
       mkState 0 (set_beta b (replay_buffer Scripted.state0))
         Scripted.some_agent [CallSetBeta b]) /\
    b == new_beta Scripted.pri_config (spec_prog 2 10 10) /\
    (10%Z = 10%Z -> b == pri_beta_final Scripted.pri_config).
Proof.
  apply (proj1 (C2_beta_annealing Scripted.pri_config Scripted.pri_sched 10 10
                  Scripted.state0 eq_refl eq_refl)).
  - lia.
  - simpl. lia.
Defined.

(** C2 as stated fails where the annealing span ends at the first learning
    iteration ([pri_beta_itr = min_itr_learn = 2], as [initialize] computes
    them from [pri_beta_steps = min_steps_learn = 64]): at [itr = 2] the
    division raises and [set_beta] is not called, both in
    [update_itr_hyperparams] and in the [optimize_agent] that calls it.
    Where the span ends before learning starts ([pri_beta_itr = 2 <
    min_itr_learn = 4]) the method sets [pri_beta_init] at
    [itr = pri_beta_itr], and the stated formula gives [pri_beta_final]. *)
Lemma C2_counterexample :
  prioritized_replay Scripted.tight_config = true /\
  pri_beta_itr Scripted.tight_sched = Some 2%Z /\
  (2 <= 2)%Z /\
  update_itr_hyperparams Scripted.tight_config Scripted.tight_sched 2
    Scripted.state0 = (Raise ZeroDivisionError, Scripted.state0) /\
  fst (optimize_agent Scripted.tight_config Scripted.tight_sched 2 None None
         Scripted.state0) = Raise ZeroDivisionError /\
  Forall (fun ev => is_set_beta ev = false)
    (calls (snd (optimize_agent Scripted.tight_config Scripted.tight_sched 2
                   None None Scripted.state0))) /\
  (exists b,
     calls (snd (update_itr_hyperparams Scripted.tight_config
                   (mkSched 32 true 8 4 (Some 2%Z) true) 2 Scripted.state0)) =
       [CallSetBeta b] /\
     b == pri_beta_init Scripted.tight_config /\
     new_beta Scripted.tight_config (spec_prog 4 2 2)
       == pri_beta_final Scripted.tight_config /\
     ~ b == new_beta Scripted.tight_config (spec_prog 4 2 2)).
Proof.
  split; [reflexivity|]. split; [reflexivity|]. split; [lia|].
  split; [reflexivity|]. split; [reflexivity|].
  split; [vm_compute; repeat constructor|].
  eexists. split; [vm_compute; reflexivity|].
  split; [reflexivity|]. split; [reflexivity|]. discriminate.
Qed.

(** ** Claims about the losses *)

Lemma clamp_compat (lo hi x y : Q) : x == y -> clamp lo hi x == clamp lo hi y.
Proof. intros H. unfold clamp. rewrite H. reflexivity. Qed.

Section TargetClaims.
Context {C : Carriers} {E : Externals}.
Variable cfg : Config.

Lemma dqn_target_nth (ret_ : tensor) (done_n_ : list bool) (target_q : tensor)
    (i : nat) :
  (i < List.length ret_)%nat ->
  List.length done_n_ = List.length ret_ ->
  List.length target_q = List.length ret_ ->
  nth i (dqn_target cfg ret_ done_n_ target_q) 0 =
    nth i ret_ 0
    + (1 - to_float (nth i done_n_ false))
      * (discount cfg ^ Z.of_nat (n_step_return cfg) * nth i target_q 0).
Proof.
  intros Hi Hd Ht. unfold dqn_target, t_add, t_mul, t_float. cbv zeta.
  rewrite (map2_nth Qplus _ _ i 0 0 0);
    [| exact Hi | rewrite map2_length, !length_map; lia].
  rewrite (map2_nth Qmult _ _ i 0 0 0) by (rewrite ?length_map; lia).
  rewrite (map_nth_in _ _ i 0 0) by (rewrite ?length_map; lia).
  rewrite (map_nth_in to_float _ i false 0) by lia.
  rewrite (map_nth_in _ target_q i 0 0) by lia.
  reflexivity.
Qed.

Lemma cat_next_z_nth (z ret_ : tensor) (done_n_ : list bool) (i j : nat) :
  (i < List.length ret_)%nat ->
  List.length done_n_ = List.length ret_ ->
  (j < List.length z)%nat ->
  nth j (nth i (cat_next_z cfg z ret_ done_n_) []) 0 =
    clamp (V_min cfg) (V_max cfg)
      (nth i ret_ 0
       + (1 - to_float (nth i done_n_ false))
         * (nth j z 0 * discount cfg ^ Z.of_nat (n_step_return cfg))).
Proof.
  intros Hi Hd Hj. unfold cat_next_z, t_float. cbv zeta.
  rewrite (@map2_nth Q (list Q) (list Q) _ _ _ i 0 [] [])
    by (rewrite ?length_map; lia).
  rewrite (@map_nth_in Q (list Q) _ _ i 0 []) by (rewrite ?length_map; lia).
  rewrite (map_nth_in _ _ i 0 0) by (rewrite ?length_map; lia).
  rewrite (map_nth_in to_float _ i false 0) by lia.
  rewrite (map_nth_in _ _ j 0 0) by (rewrite ?length_map; lia).
  rewrite (map_nth_in _ _ j 0 0) by (rewrite ?length_map; lia).
  rewrite (map_nth_in _ z j 0 0) by lia.
  reflexivity.
Qed.

(** C5. In [DQN.loss] the target of sample [i] is
    [return_ + (1 - done_n) * discount ** n_step_return * target_q]: the
    stored n-step return alone when [done_n] is true, the return plus
    [target_q] discounted by [discount ** n_step_return] otherwise;
    [DQN.loss] hands to [_get_loss_values] this target, computed from the
    batch's [return_] and [done_n] and from the [target_q] that the target
    network gives (its value at the action the online network prefers with
    [double_dqn], its maximum otherwise); [CategoricalDQN.loss] shifts atom
    [j] of the support by the same rule, clamped to [[V_min, V_max]], and
    the target distribution it hands to [_get_loss_values] is the
    projection along this [next_z], computed from the batch's [return_] and
    [done_n]. *)
Theorem C5_bootstrap_cut_by_done_n :
  forall (ret_ : tensor) (done_n_ : list bool) (target_q z : tensor)
         (i j : nat),
    (i < List.length ret_)%nat ->
    List.length done_n_ = List.length ret_ ->
    List.length target_q = List.length ret_ ->
    (j < List.length z)%nat ->
    let gamma_n := discount cfg ^ Z.of_nat (n_step_return cfg) in
    let y := nth i (dqn_target cfg ret_ done_n_ target_q) 0 in
    let next_z := nth j (nth i (cat_next_z cfg z ret_ done_n_) []) 0 in
    y == nth i ret_ 0
         + (1 - to_float (nth i done_n_ false)) * gamma_n * nth i target_q 0 /\
    (nth i done_n_ false = true -> y == nth i ret_ 0) /\
    (nth i done_n_ false = false ->
     y == nth i ret_ 0 + gamma_n * nth i target_q 0) /\
    next_z == clamp (V_min cfg) (V_max cfg)
                (nth i ret_ 0
                 + (1 - to_float (nth i done_n_ false)) * gamma_n * nth j z 0) /\
    (nth i done_n_ false = true ->
     next_z == clamp (V_min cfg) (V_max cfg) (nth i ret_ 0)) /\
    (nth i done_n_ false = false ->
     next_z == clamp (V_min cfg) (V_max cfg)
                 (nth i ret_ 0 + gamma_n * nth j z 0)) /\
    (forall (sched : Sched) (ag : Agent) (samples : SamplesFromReplay),
       dqn_loss cfg sched ag samples =
         dqn_get_loss_values cfg sched (dqn_q ag samples) (done samples)
           (if prioritized_replay cfg then is_weights samples else [])
           (dqn_target cfg (return_ samples) (done_n samples)
              (dqn_target_q cfg ag samples)) /\
       dqn_target_q cfg ag samples =
         (if double_dqn cfg
          then select_at_indexes Q
                 (map argmax_last (agent_call ag (target_inputs samples)))
                 (agent_target ag (target_inputs samples))
          else map max_last (agent_target ag (target_inputs samples)))) /\
    (forall (sched : Sched) (ag : Agent) (samples : SamplesFromReplay)
            (delta_z : Q),
       py_fdiv (V_max cfg - V_min cfg) (n_atoms ag - 1) = Ok delta_z ->
       prioritized_replay cfg = true ->
       let support := linspace (V_min cfg) (V_max cfg) (n_atoms ag) in
       cat_loss cfg sched ag samples =
         cat_get_loss_values cfg sched
           (select_at_indexes tensor (action samples)
              (agent_call_p ag (agent_inputs samples)))
           (done samples) (is_weights samples)
           (cat_project (cat_target_p_unproj cfg ag samples)
              (cat_projection_coeffs delta_z support
                 (cat_next_z cfg support (return_ samples) (done_n samples))))).
Proof.
  intros ret_ done_n_ target_q z i j Hi Hd Ht Hj gamma_n y next_z.
  subst y next_z.
  rewrite dqn_target_nth by assumption.
  rewrite cat_next_z_nth by assumption.
  fold gamma_n.
  repeat split.
  - ring.
  - intros ->. simpl. ring.
  - intros ->. simpl. ring.
  - apply clamp_compat. ring.
  - intros ->. apply clamp_compat. simpl. ring.
  - intros ->. apply clamp_compat. simpl. ring.
  - intros sched ag samples delta_z Hdz Hp support.
    unfold cat_loss, rbind. rewrite Hdz, Hp. reflexivity.
Qed.

End TargetClaims.

Lemma C5_witness :
  nth 1 (dqn_target Scripted.dqn_config [1; 2] [false; true] [3; 4]) 0 == 2 /\
  nth 0 (dqn_target Scripted.dqn_config [1; 2] [false; true] [3; 4]) 0
    == 1 + (99 # 100) * 3.
Proof.
  pose proof (C5_bootstrap_cut_by_done_n Scripted.dqn_config
                [1; 2] [false; true] [3; 4] [0; 1] 1 0
                ltac:(simpl; lia) eq_refl eq_refl ltac:(simpl; lia)) as H1.
  pose proof (C5_bootstrap_cut_by_done_n Scripted.dqn_config
                [1; 2] [false; true] [3; 4] [0; 1] 0 0
                ltac:(simpl; lia) eq_refl eq_refl ltac:(simpl; lia)) as H0.
  split.
  - apply (proj1 (proj2 H1)). reflexivity.
  - apply (proj1 (proj2 (proj2 H0))). reflexivity.
Defined.

Section LossClaims.
Context {C : Carriers} {E : Externals}.
Variable cfg : Config.
Variable sched : Sched.

(** What [DQN._get_loss_values] returns when it returns. *)
Lemma dqn_get_loss_values_ok
    (q : tensor) (done_ : list bool) (w target : tensor) (l : Q) (errors : tensor) :
  dqn_get_loss_values cfg sched q done_ w target = Ok (l, errors) ->
  mid_batch_reset sched = true /\
  errors =
    match delta_clip cfg with
    | Some dc => t_clamp 0 dc (t_abs (t_sub target q))
    | None => t_abs (t_sub target q)
    end.
Proof.
  unfold dqn_get_loss_values. destruct (mid_batch_reset sched); simpl;
    [|discriminate].
  intros H. inversion H. split; reflexivity.
Qed.

(** What [CategoricalDQN._get_loss_values] returns: the clamped
    divergences, multiplied by the validity mask when [mid_batch_reset] is
    off. *)
Lemma cat_get_loss_values_ok
    (p : list tensor) (done_ : list bool) (w : tensor) (target_p : list tensor) :
  exists (losses KL : tensor),
    Forall (fun k => EPS <= k /\ k <= 1 / EPS) KL /\
    cat_get_loss_values cfg sched p done_ w target_p =
      if mid_batch_reset sched then Ok (t_mean losses, KL)
      else Ok (valid_mean losses (valid_from_done done_),
               t_mul KL (valid_from_done done_)).
Proof.
  unfold cat_get_loss_values. cbv zeta.
  eexists _, _. split; [apply Forall_t_clamp; discriminate|].
  destruct (mid_batch_reset sched); reflexivity.
Qed.

End LossClaims.

Section MaskingClaim.
Context {C : Carriers} {E : Externals}.
Variable cfg : Config.
Variable sched : Sched.

(** C4. With [mid_batch_reset] false, the loss of DQN raises
    [NotImplementedError] on every input, in [_get_loss_values] and so in
    [loss]; the loss of CategoricalDQN returns: with [losses] and [KL] the
    per-sample losses and clamped divergences that [mid_batch_reset = True]
    would average and return, it computes [valid = valid_from_done(done)]
    and returns [valid_mean(losses, valid)] and [KL * valid]. *)
Theorem C4_validity_masking :
  mid_batch_reset sched = false ->
  (forall q done_ w target,
     dqn_get_loss_values cfg sched q done_ w target = Raise NotImplementedError) /\
  (forall ag samples, dqn_loss cfg sched ag samples = Raise NotImplementedError) /\
  (forall p done_ w target_p,
   exists losses KL,
     cat_get_loss_values cfg
       (mkSched (sampler_bs sched) true (updates_per_optimize sched)
          (min_itr_learn sched) (pri_beta_itr sched) (optimizer sched))
       p done_ w target_p = Ok (t_mean losses, KL) /\
     cat_get_loss_values cfg sched p done_ w target_p =
       Ok (valid_mean losses (valid_from_done done_),
           t_mul KL (valid_from_done done_))).
Proof.
  intros Hm.
  assert (Hd : forall q done_ w target,
             dqn_get_loss_values cfg sched q done_ w target =
               Raise NotImplementedError).
  { intros. unfold dqn_get_loss_values. rewrite Hm. reflexivity. }
  split; [exact Hd|]. split.
  - intros ag samples. unfold dqn_loss. cbv zeta. apply Hd.
  - intros p done_ w target_p. unfold cat_get_loss_values. cbv zeta.
    rewrite Hm. simpl. eexists _, _. split; reflexivity.
Qed.

End MaskingClaim.

Lemma C4_witness :
  dqn_get_loss_values Scripted.dqn_config (mkSched 32 false 8 2 None true)
    [1] [false] [] [2] = Raise NotImplementedError.
Proof.
  apply (proj1 (C4_validity_masking Scripted.dqn_config
                  (mkSched 32 false 8 2 None true) eq_refl)).
Defined.

(** ** Claims about the reported errors *)

Section ReportedErrors.
Context {C : Carriers} {E : Externals}.
Variable cfg : Config.
Variable sched : Sched.

Lemma update_in_pass (evs : list Event) (errors : tensor) :
  completed_pass cfg sched evs ->
  In (CallUpdateBatchPriorities errors) evs ->
  prioritized_replay cfg = true /\
  exists batch, errors_of cfg sched batch errors.
Proof.
  intros H Hin. destruct H as [n batch errors' tl Herr Htl].
  destruct Hin as [Habs|Hin]; [discriminate|].
  apply in_app_or in Hin. destruct Hin as [Hin|Hin].
  - destruct (prioritized_replay cfg); [|contradiction].
    destruct Hin as [Heq|[]]. inversion Heq; subst errors'.
    split; [reflexivity|]. exists batch. exact Herr.
  - destruct Htl as [-> | ->]; [contradiction|].
    destruct Hin as [Habs|[]]. discriminate.
Qed.

(** Every [update_batch_priorities] of an [optimize_agent] happens with
    prioritized replay and receives the errors that [loss] returned on a
    sampled batch. *)
Lemma reported_errors_from_loss
    (itr : Z) (samples : option Samples) (sampler_itr : option Z) (st : State)
    (new : list Event) (errors : tensor) :
  calls (snd (optimize_agent cfg sched itr samples sampler_itr st)) =
    calls st ++ new ->
  In (CallUpdateBatchPriorities errors) new ->
  prioritized_replay cfg = true /\
  exists batch, errors_of cfg sched batch errors.
Proof.
  intros Hc Hin.
  destruct (optimize_agent_log cfg sched itr samples sampler_itr st)
    as [blocks [tail [post [Hc' [Hb [Ht [Hp _]]]]]]].
  rewrite Hc in Hc'. apply app_inv_head in Hc'. subst new.
  apply in_app_or in Hin. destruct Hin as [Hin|Hin].
  { unfold append_calls in Hin. destruct samples; [|contradiction].
    destruct (0 <=? _)%Z; [|contradiction].
    destruct Hin as [Habs|[]]. discriminate. }
  apply in_app_or in Hin. destruct Hin as [Hin|Hin].
  { apply in_concat in Hin. destruct Hin as [block [Hblock Hin]].
    rewrite Forall_forall in Hb.
    exact (update_in_pass block errors (Hb block Hblock) Hin). }
  apply in_app_or in Hin. destruct Hin as [Hin|Hin].
  - destruct Ht as [-> | [e [[n [batch [-> _]]] _]]]; [contradiction|].
    destruct Hin as [Habs|[]]. discriminate.
  - destruct Hp as [-> | [b [-> _]]]; [contradiction|].
    destruct Hin as [Habs|[]]. discriminate.
Qed.

(** The absolute TD errors of DQN. *)
Lemma dqn_errors_bounds (batch : SamplesFromReplay) (errors : tensor) :
  kind cfg = DQN ->
  errors_of cfg sched batch errors ->
  match delta_clip cfg with
  | Some dc => 0 <= dc -> Forall (fun e => 0 <= e /\ e <= dc) errors
  | None => Forall (fun e => 0 <= e) errors
  end.
Proof.
  intros Hk [ag [l Hl]]. unfold loss in Hl. rewrite Hk in Hl.
  unfold dqn_loss in Hl. cbv zeta in Hl.
  apply dqn_get_loss_values_ok in Hl. destruct Hl as [_ ->].
  destruct (delta_clip cfg) as [dc|].
  - intros Hdc. apply Forall_t_clamp. exact Hdc.
  - apply Forall_t_abs.
Qed.

(** The errors of DQN in terms of the Q-values and targets of the batch. *)
Lemma dqn_errors_value (batch : SamplesFromReplay) (errors : tensor) :
  kind cfg = DQN ->
  errors_of cfg sched batch errors ->
  exists ag,
    errors =
      match delta_clip cfg with
      | Some dc =>
          t_clamp 0 dc (t_abs (t_sub (dqn_y cfg ag batch) (dqn_q ag batch)))
      | None => t_abs (t_sub (dqn_y cfg ag batch) (dqn_q ag batch))
      end.
Proof.
  intros Hk [ag [l Hl]]. unfold loss in Hl. rewrite Hk in Hl.
  unfold dqn_loss in Hl. cbv zeta in Hl.
  apply dqn_get_loss_values_ok in Hl. destruct Hl as [_ ->].
  exists ag. reflexivity.
Qed.

Lemma abs_delta_nth (y q : tensor) (i : nat) :
  (i < List.length (t_abs (t_sub y q)))%nat ->
  nth i (t_abs (t_sub y q)) 0 = Qabs (nth i y 0 - nth i q 0).
Proof.
  unfold t_abs, t_sub. rewrite length_map, map2_length. intros Hi.
  rewrite (map_nth_in Qabs _ i 0 0) by (rewrite map2_length; exact Hi).
  rewrite (map2_nth Qminus y q i 0 0 0) by lia. reflexivity.
Qed.

Lemma clamp_zero (dc : Q) : 0 <= dc -> clamp 0 dc 0 == 0.
Proof.
  intros H. unfold clamp.
  pose proof (Q.max_spec 0 0) as Ha. set (a := Qmax 0 0) in *.
  pose proof (Q.min_spec a dc) as Hb. set (b := Qmin a dc) in *.
  clearbody a b.
  destruct Ha as [[? ?]|[? ?]], Hb as [[? ?]|[? ?]]; lra.
Qed.

Lemma clamp_negative_hi (dc a : Q) : 0 <= a -> dc < 0 -> clamp 0 dc a == dc.
Proof.
  intros Ha H. unfold clamp.
  pose proof (Q.max_spec a 0) as Hm. set (m := Qmax a 0) in *.
  pose proof (Q.min_spec m dc) as Hb. set (b := Qmin m dc) in *.
  clearbody m b.
  destruct Hm as [[? ?]|[? ?]], Hb as [[? ?]|[? ?]]; lra.
Qed.

(** The divergences of CategoricalDQN. *)
Lemma cat_errors_bounds (batch : SamplesFromReplay) (errors : tensor) :
  kind cfg = CategoricalDQN ->
  errors_of cfg sched batch errors ->
  exists KL,
    Forall (fun k => EPS <= k /\ k <= 1 / EPS) KL /\
    errors = if mid_batch_reset sched then KL
             else t_mul KL (valid_from_done (done batch)).
Proof.
  intros Hk [ag [l Hl]]. unfold loss in Hl. rewrite Hk in Hl.
  unfold cat_loss in Hl. cbv zeta in Hl.
  destruct (py_fdiv (V_max cfg - V_min cfg) (n_atoms ag - 1)) as [dz|e];
    [|discriminate].
  simpl in Hl. destruct (prioritized_replay cfg); [|discriminate].
  match type of Hl with
  | cat_get_loss_values _ _ ?p ?d ?w ?tp = _ =>
      destruct (cat_get_loss_values_ok cfg sched p d w tp)
        as [losses [KL [HKL Heq]]]
  end.
  rewrite Heq in Hl. exists KL. split; [exact HKL|].
  destruct (mid_batch_reset sched); inversion Hl; reflexivity.
Qed.

Lemma EPS_positive (k : Q) : EPS <= k -> 0 < k.
Proof. intros H. apply Qlt_le_trans with EPS; [reflexivity | exact H]. Qed.

(** C6, as the code has it. An error value given to
    [update_batch_priorities] by [optimize_agent] is, for DQN, the absolute
    TD error [abs(y - q)] of a sample of the batch, clamped to
    [[0, delta_clip]] when [delta_clip] is set: with [delta_clip] [None] or
    not negative it is never negative, and it is zero for a sample whose
    Q-value equals its target; with a negative [delta_clip] every error
    equals [delta_clip].  For CategoricalDQN it is strictly positive when
    [mid_batch_reset] is true, where it is a divergence clamped to
    [[EPS, 1 / EPS]]; with [mid_batch_reset] false the clamped divergence is
    multiplied by the validity mask. *)
Theorem C6_reported_errors_sign :
  forall (itr : Z) (samples : option Samples) (sampler_itr : option Z)
         (st : State) (new : list Event) (errors : tensor),
    calls (snd (optimize_agent cfg sched itr samples sampler_itr st)) =
      calls st ++ new ->
    In (CallUpdateBatchPriorities errors) new ->
    (kind cfg = DQN ->
     match delta_clip cfg with
     | Some dc => 0 <= dc -> Forall (fun e => 0 <= e /\ e <= dc) errors
     | None => Forall (fun e => 0 <= e) errors
     end) /\
    (kind cfg = DQN ->
     exists batch ag,
       errors =
         match delta_clip cfg with
         | Some dc =>
             t_clamp 0 dc (t_abs (t_sub (dqn_y cfg ag batch) (dqn_q ag batch)))
         | None => t_abs (t_sub (dqn_y cfg ag batch) (dqn_q ag batch))
         end /\
       (match delta_clip cfg with Some dc => 0 <= dc | None => True end ->
        forall i, (i < List.length errors)%nat ->
          nth i (dqn_q ag batch) 0 == nth i (dqn_y cfg ag batch) 0 ->
          nth i errors 0 == 0)) /\
    (kind cfg = DQN ->
     forall dc, delta_clip cfg = Some dc -> dc < 0 ->
       Forall (fun e => e == dc) errors) /\
    (kind cfg = CategoricalDQN ->
     exists KL batch,
       Forall (fun k => 0 < k /\ EPS <= k /\ k <= 1 / EPS) KL /\
       errors = if mid_batch_reset sched then KL
                else t_mul KL (valid_from_done (done batch))) /\
    (kind cfg = CategoricalDQN -> mid_batch_reset sched = true ->
     Forall (fun e => 0 < e) errors).
Proof.
  intros itr samples sampler_itr st new errors Hc Hin.
  destruct (reported_errors_from_loss itr samples sampler_itr st new errors
              Hc Hin) as [_ [batch Herr]].
  split; [|split; [|split; [|split]]].
  - intros Hk. apply (dqn_errors_bounds batch errors Hk Herr).
  - intros Hk. destruct (dqn_errors_value batch errors Hk Herr) as [ag Heq].
    exists batch, ag. split; [exact Heq|].
    intros Hdc i Hi Hqy. rewrite Heq in Hi |- *.
    assert (Hzero : Qabs (nth i (dqn_y cfg ag batch) 0
                          - nth i (dqn_q ag batch) 0) == 0).
    { assert (Hd : nth i (dqn_y cfg ag batch) 0 - nth i (dqn_q ag batch) 0 == 0)
        by lra.
      rewrite Hd. reflexivity. }
    destruct (delta_clip cfg) as [dc|].
    + unfold t_clamp in Hi |- *. rewrite length_map in Hi.
      rewrite (map_nth_in (clamp 0 dc) _ i 0 0) by exact Hi.
      rewrite abs_delta_nth by exact Hi.
      rewrite (clamp_compat 0 dc _ 0 Hzero). apply clamp_zero. exact Hdc.
    + rewrite abs_delta_nth by exact Hi. exact Hzero.
  - intros Hk dc Hdc Hneg.
    destruct (dqn_errors_value batch errors Hk Herr) as [ag Heq].
    rewrite Hdc in Heq. rewrite Heq. unfold t_clamp.
    apply Forall_forall. intros x Hx. apply in_map_iff in Hx.
    destruct Hx as [a [<- Ha]]. apply clamp_negative_hi; [|exact Hneg].
    pose proof (Forall_t_abs (t_sub (dqn_y cfg ag batch) (dqn_q ag batch)))
      as Hnn.
    rewrite Forall_forall in Hnn. apply Hnn. exact Ha.
  - intros Hk. destruct (cat_errors_bounds batch errors Hk Herr) as [KL [HKL ->]].
    exists KL, batch. split; [|reflexivity].
    eapply Forall_impl; [|exact HKL]. intros k [H1 H2].
    split; [apply EPS_positive; exact H1 | split; assumption].
  - intros Hk Hm.
    destruct (cat_errors_bounds batch errors Hk Herr) as [KL [HKL ->]].
    rewrite Hm. eapply Forall_impl; [|exact HKL].
    intros k [H1 _]. apply EPS_positive; exact H1.
Qed.

(** C8, as the code has it. [CategoricalDQN._get_loss_values] always
    returns, and clamps every divergence to [[EPS, 1 / EPS]] = [[1e-6, 1e6]],
    whatever the logarithms give; with [mid_batch_reset] true the clamped
    divergences are the errors returned, each strictly positive and at most
    [1e6]; with [mid_batch_reset] false each is multiplied by the entry of
    the validity mask before it is returned. *)
Theorem C8_kl_clamped :
  forall (p : list tensor) (done_ : list bool) (w : tensor)
         (target_p : list tensor),
    exists l errors KL,
      cat_get_loss_values cfg sched p done_ w target_p = Ok (l, errors) /\
      Forall (fun k => (1 # 1000000) <= k /\ k <= 1000000 /\ 0 < k) KL /\
      errors = (if mid_batch_reset sched then KL
                else t_mul KL (valid_from_done done_)) /\
      (mid_batch_reset sched = true ->
       Forall (fun e => (1 # 1000000) <= e /\ e <= 1000000 /\ 0 < e) errors).
Proof.
  intros p done_ w target_p.
  destruct (cat_get_loss_values_ok cfg sched p done_ w target_p)
    as [losses [KL [HKL Heq]]].
  assert (HKL' : Forall (fun k => (1 # 1000000) <= k /\ k <= 1000000 /\ 0 < k) KL).
  { eapply Forall_impl; [|exact HKL]. intros k [H1 H2].
    split; [exact H1|]. split; [exact H2 | apply EPS_positive; exact H1]. }
  destruct (mid_batch_reset sched) eqn:Hm.
  - exists (t_mean losses), KL, KL. repeat split; auto.
  - exists (valid_mean losses (valid_from_done done_)),
      (t_mul KL (valid_from_done done_)), KL.
    repeat split; auto. discriminate.
Qed.

End ReportedErrors.

(** ** Concrete runs for the claims about the reported errors *)

Example initialize_no_reset :
  initialize Scripted.pri_config Scripted.some_agent Scripted.spec_4x8 false
    Scripted.some_examples = Ok (Scripted.no_reset_sched, Scripted.state0).
Proof. reflexivity. Qed.

(** C6 as stated fails for DQN on a transition whose Q-value equals its
    target: the error given to [update_batch_priorities] is zero.  It also
    fails for CategoricalDQN with [mid_batch_reset] false, where the error
    of the transition after a [done] is masked to zero. *)
Lemma C6_counterexample :
  (In (CallUpdateBatchPriorities [0 # 100])
      (calls (snd (optimize_agent Scripted.pri_config Scripted.pri_sched 2
                     None None
                     (Scripted.load [Scripted.exact_batch] Scripted.state0))))
   /\ ~ 0 < 0 # 100) /\
  (exists e1 e2,
     hd [] (update_args
              (calls (snd (optimize_agent Scripted.cat_config
                             Scripted.no_reset_sched 2 None None
                             (Scripted.load [Scripted.cat_batch]
                                Scripted.state0))))) = [e1; e2] /\
     e2 == 0 /\ ~ 0 < e2).
Proof.
  split.
  - split; [vm_compute; right; left; reflexivity | discriminate].
  - eexists _, _. split; [vm_compute; reflexivity|].
    split; [reflexivity | discriminate].
Qed.

Lemma C6_witness :
  Forall (fun e => 0 < e)
    (hd [] (update_args
              (calls (snd (optimize_agent Scripted.cat_config Scripted.pri_sched
                             2 None None
                             (Scripted.load [Scripted.cat_batch]
                                Scripted.state0)))))).
Proof.
  assert (Hin :
            In (CallUpdateBatchPriorities
                  (hd [] (update_args
                            (calls (snd (optimize_agent Scripted.cat_config
                                           Scripted.pri_sched 2 None None
                                           (Scripted.load [Scripted.cat_batch]
                                              Scripted.state0)))))))
               (calls (snd (optimize_agent Scripted.cat_config
                              Scripted.pri_sched 2 None None
                              (Scripted.load [Scripted.cat_batch]
                                 Scripted.state0)))))
    by (vm_compute; right; left; reflexivity).
  apply (proj2 (proj2 (proj2 (proj2
           (C6_reported_errors_sign Scripted.cat_config Scripted.pri_sched
              2 None None
              (Scripted.load [Scripted.cat_batch] Scripted.state0)
              _ _ eq_refl Hin))))).
  - reflexivity.
  - reflexivity.
Defined.

(** C8 as stated fails with [mid_batch_reset] false: the divergence of the
    transition that follows a [done] is clamped to [1e-6] and then
    multiplied by the mask entry [0], so the error returned for it is zero. *)
Lemma C8_counterexample :
  exists l e1 e2,
    cat_get_loss_values Scripted.cat_config Scripted.no_reset_sched
      [[1 # 2; 1 # 2]; [1 # 2; 1 # 2]] [true; false] [1; 1]
      [[1 # 2; 1 # 2]; [1 # 2; 1 # 2]] = Ok (l, [e1; e2]) /\
    e2 == 0 /\ ~ (1 # 1000000) <= e2 /\ ~ 0 < e2.
Proof.
  eexists _, _, _. split; [vm_compute; reflexivity|].
  split; [reflexivity|]. split; intros H; vm_compute in H;
    [apply H; reflexivity | discriminate].
Qed.

Lemma C8_witness :
  exists l errors,
    cat_get_loss_values Scripted.cat_config Scripted.pri_sched
      [[1 # 2; 1 # 2]; [1 # 2; 1 # 2]] [true; false] [1; 1]
      [[1 # 2; 1 # 2]; [1 # 2; 1 # 2]] = Ok (l, errors) /\
    Forall (fun e => (1 # 1000000) <= e /\ e <= 1000000 /\ 0 < e) errors.
Proof.
  destruct (C8_kl_clamped Scripted.cat_config Scripted.pri_sched
              [[1 # 2; 1 # 2]; [1 # 2; 1 # 2]] [true; false] [1; 1]
              [[1 # 2; 1 # 2]; [1 # 2; 1 # 2]])
    as [l [errors [KL [H1 [_ [_ H4]]]]]].
  exists l, errors. split; [exact H1 | apply H4; reflexivity].
Defined.

(** ** The claim about the order of the calls *)

Section ProtocolClaim.
Context {C : Carriers} {E : Externals}.
Variable cfg : Config.
Variable sched : Sched.

Lemma follows_quiet (l : list Event) :
  Forall quiet l -> follows_protocol cfg sched l.
Proof.
  induction 1 as [|ev l [H1 H2] _ IH]; [constructor|].
  apply protocol_other; assumption.
Qed.

Lemma follows_app (l l' : list Event) :
  follows_protocol cfg sched l -> follows_protocol cfg sched l' ->
  follows_protocol cfg sched (l ++ l').
Proof.
  induction 1 as [| ev l H1 H2 _ IH | n batch errors mid l Herr Hmid _ IH];
    intros Hl'; simpl.
  - exact Hl'.
  - apply protocol_other; auto.
  - rewrite <- app_assoc. simpl.
    apply protocol_sample; auto.
Qed.

Lemma follows_pass (evs : list Event) :
  prioritized_replay cfg = true ->
  completed_pass cfg sched evs -> follows_protocol cfg sched evs.
Proof.
  intros Hp H. destruct H as [n batch errors tl Herr Htl]. rewrite Hp. simpl.
  apply (protocol_sample cfg sched n batch errors [] tl Herr); [constructor|].
  apply follows_quiet.
  destruct Htl as [-> | ->]; repeat constructor.
Qed.

Lemma follows_passes (blocks : list (list Event)) :
  prioritized_replay cfg = true ->
  Forall (completed_pass cfg sched) blocks ->
  follows_protocol cfg sched (concat blocks).
Proof.
  intros Hp. induction 1 as [|b bs Hb _ IH]; simpl; [constructor|].
  apply follows_app; [apply follows_pass; assumption | exact IH].
Qed.

Lemma pass_no_update (evs : list Event) :
  prioritized_replay cfg = false ->
  completed_pass cfg sched evs -> Forall (fun ev => is_update ev = false) evs.
Proof.
  intros Hp H. destruct H as [n batch errors tl Herr Htl]. rewrite Hp. simpl.
  constructor; [reflexivity|].
  destruct Htl as [-> | ->]; repeat constructor.
Qed.

Lemma passes_no_update (blocks : list (list Event)) :
  prioritized_replay cfg = false ->
  Forall (completed_pass cfg sched) blocks ->
  Forall (fun ev => is_update ev = false) (concat blocks).
Proof.
  intros Hp. induction 1 as [|b bs Hb _ IH]; simpl; [constructor|].
  apply Forall_app. split; [apply pass_no_update; assumption | exact IH].
Qed.

Lemma append_calls_quiet (itr : Z) (samples : option Samples) :
  Forall quiet (append_calls itr samples).
Proof.
  unfold append_calls. destruct samples; [|constructor].
  destruct (0 <=? itr)%Z; repeat constructor.
Qed.

(** The loss of DQN returns whenever [mid_batch_reset] is true. *)
Lemma dqn_loss_total (ag : Agent) (samples : SamplesFromReplay) :
  kind cfg = DQN -> mid_batch_reset sched = true ->
  is_ok (loss cfg sched ag samples) = true.
Proof.
  intros Hk Hm. unfold loss, dqn_loss, dqn_get_loss_values.
  rewrite Hk. cbv zeta. rewrite Hm. reflexivity.
Qed.

(** C3, as the code has it. With prioritized replay, the calls that one
    [optimize_agent] makes follow the protocol (every [sample_batch] is
    followed, before the next one, by exactly one [update_batch_priorities]
    carrying the errors that [loss] computed from that batch) except for a
    last [sample_batch] whose update raised before any report, because the
    [loss] raised or because the optimizer had not been built, which ends
    the run with that exception and is followed by no call.  So the protocol
    holds for every run that returns and, once the optimizer is built, for
    every run when [loss] cannot raise and for every run of DQN with
    [mid_batch_reset] true.  Without prioritized replay
    [update_batch_priorities] is never called. *)
Theorem C3_update_follows_sample :
  forall (itr : Z) (samples : option Samples) (sampler_itr : option Z)
         (st : State) (new : list Event),
    let run := optimize_agent cfg sched itr samples sampler_itr st in
    calls (snd run) = calls st ++ new ->
    (prioritized_replay cfg = true ->
     exists good tail,
       new = good ++ tail /\
       follows_protocol cfg sched good /\
       (tail = [] \/
        exists e, interrupted_pass cfg sched tail e /\ fst run = Raise e)) /\
    (prioritized_replay cfg = true -> is_ok (fst run) = true ->
     follows_protocol cfg sched new) /\
    (prioritized_replay cfg = true -> optimizer sched = true ->
     (forall ag batch, is_ok (loss cfg sched ag batch) = true) ->
     follows_protocol cfg sched new) /\
    (prioritized_replay cfg = true -> optimizer sched = true ->
     kind cfg = DQN -> mid_batch_reset sched = true ->
     follows_protocol cfg sched new) /\
    (prioritized_replay cfg = false ->
     Forall (fun ev => is_update ev = false) new).
Proof.
  intros itr samples sampler_itr st new run Hc.
  destruct (optimize_agent_log cfg sched itr samples sampler_itr st)
    as [blocks [tail [post [Hc' [Hb [Ht [Hpost _]]]]]]].
  fold run in Hc', Ht. rewrite Hc in Hc'. apply app_inv_head in Hc'.
  assert (Hquiet : Forall quiet post).
  { destruct Hpost as [-> | [b [-> _]]]; repeat constructor. }
  assert (Hgood : prioritized_replay cfg = true ->
                  follows_protocol cfg sched
                    (append_calls (effective_itr itr sampler_itr) samples
                       ++ concat blocks)).
  { intros Hp. apply follows_app.
    - apply follows_quiet, append_calls_quiet.
    - apply follows_passes; assumption. }
  assert (Hmain : prioritized_replay cfg = true ->
                  exists good tail',
                    new = good ++ tail' /\
                    follows_protocol cfg sched good /\
                    (tail' = [] \/
                     exists e, interrupted_pass cfg sched tail' e /\
                               fst run = Raise e)).
  { intros Hp. destruct Ht as [-> | [e [Hint [He ->]]]].
    - exists new, []. rewrite app_nil_r. split; [reflexivity|].
      split; [|left; reflexivity].
      subst new. simpl. rewrite app_assoc.
      apply follows_app; [apply Hgood; exact Hp | apply follows_quiet; exact Hquiet].
    - exists (append_calls (effective_itr itr sampler_itr) samples
                ++ concat blocks), tail.
      split; [subst new; rewrite app_nil_r, app_assoc; reflexivity|].
      split; [apply Hgood; exact Hp|].
      right. exists e. split; assumption. }
  assert (Hnoraise : prioritized_replay cfg = true ->
                     (forall e, interrupted_pass cfg sched tail e ->
                                fst run = Raise e -> False) ->
                     follows_protocol cfg sched new).
  { intros Hp Hno. destruct Ht as [-> | [e [Hint [He _]]]].
    - subst new. simpl. rewrite app_assoc.
      apply follows_app; [apply Hgood; exact Hp | apply follows_quiet; exact Hquiet].
    - exfalso. exact (Hno e Hint He). }
  split; [exact Hmain|]. split; [|split; [|split]].
  - intros Hp Hok. apply Hnoraise; [exact Hp|].
    intros e _ He. rewrite He in Hok. discriminate.
  - intros Hp Ho Htot. apply Hnoraise; [exact Hp|].
    intros e [n [batch [_ [[Hno _] | [_ [ag Hl]]]]]] _; [congruence|].
    specialize (Htot ag batch). rewrite Hl in Htot. discriminate.
  - intros Hp Ho Hk Hm. apply Hnoraise; [exact Hp|].
    intros e [n [batch [_ [[Hno _] | [_ [ag Hl]]]]]] _; [congruence|].
    pose proof (dqn_loss_total ag batch Hk Hm) as Htot.
    rewrite Hl in Htot. discriminate.
  - intros Hp. subst new.
    apply Forall_app. split.
    { eapply Forall_impl; [|apply append_calls_quiet]. intros ev [_ H]. exact H. }
    apply Forall_app. split.
    { apply passes_no_update; assumption. }
    apply Forall_app. split.
    + destruct Ht as [-> | [e [[n [batch [-> _]]] _]]]; repeat constructor.
    + eapply Forall_impl; [|exact Hquiet]. intros ev [_ H]. exact H.
Qed.

End ProtocolClaim.

(** ** Concrete runs for the claim about the order of the calls *)

Lemma C3_witness :
  follows_protocol Scripted.pri_config Scripted.pri_sched
    (calls (snd (optimize_agent Scripted.pri_config Scripted.pri_sched 2
                   None None
                   (Scripted.load [Scripted.exact_batch] Scripted.state0)))).
Proof.
  apply (proj1 (proj2 (proj2 (proj2
           (C3_update_follows_sample Scripted.pri_config Scripted.pri_sched
              2 None None
              (Scripted.load [Scripted.exact_batch] Scripted.state0)
              _ eq_refl))))).
  - reflexivity.
  - reflexivity.
  - reflexivity.
  - reflexivity.
Defined.

(** C3 as stated fails for DQN with prioritized replay when
    [mid_batch_reset] is false: the first [sample_batch] of the first
    learning iteration is followed by no [update_batch_priorities], because
    the loss raises [NotImplementedError]. *)
Lemma C3_counterexample :
  prioritized_replay Scripted.pri_config = true /\
  fst (optimize_agent Scripted.pri_config Scripted.no_reset_sched 2 None None
         (Scripted.load [Scripted.exact_batch] Scripted.state0)) =
    Raise NotImplementedError /\
  calls (snd (optimize_agent Scripted.pri_config Scripted.no_reset_sched 2
                None None
                (Scripted.load [Scripted.exact_batch] Scripted.state0))) =
    [CallSampleBatch 32 (Scripted.of_raw Scripted.exact_batch)] /\
  ~ follows_protocol Scripted.pri_config Scripted.no_reset_sched
      (calls (snd (optimize_agent Scripted.pri_config Scripted.no_reset_sched
                     2 None None
                     (Scripted.load [Scripted.exact_batch] Scripted.state0)))).
Proof.
  split; [reflexivity|]. split; [reflexivity|]. split; [reflexivity|].
  change (calls (snd (optimize_agent Scripted.pri_config
                        Scripted.no_reset_sched 2 None None
                        (Scripted.load [Scripted.exact_batch] Scripted.state0))))
    with [CallSampleBatch 32 (Scripted.of_raw Scripted.exact_batch)].
  intros H. inversion H as [| ev l H1 H2 H3 | n batch errors mid l H1 H2 H3 H4].
  - discriminate H1.
  - destruct mid; discriminate.
Qed.

(** * Further properties of the learner *)

(** ** Initialization *)

Section InitializationFacts.
Context {C : Carriers} {E : Externals}.
Variable cfg : Config.

(** [DQN.initialize] with its two divisions written out. *)
Lemma dqn_initialize_cases
    (ag : Agent) (batch_spec : BatchSpec) (mbr : bool) (examples : Examples) :
  dqn_initialize cfg ag batch_spec mbr examples =
    if (batch_size cfg =? 0)%Z then Raise ZeroDivisionError
    else if (spec_size batch_spec =? 0)%Z then Raise ZeroDivisionError
    else
      Ok (mkSched (spec_size batch_spec) mbr
            (Z.max 1 (py_round (replay_ratio cfg * inject_Z (spec_size batch_spec)
                                / inject_Z (batch_size cfg))))
            (min_steps_learn cfg / spec_size batch_spec)%Z
            (if prioritized_replay cfg
             then Some (Z.max 1 (pri_beta_steps cfg / spec_size batch_spec))%Z
             else None)
            true,
          mkState 0 (initialize_replay_buffer cfg examples batch_spec false)
            (make_optimizer
               (set_epsilon_itr_min_max
                  (min_steps_learn cfg / spec_size batch_spec)%Z
                  (Z.max 1 (eps_steps cfg / spec_size batch_spec))%Z ag))
            []).
Proof.
  unfold dqn_initialize, optim_initialize, rbind, py_fdiv, py_floordiv.
  destruct (batch_size cfg =? 0)%Z; [reflexivity|].
  destruct (spec_size batch_spec =? 0)%Z eqn:Hs; [reflexivity|].
  simpl. destruct (prioritized_replay cfg); simpl; [rewrite Hs|]; reflexivity.
Qed.

(** X1. [initialize] fails exactly when the training batch size or the
    sampler batch size is zero, and then with [ZeroDivisionError]; it raises
    nothing else. *)
Theorem X1_initialize_raises :
  forall (ag : Agent) (batch_spec : BatchSpec) (mbr : bool)
         (examples : Examples),
    (initialize cfg ag batch_spec mbr examples = Raise ZeroDivisionError <->
     batch_size cfg = 0%Z \/ spec_size batch_spec = 0%Z) /\
    (forall e, initialize cfg ag batch_spec mbr examples = Raise e ->
               e = ZeroDivisionError).
Proof.
  intros ag batch_spec mbr examples.
  unfold initialize, give_V, rbind. rewrite dqn_initialize_cases.
  destruct (Z.eqb_spec (batch_size cfg) 0) as [Hb|Hb];
    [| destruct (Z.eqb_spec (spec_size batch_spec) 0) as [Hs|Hs]];
    destruct (kind cfg); split;
    try (split; [intros _; auto | reflexivity]);
    try (split; [discriminate | intros [H|H]; contradiction]);
    intros e He; inversion He; reflexivity.
Qed.

(** X2. When [initialize] returns, every learning iteration makes at least
    one update ([updates_per_optimize >= 1]), the annealing span of a
    prioritized learner ends at an iteration [pri_beta_itr >= 1] and a
    uniform learner has no [pri_beta_itr], the update counter is zero and no
    call has been made on the buffer. *)
Theorem X2_initialize_schedule :
  forall (ag : Agent) (batch_spec : BatchSpec) (mbr : bool)
         (examples : Examples) (sc : Sched) (st : State),
    initialize cfg ag batch_spec mbr examples = Ok (sc, st) ->
    (1 <= updates_per_optimize sc)%Z /\
    sampler_bs sc = spec_size batch_spec /\
    mid_batch_reset sc = mbr /\
    (if prioritized_replay cfg
     then exists pbi, pri_beta_itr sc = Some pbi /\ (1 <= pbi)%Z
     else pri_beta_itr sc = None) /\
    update_counter st = 0%Z /\
    calls st = [] /\
    replay_buffer st = initialize_replay_buffer cfg examples batch_spec false.
Proof.
  intros ag batch_spec mbr examples sc st.
  unfold initialize, give_V, rbind. rewrite dqn_initialize_cases.
  destruct (batch_size cfg =? 0)%Z;
    [destruct (kind cfg); discriminate|].
  destruct (spec_size batch_spec =? 0)%Z;
    [destruct (kind cfg); discriminate|].
  intros H.
  assert (Hsc : sc = fst (sc, st)) by reflexivity.
  destruct (kind cfg); inversion H; subst sc st; simpl;
    (repeat split; try lia; try reflexivity;
     destruct (prioritized_replay cfg);
     [eexists; split; [reflexivity | lia] | reflexivity]).
Qed.

End InitializationFacts.

Lemma X2_witness :
  (1 <= updates_per_optimize Scripted.pri_sched)%Z /\
  exists pbi, pri_beta_itr Scripted.pri_sched = Some pbi /\ (1 <= pbi)%Z.
Proof.
  pose proof (X2_initialize_schedule Scripted.pri_config Scripted.some_agent
                Scripted.spec_4x8 true Scripted.some_examples
                Scripted.pri_sched Scripted.state0 eq_refl) as H.
  split; [exact (proj1 H) | exact (proj1 (proj2 (proj2 (proj2 H))))].
Defined.

Section AsyncFacts.
Context {C : Carriers} {E : Externals}.
Variable cfg : Config.

(** X3. [async_initialize] builds the asynchronous buffer, takes
    [updates_per_optimize] from [updates_per_sync] and leaves
    [pri_beta_itr] unset: until [optim_initialize] has run, which cannot
    fail after it, [update_itr_hyperparams] of a prioritized learner raises
    [AttributeError]; afterwards it never does. *)
Theorem X3_async_needs_optim_initialize :
  forall (ag : Agent) (batch_spec : BatchSpec) (mbr : bool)
         (examples : Examples) (sc : Sched) (st : State),
    async_initialize cfg ag batch_spec mbr examples = Ok (sc, st) ->
    updates_per_optimize sc = updates_per_sync cfg /\
    pri_beta_itr sc = None /\
    replay_buffer st = initialize_replay_buffer cfg examples batch_spec true /\
    (prioritized_replay cfg = true ->
     forall itr s,
       update_itr_hyperparams cfg sc itr s = (Raise AttributeError, s)) /\
    (exists sc' st',
       optim_initialize cfg sc st = Ok (sc', st') /\
       forall itr s,
         fst (update_itr_hyperparams cfg sc' itr s) <> Raise AttributeError).
Proof.
  intros ag batch_spec mbr examples sc st.
  unfold async_initialize, give_V, dqn_async_initialize, rbind, py_floordiv.
  destruct (Z.eqb_spec (spec_size batch_spec) 0) as [Hs|Hs];
    [destruct (kind cfg); discriminate|].
  intros H.
  assert (Hsc : sc = mkSched (spec_size batch_spec) mbr (updates_per_sync cfg)
                       (min_steps_learn cfg / spec_size batch_spec)%Z None
                       false /\
                replay_buffer st =
                  initialize_replay_buffer cfg examples batch_spec true).
  { destruct (kind cfg); inversion H; split; reflexivity. }
  destruct Hsc as [-> Hbuf]. clear H.
  split; [reflexivity|]. split; [reflexivity|]. split; [exact Hbuf|]. split.
  - intros Hp itr s. rewrite update_itr_hyperparams_cases, Hp. reflexivity.
  - unfold optim_initialize, rbind, py_floordiv. simpl.
    destruct (Z.eqb_spec (spec_size batch_spec) 0) as [|_]; [contradiction|].
    destruct (prioritized_replay cfg) eqn:Hp; simpl;
      eexists _, _; (split; [reflexivity|]);
      intros itr s; rewrite update_itr_hyperparams_cases, Hp; simpl;
      [| discriminate].
    destruct (itr <=? _)%Z; [|discriminate].
    unfold beta_prog, rbind, py_div. simpl.
    destruct (_ =? 0)%Z; discriminate.
Qed.

End AsyncFacts.

Lemma X3_witness :
  update_itr_hyperparams Scripted.pri_config
    (mkSched 32 true 1 2 None false) 3 Scripted.state0 =
    (Raise AttributeError, Scripted.state0).
Proof.
  apply (proj1 (proj2 (proj2 (proj2
           (@X3_async_needs_optim_initialize Scripted.carriers
              Scripted.externals Scripted.pri_config
              Scripted.some_agent Scripted.spec_4x8 true Scripted.some_examples
              (mkSched 32 true 1 2 None false)
              Scripted.state0 eq_refl))))).
  reflexivity.
Defined.

(** ** Accounting of one iteration *)

Lemma count_calls_app {C : Carriers} (p : Event -> bool) (a b : list Event) :
  count_calls p (a ++ b) = (count_calls p a + count_calls p b)%nat.
Proof. unfold count_calls. rewrite filter_app, length_app. reflexivity. Qed.

(** Moving the counter from [c] to [c + 1] crosses a multiple of [t]
    exactly when [(c + 1) mod t = 0]. *)
Lemma div_succ (c t : Z) :
  (0 < t)%Z ->
  ((c + 1) / t = c / t + (if (c + 1) mod t =? 0 then 1 else 0))%Z.
Proof.
  intros Ht.
  pose proof (Z.div_mod c t ltac:(lia)) as Hc.
  pose proof (Z.mod_pos_bound c t Ht) as Hcb.
  pose proof (Z.div_mod (c + 1) t ltac:(lia)) as Hs.
  pose proof (Z.mod_pos_bound (c + 1) t Ht) as Hsb.
  destruct (Z.eqb_spec ((c + 1) mod t) 0) as [H0|H0].
  - rewrite H0 in Hs. nia.
  - nia.
Qed.

Section AccountingFacts.
Context {C : Carriers} {E : Externals}.
Variable cfg : Config.
Variable sched : Sched.

(** What a pass of the loop that returns has done. *)
Lemma optimize_step_ok (oi oi' : OptInfo) (st st' : State) :
  optimize_step cfg sched oi st = (Ok oi', st') ->
  update_counter st' = (update_counter st + 1)%Z /\
  target_update_interval cfg <> 0%Z /\
  List.length (loss_ oi') = S (List.length (loss_ oi)) /\
  List.length (gradNorm oi') = S (List.length (gradNorm oi)) /\
  exists evs,
    calls st' = calls st ++ evs /\
    count_calls is_sample evs = 1%nat /\
    count_calls is_update evs = (if prioritized_replay cfg then 1 else 0)%nat /\
    count_calls is_update_target evs =
      (if ((update_counter st + 1) mod target_update_interval cfg =? 0)%Z
       then 1 else 0)%nat /\
    count_calls is_append evs = 0%nat /\
    count_calls is_set_beta evs = 0%nat.
Proof.
  unfold optimize_step, call_sample_batch, apply_optimization, bind, get_state,
    set_buffer, log, lift, ret, set_agent, call_update_batch_priorities,
    call_update_target, set_update_counter.
  simpl.
  destruct (sample_batch (batch_size cfg) (replay_buffer st)) as [batch buf].
  simpl.
  destruct (optimizer sched); simpl; [|discriminate].
  destruct (loss cfg sched (agent st) batch) as [[l e]|ex]; [|discriminate].
  destruct (gradient_step (clip_grad_norm cfg) batch (agent st)) as [ag gn].
  simpl.
  destruct (prioritized_replay cfg); simpl;
    (destruct (Z.eqb_spec (target_update_interval cfg) 0) as [Ht|Ht]; simpl;
     [discriminate|]);
    destruct (_ mod _ =? 0)%Z; simpl;
    intros H; inversion H; subst; simpl;
    rewrite ?length_app; simpl;
    (repeat split; try lia; try assumption);
    rewrite <- ?app_assoc; simpl;
    eexists; (split; [reflexivity|]); repeat split; reflexivity.
Qed.

(** What a loop that returns has done. *)
Lemma for_range_ok (n : nat) :
  forall (oi oi' : OptInfo) (st st' : State),
    for_range n (optimize_step cfg sched) oi st = (Ok oi', st') ->
    update_counter st' = (update_counter st + Z.of_nat n)%Z /\
    List.length (loss_ oi') = (List.length (loss_ oi) + n)%nat /\
    List.length (gradNorm oi') = (List.length (gradNorm oi) + n)%nat /\
    exists evs,
      calls st' = calls st ++ evs /\
      count_calls is_sample evs = n /\
      count_calls is_update evs = (if prioritized_replay cfg then n else 0)%nat /\
      ((0 < target_update_interval cfg)%Z ->
       Z.of_nat (count_calls is_update_target evs) =
         ((update_counter st + Z.of_nat n) / target_update_interval cfg
          - update_counter st / target_update_interval cfg)%Z) /\
      count_calls is_append evs = 0%nat /\
      count_calls is_set_beta evs = 0%nat.
Proof.
  induction n as [|n IH]; intros oi oi' st st' H.
  - simpl in H. unfold ret in H. inversion H; subst.
    repeat split; try lia.
    exists []. rewrite app_nil_r.
    repeat split; try reflexivity.
    + destruct (prioritized_replay cfg); reflexivity.
    + intros _. rewrite Z.add_0_r, Z.sub_diag. reflexivity.
  - change (for_range (S n) (optimize_step cfg sched) oi st)
      with (match optimize_step cfg sched oi st with
            | (Ok a, s') => for_range n (optimize_step cfg sched) a s'
            | (Raise e, s') => (Raise e, s')
            end) in H.
    destruct (optimize_step cfg sched oi st) as [[oi1|ex] st1] eqn:Hstep;
      [|discriminate].
    destruct (optimize_step_ok oi oi1 st st1 Hstep)
      as [Hc1 [Ht1 [Hl1 [Hg1 [evs1 [He1 [Hs1 [Hu1 [Htg1 [Ha1 Hb1]]]]]]]]]].
    destruct (IH oi1 oi' st1 st' H)
      as [Hc2 [Hl2 [Hg2 [evs2 [He2 [Hs2 [Hu2 [Htg2 [Ha2 Hb2]]]]]]]]].
    repeat split; try lia.
    exists (evs1 ++ evs2). rewrite He2, He1, <- app_assoc.
    rewrite !count_calls_app.
    repeat split; try lia.
    + destruct (prioritized_replay cfg); lia.
    + intros Ht. specialize (Htg2 Ht).
      pose proof (div_succ (update_counter st) (target_update_interval cfg) Ht)
        as Hd.
      rewrite Hc1 in Htg2.
      replace (update_counter st + Z.of_nat (S n))%Z
        with (update_counter st + 1 + Z.of_nat n)%Z by lia.
      rewrite Nat2Z.inj_add, Htg2, Htg1.
      destruct ((update_counter st + 1) mod target_update_interval cfg =? 0)%Z;
        [change (Z.of_nat 1) with 1%Z | change (Z.of_nat 0) with 0%Z]; lia.
Qed.

End AccountingFacts.

Section IterationAccounting.
Context {C : Carriers} {E : Externals}.
Variable cfg : Config.
Variable sched : Sched.

Lemma update_itr_hyperparams_ok (itr : Z) (s s' : State) :
  update_itr_hyperparams cfg sched itr s = (Ok tt, s') ->
  update_counter s' = update_counter s /\
  exists post,
    calls s' = calls s ++ post /\
    count_calls is_set_beta post = (if anneals cfg sched itr then 1 else 0)%nat /\
    count_calls is_sample post = 0%nat /\
    count_calls is_update post = 0%nat /\
    count_calls is_update_target post = 0%nat /\
    count_calls is_append post = 0%nat.
Proof.
  rewrite update_itr_hyperparams_cases. unfold anneals.
  destruct (prioritized_replay cfg); simpl.
  2:{ intros H; inversion H; subst. split; [reflexivity|].
      exists []. rewrite app_nil_r. repeat split. }
  destruct (pri_beta_itr sched) as [pbi|]; [|discriminate].
  destruct (itr <=? pbi)%Z.
  - destruct (beta_prog sched pbi itr) as [prog|e]; [|discriminate].
    intros H; inversion H; subst. split; [reflexivity|].
    eexists. split; [reflexivity|]. repeat split.
  - intros H; inversion H; subst. split; [reflexivity|].
    exists []. rewrite app_nil_r. repeat split.
Qed.

Lemma optimize_agent_ok
    (itr : Z) (samples : option Samples) (sampler_itr : option Z)
    (st st' : State) (oi : OptInfo) :
  optimize_agent cfg sched itr samples sampler_itr st = (Ok oi, st') ->
  let itr' := effective_itr itr sampler_itr in
  let n := passes sched itr' in
  (0 <= itr')%Z /\
  update_counter st' = (update_counter st + Z.of_nat n)%Z /\
  List.length (loss_ oi) = n /\
  List.length (gradNorm oi) = n /\
  exists new,
    calls st' = calls st ++ new /\
    count_calls is_append new =
      (match samples with Some _ => 1 | None => 0 end)%nat /\
    count_calls is_sample new = n /\
    count_calls is_update new = (if prioritized_replay cfg then n else 0)%nat /\
    count_calls is_set_beta new =
      (if (itr' <? min_itr_learn sched)%Z then 0
       else if anneals cfg sched itr' then 1 else 0)%nat /\
    ((0 < target_update_interval cfg)%Z ->
     Z.of_nat (count_calls is_update_target new) =
       ((update_counter st + Z.of_nat n) / target_update_interval cfg
        - update_counter st / target_update_interval cfg)%Z).
Proof.
  rewrite optimize_agent_unfold. cbv zeta. unfold passes.
  set (itr' := effective_itr itr sampler_itr).
  pose proof (add_samples_log itr' samples st) as Hlog.
  destruct (Z.leb_spec 0 itr') as [H0|H0].
  2:{ rewrite add_samples_negative by assumption. discriminate. }
  assert (Hadd : exists s1,
             add_samples_to_buffer itr' samples st = (Ok tt, s1) /\
             update_counter s1 = update_counter st /\
             calls s1 = calls st ++ append_calls itr' samples).
  { destruct samples as [s|].
    - rewrite add_samples_some by assumption. eexists. split; [reflexivity|].
      split; [reflexivity|]. unfold append_calls.
      destruct (Z.leb_spec 0 itr'); [reflexivity | lia].
    - rewrite add_samples_none by assumption. exists st. split; [reflexivity|].
      split; [reflexivity|]. simpl. rewrite app_nil_r. reflexivity. }
  destruct Hadd as [s1 [-> [Hc1 Hl1]]].
  assert (Happ : count_calls is_append (append_calls itr' samples) =
                 (match samples with Some _ => 1 | None => 0 end)%nat /\
                 count_calls is_sample (append_calls itr' samples) = 0%nat /\
                 count_calls is_update (append_calls itr' samples) = 0%nat /\
                 count_calls is_set_beta (append_calls itr' samples) = 0%nat /\
                 count_calls is_update_target (append_calls itr' samples) = 0%nat).
  { unfold append_calls. destruct samples; [|repeat split].
    destruct (Z.leb_spec 0 itr'); [repeat split | lia]. }
  destruct Happ as [Ha [Hs [Hu [Hb Ht]]]].
  destruct (Z.ltb_spec itr' (min_itr_learn sched)) as [Hlt|Hge].
  - intros H; inversion H; subst. split; [exact H0|].
    split; [simpl; lia|]. split; [reflexivity|]. split; [reflexivity|].
    exists (append_calls itr' samples). split; [exact Hl1|].
    rewrite Ha, Hs, Hu, Hb, Ht.
    split; [reflexivity|]. split; [reflexivity|].
    split; [destruct (prioritized_replay cfg); reflexivity|].
    split; [reflexivity|].
    intros _. simpl. rewrite Z.add_0_r, Z.sub_diag. reflexivity.
  - destruct (for_range (Z.to_nat (updates_per_optimize sched))
                (optimize_step cfg sched) get_empty_optim_info s1)
      as [[oi1|e] s2] eqn:Hloop; [|discriminate].
    destruct (for_range_ok cfg sched _ _ _ _ _ Hloop)
      as [Hc2 [Hl2 [Hg2 [evs [He [Hs2 [Hu2 [Ht2 [Ha2 Hb2]]]]]]]]].
    destruct (update_itr_hyperparams cfg sched itr' s2) as [[[]|e] s3] eqn:Hup;
      [|discriminate].
    destruct (update_itr_hyperparams_ok itr' s2 s3 Hup)
      as [Hc3 [post [Hp [Hb3 [Hs3 [Hu3 [Ht3 Ha3]]]]]]].
    intros H; inversion H; subst oi1 s3. clear H.
    split; [exact H0|]. split; [lia|].
    split; [exact Hl2|]. split; [exact Hg2|].
    exists (append_calls itr' samples ++ evs ++ post).
    split; [rewrite Hp, He, Hl1, <- !app_assoc; reflexivity|].
    rewrite !count_calls_app.
    rewrite Ha, Ha2, Ha3, Hs, Hs2, Hs3, Hu, Hu2, Hu3, Hb, Hb2, Hb3, Ht, Ht3.
    split; [destruct samples; reflexivity|].
    split; [lia|].
    split; [destruct (prioritized_replay cfg); lia|].
    split; [reflexivity|].
    intros Hpos. rewrite Nat.add_0_r. simpl.
    rewrite (Ht2 Hpos), Hc1. reflexivity.
Qed.

(** X4. An [optimize_agent] that returns has made exactly one
    [append_samples] call if samples were given and none otherwise, and,
    with [n] the number of loop passes ([0] before learning starts,
    [updates_per_optimize] afterwards): [n] [sample_batch] calls, [n]
    [update_batch_priorities] calls with prioritized replay, a counter
    advanced by [n], and [n] entries in each of the [loss] and [gradNorm]
    lists of the returned [OptInfo]. *)
Theorem X4_iteration_accounting :
  forall (itr : Z) (samples : option Samples) (sampler_itr : option Z)
         (st st' : State) (oi : OptInfo),
    optimize_agent cfg sched itr samples sampler_itr st = (Ok oi, st') ->
    let n := if (effective_itr itr sampler_itr <? min_itr_learn sched)%Z
             then 0%nat else Z.to_nat (updates_per_optimize sched) in
    update_counter st' = (update_counter st + Z.of_nat n)%Z /\
    List.length (loss_ oi) = n /\
    List.length (gradNorm oi) = n /\
    exists new,
      calls st' = calls st ++ new /\
      count_calls is_append new =
        (match samples with Some _ => 1 | None => 0 end)%nat /\
      count_calls is_sample new = n /\
      count_calls is_update new = (if prioritized_replay cfg then n else 0)%nat.
Proof.
  intros itr samples sampler_itr st st' oi H.
  destruct (optimize_agent_ok itr samples sampler_itr st st' oi H)
    as [_ [Hc [Hl [Hg [new [Hn [Ha [Hs [Hu _]]]]]]]]].
  cbv zeta. fold (passes sched (effective_itr itr sampler_itr)).
  repeat split; try assumption.
  exists new. repeat split; assumption.
Qed.

(** X5. With a positive [target_update_interval], the [update_target]
    calls of an [optimize_agent] that returns are as many as the multiples
    of the interval that the update counter passes, and [set_beta] is
    called once in a learning iteration of a prioritized learner with
    [itr <= pri_beta_itr], and not at all otherwise. *)
Theorem X5_target_and_beta_calls :
  forall (itr : Z) (samples : option Samples) (sampler_itr : option Z)
         (st st' : State) (oi : OptInfo),
    optimize_agent cfg sched itr samples sampler_itr st = (Ok oi, st') ->
    exists new,
      calls st' = calls st ++ new /\
      ((0 < target_update_interval cfg)%Z ->
       Z.of_nat (count_calls is_update_target new) =
         (update_counter st' / target_update_interval cfg
          - update_counter st / target_update_interval cfg)%Z) /\
      count_calls is_set_beta new =
        (if (effective_itr itr sampler_itr <? min_itr_learn sched)%Z then 0
         else if prioritized_replay cfg &&
                 match pri_beta_itr sched with
                 | Some pbi => (effective_itr itr sampler_itr <=? pbi)%Z
                 | None => false
                 end
              then 1 else 0)%nat.
Proof.
  intros itr samples sampler_itr st st' oi H.
  destruct (optimize_agent_ok itr samples sampler_itr st st' oi H)
    as [_ [Hc [_ [_ [new [Hn [_ [_ [_ [Hb Ht]]]]]]]]]].
  exists new. split; [exact Hn|]. split; [|exact Hb].
  intros Hpos. rewrite Hc. apply Ht. exact Hpos.
Qed.

End IterationAccounting.

Lemma X1_witness :
  initialize (init DQN Scenarios.zero_batch_args) Scripted.some_agent
    Scripted.spec_4x8 true Scripted.some_examples = Raise ZeroDivisionError.
Proof.
  apply (proj2 (proj1 (@X1_initialize_raises Scripted.carriers
                         Scripted.externals (init DQN Scenarios.zero_batch_args)
                         Scripted.some_agent Scripted.spec_4x8 true
                         Scripted.some_examples))).
  left. reflexivity.
Defined.

Lemma learning_run_returns :
  optimize_agent Scripted.pri_config Scripted.pri_sched 2 None None
    (Scripted.load [Scripted.exact_batch] Scripted.state0) =
    (Ok (Scenarios.info_of Scenarios.learning_run), snd Scenarios.learning_run).
Proof. vm_compute. reflexivity. Qed.

Lemma X4_witness :
  update_counter (snd Scenarios.learning_run) = (0 + 8)%Z /\
  List.length (loss_ (Scenarios.info_of Scenarios.learning_run)) = 8%nat.
Proof.
  pose proof (X4_iteration_accounting Scripted.pri_config Scripted.pri_sched
                2 None None
                (Scripted.load [Scripted.exact_batch] Scripted.state0)
                (snd Scenarios.learning_run)
                (Scenarios.info_of Scenarios.learning_run)
                learning_run_returns) as H.
  split; [exact (proj1 H) | exact (proj1 (proj2 H))].
Defined.

Lemma X5_witness :
  exists new,
    calls (snd Scenarios.learning_run) = new /\
    Z.of_nat (count_calls is_update_target new) = 0%Z /\
    count_calls is_set_beta new = 1%nat.
Proof.
  destruct (X5_target_and_beta_calls Scripted.pri_config Scripted.pri_sched
              2 None None
              (Scripted.load [Scripted.exact_batch] Scripted.state0)
              (snd Scenarios.learning_run)
              (Scenarios.info_of Scenarios.learning_run)
              learning_run_returns)
    as [new [Hn [Ht Hb]]].
  exists new. split; [exact Hn|]. split; [|exact Hb].
  rewrite Ht by reflexivity. vm_compute. reflexivity.
Defined.

(** ** When an iteration raises *)

Section RaisingFacts.
Context {C : Carriers} {E : Externals}.
Variable cfg : Config.
Variable sched : Sched.

(** Without an optimizer a pass of the loop raises [AttributeError] right
    after its [sample_batch] call. *)
Lemma optimize_step_no_optimizer (oi : OptInfo) (st : State) :
  optimizer sched = false ->
  exists st',
    optimize_step cfg sched oi st = (Raise AttributeError, st') /\
    update_counter st' = update_counter st /\
    agent st' = agent st /\
    calls st' =
      calls st ++ [CallSampleBatch (batch_size cfg)
                     (fst (sample_batch (batch_size cfg) (replay_buffer st)))].
Proof.
  intros Ho.
  unfold optimize_step, call_sample_batch, apply_optimization, bind, get_state,
    set_buffer, log, lift, ret, raise.
  simpl.
  destruct (sample_batch (batch_size cfg) (replay_buffer st)) as [batch buf].
  simpl. rewrite Ho. simpl.
  eexists. split; [reflexivity|]. repeat split.
Qed.

(** With an optimizer, a pass of the loop raises what its loss raises,
    right after the [sample_batch] call. *)
Lemma optimize_step_loss_raises (P : exn -> Prop) (oi : OptInfo) (st : State) :
  optimizer sched = true ->
  (forall batch, exists e, loss cfg sched (agent st) batch = Raise e /\ P e) ->
  exists e st',
    optimize_step cfg sched oi st = (Raise e, st') /\ P e /\
    calls st' =
      calls st ++ [CallSampleBatch (batch_size cfg)
                     (fst (sample_batch (batch_size cfg) (replay_buffer st)))].
Proof.
  intros Ho Hl.
  unfold optimize_step, call_sample_batch, apply_optimization, bind, get_state,
    set_buffer, log, lift, ret.
  simpl.
  destruct (sample_batch (batch_size cfg) (replay_buffer st)) as [batch buf].
  simpl. rewrite Ho. simpl.
  destruct (Hl batch) as [e [He HP]]. rewrite He. simpl.
  exists e. eexists. split; [reflexivity|]. split; [exact HP|].
  reflexivity.
Qed.

(** [CategoricalDQN.loss] without prioritized replay. *)
Lemma cat_loss_uniform (ag : Agent) (samples : SamplesFromReplay) :
  prioritized_replay cfg = false ->
  cat_loss cfg sched ag samples =
    if (n_atoms ag - 1 =? 0)%Z then Raise ZeroDivisionError
    else Raise UnboundLocalError.
Proof.
  intros Hp. unfold cat_loss, rbind, py_fdiv. cbv zeta. rewrite Hp.
  destruct (n_atoms ag - 1 =? 0)%Z; reflexivity.
Qed.

(** A pass of the loop returns when the optimizer exists, its loss returns
    and the interval is not zero. *)
Lemma optimize_step_returns (oi : OptInfo) (st : State) :
  optimizer sched = true ->
  (forall ag batch, is_ok (loss cfg sched ag batch) = true) ->
  target_update_interval cfg <> 0%Z ->
  is_ok (fst (optimize_step cfg sched oi st)) = true.
Proof.
  intros Ho Hl Ht.
  unfold optimize_step, call_sample_batch, apply_optimization, bind, get_state,
    set_buffer, log, lift, ret, set_agent, call_update_batch_priorities,
    call_update_target, set_update_counter.
  simpl.
  destruct (sample_batch (batch_size cfg) (replay_buffer st)) as [batch buf].
  simpl. rewrite Ho. simpl. specialize (Hl (agent st) batch).
  destruct (loss cfg sched (agent st) batch) as [[l e]|ex]; [|discriminate].
  destruct (gradient_step (clip_grad_norm cfg) batch (agent st)) as [ag gn].
  simpl.
  destruct (prioritized_replay cfg); simpl;
    (destruct (Z.eqb_spec (target_update_interval cfg) 0); [contradiction|]);
    simpl; destruct (_ mod _ =? 0)%Z; reflexivity.
Qed.

Lemma for_range_returns (n : nat) :
  optimizer sched = true ->
  (forall ag batch, is_ok (loss cfg sched ag batch) = true) ->
  target_update_interval cfg <> 0%Z ->
  forall oi st,
    is_ok (fst (for_range n (optimize_step cfg sched) oi st)) = true.
Proof.
  intros Ho Hl Ht. induction n as [|n IH]; intros oi st; [reflexivity|].
  change (for_range (S n) (optimize_step cfg sched) oi st)
    with (match optimize_step cfg sched oi st with
          | (Ok a, s') => for_range n (optimize_step cfg sched) a s'
          | (Raise e, s') => (Raise e, s')
          end).
  pose proof (optimize_step_returns oi st Ho Hl Ht) as Hs.
  destruct (optimize_step cfg sched oi st) as [[oi1|e] s1]; [|discriminate].
  apply IH.
Qed.

(** The state in which the loop of a learning iteration starts. *)
Lemma add_samples_ok (itr : Z) (samples : option Samples) (st : State) :
  (0 <= itr)%Z ->
  exists s1,
    add_samples_to_buffer itr samples st = (Ok tt, s1) /\
    update_counter s1 = update_counter st /\
    agent s1 = agent st /\
    calls s1 = calls st ++ append_calls itr samples /\
    replay_buffer s1 =
      match samples with
      | Some s => append_samples (samples_to_buffer s) (replay_buffer st)
      | None => replay_buffer st
      end.
Proof.
  intros H0. unfold append_calls. destruct samples as [s|].
  - rewrite add_samples_some by assumption.
    destruct (Z.leb_spec 0 itr); [|lia].
    eexists. split; [reflexivity|]. repeat split.
  - rewrite add_samples_none by assumption.
    exists st. rewrite app_nil_r. repeat split.
Qed.

(** X6. [initialize] and [optim_initialize] build the optimizer;
    [async_initialize] does not.  For DQN with [mid_batch_reset] true, the
    optimizer built, a nonzero [target_update_interval] and, with
    prioritized replay, an annealing span that does not end at
    [min_itr_learn], [optimize_agent] returns at every iteration
    [itr >= 0]: it raises nothing.  Without the optimizer, as on the learner
    that [async_initialize] returns, every learning iteration with at least
    one update raises [AttributeError] right after its first [sample_batch]
    call, whatever the algorithm. *)
Theorem X6_dqn_iteration_returns :
  forall (itr : Z) (samples : option Samples) (sampler_itr : option Z)
         (st : State),
    (forall ag batch_spec mbr examples sc st0,
       (initialize cfg ag batch_spec mbr examples = Ok (sc, st0) ->
        optimizer sc = true) /\
       (async_initialize cfg ag batch_spec mbr examples = Ok (sc, st0) ->
        optimizer sc = false) /\
       (forall sc' st', optim_initialize cfg sc st0 = Ok (sc', st') ->
                        optimizer sc' = true)) /\
    (kind cfg = DQN ->
     mid_batch_reset sched = true ->
     optimizer sched = true ->
     target_update_interval cfg <> 0%Z ->
     (prioritized_replay cfg = true ->
      exists pbi, pri_beta_itr sched = Some pbi /\ pbi <> min_itr_learn sched) ->
     (0 <= effective_itr itr sampler_itr)%Z ->
     is_ok (fst (optimize_agent cfg sched itr samples sampler_itr st)) = true) /\
    (optimizer sched = false ->
     (0 <= effective_itr itr sampler_itr)%Z ->
     (min_itr_learn sched <= effective_itr itr sampler_itr)%Z ->
     (1 <= updates_per_optimize sched)%Z ->
     exists st' batch,
       optimize_agent cfg sched itr samples sampler_itr st =
         (Raise AttributeError, st') /\
       update_counter st' = update_counter st /\
       agent st' = agent st /\
       calls st' =
         calls st ++ append_calls (effective_itr itr sampler_itr) samples
           ++ [CallSampleBatch (batch_size cfg) batch]).
Proof.
  intros itr samples sampler_itr st. split; [|split].
  - intros ag batch_spec mbr examples sc st0. split; [|split].
    + unfold initialize, give_V, dqn_initialize, optim_initialize, rbind.
      destruct (py_fdiv _ _); [|destruct (kind cfg); discriminate].
      destruct (py_floordiv (min_steps_learn cfg) _);
        [|destruct (kind cfg); discriminate].
      destruct (py_floordiv (eps_steps cfg) _);
        [|destruct (kind cfg); discriminate].
      cbv zeta. cbn [sampler_bs].
      destruct (prioritized_replay cfg);
        [destruct (py_floordiv (pri_beta_steps cfg) _);
         [|destruct (kind cfg); discriminate]|];
        destruct (kind cfg); simpl; intros H; inversion H; reflexivity.
    + unfold async_initialize, give_V, dqn_async_initialize, rbind.
      destruct (py_floordiv (min_steps_learn cfg) _);
        [|destruct (kind cfg); discriminate].
      destruct (py_floordiv (eps_steps cfg) _);
        [|destruct (kind cfg); discriminate].
      destruct (kind cfg); simpl; intros H; inversion H; reflexivity.
    + intros sc' st'. unfold optim_initialize, rbind.
      destruct (prioritized_replay cfg);
        [destruct (py_floordiv _ _); [|discriminate]|];
        simpl; intros H; inversion H; reflexivity.
  - intros Hk Hm Ho Ht Hpri H0.
    rewrite optimize_agent_unfold. cbv zeta.
    set (itr' := effective_itr itr sampler_itr) in *.
    destruct (add_samples_ok itr' samples st H0) as [s1 [-> _]].
    destruct (itr' <? min_itr_learn sched)%Z; [reflexivity|].
    assert (Hl : forall ag batch, is_ok (loss cfg sched ag batch) = true).
    { intros ag batch. apply dqn_loss_total; assumption. }
    pose proof (for_range_returns (Z.to_nat (updates_per_optimize sched)) Ho Hl
                  Ht get_empty_optim_info s1) as Hloop.
    destruct (for_range _ _ _ s1) as [[oi|e] s2]; [|discriminate].
    rewrite update_itr_hyperparams_cases.
    destruct (prioritized_replay cfg); [|reflexivity].
    destruct (Hpri eq_refl) as [pbi [-> Hne]].
    destruct (itr' <=? pbi)%Z; [|reflexivity].
    rewrite beta_prog_eq by assumption. reflexivity.
  - intros Ho H0 Hge Hn.
    rewrite optimize_agent_unfold. cbv zeta.
    set (itr' := effective_itr itr sampler_itr) in *.
    destruct (add_samples_ok itr' samples st H0)
      as [s1 [-> [Hc1 [Ha1 [Hl1 _]]]]].
    destruct (Z.ltb_spec itr' (min_itr_learn sched)); [lia|].
    destruct (Z.to_nat (updates_per_optimize sched)) as [|n] eqn:Hupo; [lia|].
    change (for_range (S n) (optimize_step cfg sched) get_empty_optim_info s1)
      with (match optimize_step cfg sched get_empty_optim_info s1 with
            | (Ok a, s') => for_range n (optimize_step cfg sched) a s'
            | (Raise e, s') => (Raise e, s')
            end).
    destruct (optimize_step_no_optimizer get_empty_optim_info s1 Ho)
      as [st' [-> [Hc [Ha Hl]]]].
    exists st'. eexists. split; [reflexivity|].
    split; [congruence|]. split; [congruence|].
    rewrite Hl, Hl1, <- app_assoc. reflexivity.
Qed.

(** X7. [CategoricalDQN.loss] raises [ZeroDivisionError] exactly when the
    agent has a single atom, raises [UnboundLocalError] exactly when it has
    not and prioritized replay is off, and returns exactly with prioritized
    replay and a number of atoms other than one. *)
Theorem X7_cat_loss_raises :
  forall (ag : Agent) (samples : SamplesFromReplay),
    (cat_loss cfg sched ag samples = Raise ZeroDivisionError <->
     n_atoms ag = 1%Z) /\
    (cat_loss cfg sched ag samples = Raise UnboundLocalError <->
     n_atoms ag <> 1%Z /\ prioritized_replay cfg = false) /\
    (is_ok (cat_loss cfg sched ag samples) = true <->
     n_atoms ag <> 1%Z /\ prioritized_replay cfg = true).
Proof.
  intros ag samples. unfold cat_loss, rbind, py_fdiv. cbv zeta.
  destruct (Z.eqb_spec (n_atoms ag - 1) 0) as [H1|H1].
  - repeat split; try (intros; lia); try discriminate;
      try (intros [Hne _]; lia); try reflexivity.
  - destruct (prioritized_replay cfg) eqn:Hp.
    + match goal with
      | |- context [cat_get_loss_values cfg sched ?p ?d ?w ?tp] =>
          destruct (cat_get_loss_values_ok cfg sched p d w tp)
            as [losses [KL [_ Heq]]]; rewrite Heq
      end.
      destruct (mid_batch_reset sched); simpl;
        (repeat split; try discriminate; try (intros; lia);
         try (intros [_ Habs]; discriminate)).
    + repeat split; try discriminate; try (intros; lia);
        try (intros [_ Habs]; discriminate).
Qed.

(** X8. A learning iteration of CategoricalDQN without prioritized replay
    never returns, with or without samples to append: with at least one
    update per iteration and [itr >= 0], [optimize_agent] appends the
    samples it was given, makes a single [sample_batch] call and raises,
    whatever the batch: [AttributeError] when the optimizer has not been
    built, otherwise [ZeroDivisionError] when the agent has a single atom
    and [UnboundLocalError] when it has not. *)
Theorem X8_cat_uniform_iteration_raises :
  forall (itr : Z) (samples : option Samples) (sampler_itr : option Z)
         (st : State),
    kind cfg = CategoricalDQN ->
    prioritized_replay cfg = false ->
    (0 <= effective_itr itr sampler_itr)%Z ->
    (min_itr_learn sched <= effective_itr itr sampler_itr)%Z ->
    (1 <= updates_per_optimize sched)%Z ->
    exists e st' batch,
      optimize_agent cfg sched itr samples sampler_itr st = (Raise e, st') /\
      e = (if negb (optimizer sched) then AttributeError
           else if (n_atoms (agent st) =? 1)%Z
                then ZeroDivisionError else UnboundLocalError) /\
      calls st' =
        calls st ++ append_calls (effective_itr itr sampler_itr) samples
          ++ [CallSampleBatch (batch_size cfg) batch].
Proof.
  intros itr samples sampler_itr st Hk Hp H0 Hge Hn.
  rewrite optimize_agent_unfold. cbv zeta.
  set (itr' := effective_itr itr sampler_itr) in *.
  destruct (add_samples_ok itr' samples st H0)
    as [s1 [-> [Hc1 [Ha1 [Hl1 _]]]]].
  destruct (Z.ltb_spec itr' (min_itr_learn sched)); [lia|].
  destruct (Z.to_nat (updates_per_optimize sched)) as [|n] eqn:Hupo; [lia|].
  change (for_range (S n) (optimize_step cfg sched) get_empty_optim_info s1)
    with (match optimize_step cfg sched get_empty_optim_info s1 with
          | (Ok a, s') => for_range n (optimize_step cfg sched) a s'
          | (Raise e, s') => (Raise e, s')
          end).
  destruct (optimizer sched) eqn:Ho; cbn [negb].
  - destruct (optimize_step_loss_raises
                (fun e => e = if (n_atoms (agent st) =? 1)%Z
                              then ZeroDivisionError else UnboundLocalError)
                get_empty_optim_info s1 Ho) as [e [st' [-> [He Hc]]]].
    { intros batch. unfold loss. rewrite Hk, cat_loss_uniform by assumption.
      rewrite Ha1.
      destruct (Z.eqb_spec (n_atoms (agent st) - 1) 0) as [H1|H1];
        destruct (Z.eqb_spec (n_atoms (agent st)) 1) as [H2|H2]; try lia;
        eexists; split; reflexivity. }
    exists e, st'. eexists. split; [reflexivity|]. split; [exact He|].
    rewrite Hc, Hl1, <- app_assoc. reflexivity.
  - destruct (optimize_step_no_optimizer get_empty_optim_info s1 Ho)
      as [st' [-> [_ [_ Hl]]]].
    exists AttributeError, st'. eexists. split; [reflexivity|].
    split; [reflexivity|].
    rewrite Hl, Hl1, <- app_assoc. reflexivity.
Qed.

End RaisingFacts.

Lemma X6_witness :
  is_ok (fst (optimize_agent Scripted.pri_config Scripted.pri_sched 2
                (Some Scripted.some_samples) None Scripted.state0)) = true.
Proof.
  apply (proj1 (proj2
           (X6_dqn_iteration_returns Scripted.pri_config Scripted.pri_sched 2
              (Some Scripted.some_samples) None Scripted.state0))).
  - reflexivity.
  - reflexivity.
  - reflexivity.
  - discriminate.
  - intros _. exists 10%Z. split; [reflexivity | discriminate].
  - simpl. lia.
Defined.

Lemma X7_witness :
  cat_loss Scenarios.cat_plain_config Scripted.sched0 Scripted.some_agent
    (Scripted.of_raw Scripted.cat_batch) = Raise UnboundLocalError.
Proof.
  apply (proj2 (proj1 (proj2
           (@X7_cat_loss_raises Scripted.carriers Scripted.externals
              Scenarios.cat_plain_config Scripted.sched0
              Scripted.some_agent (Scripted.of_raw Scripted.cat_batch))))).
  split; [discriminate | reflexivity].
Defined.

Lemma X8_witness :
  exists e st' batch,
    optimize_agent Scenarios.cat_plain_config Scripted.sched0 2
      (Some Scripted.some_samples) None Scripted.state0 = (Raise e, st') /\
    e = UnboundLocalError /\
    calls st' =
      [CallAppendSamples (samples_to_buffer Scripted.some_samples);
       CallSampleBatch 32 batch].
Proof.
  destruct (X8_cat_uniform_iteration_raises Scenarios.cat_plain_config
              Scripted.sched0 2 (Some Scripted.some_samples) None
              Scripted.state0 eq_refl eq_refl
              ltac:(simpl; lia) ltac:(simpl; lia) ltac:(simpl; lia))
    as [e [st' [batch [H1 [H2 H3]]]]].
  exists e, st', batch. split; [exact H1|]. split; [exact H2 | exact H3].
Defined.

(** ** The Huber loss of DQN *)

Lemma t_sum_nonneg (t : tensor) : Forall (fun x => 0 <= x) t -> 0 <= t_sum t.
Proof.
  induction 1 as [|x t Hx _ IH]; simpl; [discriminate|].
  change 0 with (0 + 0). apply Qplus_le_compat; assumption.
Qed.

Lemma t_sum_le (t t' : tensor) : Forall2 Qle t t' -> t_sum t <= t_sum t'.
Proof.
  induction 1 as [|x y t t' Hxy _ IH]; simpl; [apply Qle_refl|].
  apply Qplus_le_compat; assumption.
Qed.

Lemma t_sum_eq (t t' : tensor) : Forall2 Qeq t t' -> t_sum t == t_sum t'.
Proof.
  induction 1 as [|x y t t' Hxy _ IH]; simpl; [reflexivity|].
  rewrite Hxy, IH. reflexivity.
Qed.

Lemma inv_length_nonneg {A} (l : list A) :
  0 <= / inject_Z (Z.of_nat (List.length l)).
Proof.
  apply Qinv_le_0_compat. change 0 with (inject_Z 0). rewrite <- Zle_Qle. lia.
Qed.

Lemma t_mean_nonneg (t : tensor) : Forall (fun x => 0 <= x) t -> 0 <= t_mean t.
Proof.
  intros H. unfold t_mean, Qdiv.
  apply Qmult_le_0_compat; [apply t_sum_nonneg; exact H | apply inv_length_nonneg].
Qed.

Lemma t_mean_le (t t' : tensor) : Forall2 Qle t t' -> t_mean t <= t_mean t'.
Proof.
  intros H. unfold t_mean, Qdiv.
  rewrite (Forall2_length H).
  apply Qmult_le_compat_r; [apply t_sum_le; exact H | apply inv_length_nonneg].
Qed.

Lemma t_mean_eq (t t' : tensor) : Forall2 Qeq t t' -> t_mean t == t_mean t'.
Proof.
  intros H. unfold t_mean, Qdiv.
  rewrite (Forall2_length H), (t_sum_eq t t' H). reflexivity.
Qed.

(** Pointwise facts carried through [map] and the weighting. *)
Lemma Forall2_map_same {A} (R : Q -> Q -> Prop) (f g : A -> Q) (l : list A) :
  (forall a, In a l -> R (f a) (g a)) -> Forall2 R (map f l) (map g l).
Proof.
  induction l as [|a l IH]; intros H; simpl; constructor.
  - apply H. left. reflexivity.
  - apply IH. intros b Hb. apply H. right. exact Hb.
Qed.

Lemma Forall2_weighted_le (t t' w : tensor) :
  Forall2 Qle t t' -> Forall (fun x => 0 <= x) w ->
  Forall2 Qle (t_mul t w) (t_mul t' w).
Proof.
  intros H. revert w. induction H as [|x y t t' Hxy _ IH]; intros w Hw.
  - constructor.
  - destruct w as [|wi w]; simpl; constructor.
    + inversion Hw; subst. apply Qmult_le_compat_r; assumption.
    + apply IH. inversion Hw; assumption.
Qed.

Lemma Forall2_weighted_eq (t t' w : tensor) :
  Forall2 Qeq t t' -> Forall2 Qeq (t_mul t w) (t_mul t' w).
Proof.
  intros H. revert w. induction H as [|x y t t' Hxy _ IH]; intros w.
  - constructor.
  - destruct w as [|wi w]; simpl; constructor.
    + rewrite Hxy. reflexivity.
    + apply IH.
Qed.

Lemma Forall_weighted_nonneg (t w : tensor) :
  Forall (fun x => 0 <= x) t -> Forall (fun x => 0 <= x) w ->
  Forall (fun x => 0 <= x) (t_mul t w).
Proof.
  intros H. revert w. induction H as [|x t Hx _ IH]; intros w Hw.
  - constructor.
  - destruct w as [|wi w]; simpl; constructor.
    + inversion Hw; subst. apply Qmult_le_0_compat; assumption.
    + apply IH. inversion Hw; assumption.
Qed.

(** The three facts about the loss of one sample. *)
Lemma square_nonneg (x : Q) : 0 <= x * x.
Proof.
  destruct (Qlt_le_dec x 0) as [H|H].
  - setoid_replace (x * x) with ((- x) * (- x)) by ring.
    apply Qmult_le_0_compat; lra.
  - apply Qmult_le_0_compat; assumption.
Qed.

Lemma sq_half_nonneg (d : Q) : 0 <= (1 # 2) * d ^ 2.
Proof.
  change (d ^ 2) with (d * d).
  apply Qmult_le_0_compat; [discriminate | apply square_nonneg].
Qed.

Lemma sample_loss_nonneg (dc : option Q) (d : Q) :
  match dc with Some c => 0 <= c | None => True end ->
  0 <= sample_loss dc d.
Proof.
  unfold sample_loss. destruct dc as [c|]; intros Hc; [|apply sq_half_nonneg].
  simpl in Hc.
  destruct (Qle_bool (Qabs d) c) eqn:Hle; [apply sq_half_nonneg|].
  assert (Hgt : c < Qabs d).
  { apply Qnot_le_lt. intros H. apply Qle_bool_iff in H. congruence. }
  apply Qmult_le_0_compat; [exact Hc|].
  setoid_replace (c / 2) with (c * (1 # 2)) by field. lra.
Qed.

Lemma sample_loss_le_square (dc : option Q) (d : Q) :
  sample_loss dc d <= (1 # 2) * d ^ 2.
Proof.
  unfold sample_loss. destruct dc as [c|]; [|apply Qle_refl].
  destruct (Qle_bool (Qabs d) c); [apply Qle_refl|].
  assert (Hsq : d ^ 2 == Qabs d * Qabs d).
  { change (d ^ 2) with (d * d). rewrite <- Qabs_Qmult.
    symmetry. apply Qabs_pos. apply square_nonneg. }
  rewrite Hsq. set (a := Qabs d).
  pose proof (square_nonneg (a - c)) as Hdiff.
  setoid_replace (c * (a - c / 2))
    with ((1 # 2) * (a * a) - (1 # 2) * ((a - c) * (a - c))) by field.
  lra.
Qed.

Lemma sample_loss_inside (c d : Q) :
  Qabs d <= c -> sample_loss (Some c) d = (1 # 2) * d ^ 2.
Proof.
  intros H. unfold sample_loss. apply Qle_bool_iff in H. rewrite H. reflexivity.
Qed.

Section HuberFacts.
Variable sched : Sched.

(** The loss value of [DQN._get_loss_values] in terms of [sample_loss]. *)
Lemma dqn_loss_value (cfg : Config)
    (q : tensor) (done_ : list bool) (w target : tensor) (l : Q) (errors : tensor) :
  dqn_get_loss_values cfg sched q done_ w target = Ok (l, errors) ->
  l = t_mean (if prioritized_replay cfg
              then t_mul (map (sample_loss (delta_clip cfg)) (t_sub target q)) w
              else map (sample_loss (delta_clip cfg)) (t_sub target q)).
Proof.
  unfold dqn_get_loss_values. cbv zeta.
  destruct (mid_batch_reset sched); cbn [negb]; [|discriminate].
  intros H. injection H as Hl _. subst l.
  assert (Hlosses :
            match delta_clip cfg with
            | Some dc =>
                t_where (map (fun a => Qle_bool a dc) (t_abs (t_sub target q)))
                  (map (fun d => (1 # 2) * d ^ 2) (t_sub target q))
                  (map (fun a => dc * (a - dc / 2)) (t_abs (t_sub target q)))
            | None => map (fun d => (1 # 2) * d ^ 2) (t_sub target q)
            end = map (sample_loss (delta_clip cfg)) (t_sub target q)).
  { destruct (delta_clip cfg) as [dc|]; [|reflexivity].
    unfold t_abs. induction (t_sub target q) as [|d t IH]; [reflexivity|].
    cbn [map t_where]. rewrite IH. reflexivity. }
  destruct (prioritized_replay cfg); f_equal; [f_equal|]; exact Hlosses.
Qed.

(** X9. The loss that [DQN._get_loss_values] returns on a batch that is
    not empty ([q], [target] and, with prioritized replay, the weights
    having one entry per sample) is never negative, for the squared error
    and for the Huber loss with a [delta_clip >= 0], provided the
    importance weights of a prioritized batch are not negative. *)
Theorem X9_dqn_loss_nonnegative :
  forall (cfg : Config) (q : tensor) (done_ : list bool) (w target : tensor)
         (l : Q) (errors : tensor),
    dqn_get_loss_values cfg sched q done_ w target = Ok (l, errors) ->
    q <> [] ->
    List.length target = List.length q ->
    match delta_clip cfg with Some c => 0 <= c | None => True end ->
    (prioritized_replay cfg = true ->
     List.length w = List.length q /\ Forall (fun x => 0 <= x) w) ->
    0 <= l.
Proof.
  intros cfg q done_ w target l errors H _ _ Hc Hw.
  rewrite (dqn_loss_value cfg q done_ w target l errors H).
  assert (Hs : Forall (fun x => 0 <= x)
                 (map (sample_loss (delta_clip cfg)) (t_sub target q))).
  { apply Forall_forall. intros x Hx. apply in_map_iff in Hx.
    destruct Hx as [d [<- _]]. apply sample_loss_nonneg. exact Hc. }
  apply t_mean_nonneg.
  destruct (prioritized_replay cfg); [|exact Hs].
  apply Forall_weighted_nonneg; [exact Hs | apply Hw; reflexivity].
Qed.

(** X10. On the same batch, not empty and with one entry per sample in
    each tensor, the Huber loss of [DQN._get_loss_values] is at most the
    squared-error loss that [delta_clip = None] selects (the importance
    weights of a prioritized batch being not negative), and the two are
    equal when every TD error is within [delta_clip]. *)
Theorem X10_huber_at_most_squared_error :
  forall (cfg cfg' : Config) (q : tensor) (done_ : list bool) (w target : tensor)
         (l l' : Q) (errors errors' : tensor),
    prioritized_replay cfg' = prioritized_replay cfg ->
    delta_clip cfg' = None ->
    dqn_get_loss_values cfg sched q done_ w target = Ok (l, errors) ->
    dqn_get_loss_values cfg' sched q done_ w target = Ok (l', errors') ->
    q <> [] ->
    List.length target = List.length q ->
    (prioritized_replay cfg = true ->
     List.length w = List.length q /\ Forall (fun x => 0 <= x) w) ->
    l <= l' /\
    (forall c, delta_clip cfg = Some c ->
               Forall (fun d => Qabs d <= c) (t_sub target q) -> l == l').
Proof.
  intros cfg cfg' q done_ w target l l' errors errors' Hp Hn H H' _ _ Hw.
  rewrite (dqn_loss_value cfg q done_ w target l errors H).
  pose proof (dqn_loss_value cfg' q done_ w target l' errors' H') as Hl'.
  rewrite Hp, Hn in Hl'. rewrite Hl'. clear Hl'.
  split.
  - apply t_mean_le.
    assert (Hs : Forall2 Qle
                   (map (sample_loss (delta_clip cfg)) (t_sub target q))
                   (map (sample_loss None) (t_sub target q))).
    { apply Forall2_map_same. intros d _. apply sample_loss_le_square. }
    destruct (prioritized_replay cfg); [|exact Hs].
    apply Forall2_weighted_le; [exact Hs | apply Hw; reflexivity].
  - intros c Hc Hin. apply t_mean_eq. rewrite Hc.
    assert (Hs : Forall2 Qeq
                   (map (sample_loss (Some c)) (t_sub target q))
                   (map (sample_loss None) (t_sub target q))).
    { apply Forall2_map_same. intros d Hd. rewrite Forall_forall in Hin.
      rewrite (sample_loss_inside c d (Hin d Hd)). reflexivity. }
    destruct (prioritized_replay cfg); [|exact Hs].
    apply Forall2_weighted_eq. exact Hs.
Qed.

End HuberFacts.

Lemma X9_witness :
  exists l errors,
    dqn_get_loss_values Scripted.dqn_config Scripted.sched0 Scenarios.two_q
      [false; false] [] Scenarios.two_targets = Ok (l, errors) /\
    0 <= l.
Proof.
  eexists. eexists. split; [vm_compute; reflexivity|].
  eapply (X9_dqn_loss_nonnegative Scripted.sched0 Scripted.dqn_config
            Scenarios.two_q [false; false] [] Scenarios.two_targets).
  - vm_compute. reflexivity.
  - discriminate.
  - reflexivity.
  - simpl. discriminate.
  - intros H. discriminate H.
Defined.

Lemma X10_witness :
  exists l l' errors errors',
    dqn_get_loss_values Scripted.dqn_config Scripted.sched0 Scenarios.two_q
      [false; false] [] Scenarios.two_targets = Ok (l, errors) /\
    dqn_get_loss_values Scenarios.squared_config Scripted.sched0 Scenarios.two_q
      [false; false] [] Scenarios.two_targets = Ok (l', errors') /\
    l <= l'.
Proof.
  eexists. eexists. eexists. eexists.
  split; [vm_compute; reflexivity|]. split; [vm_compute; reflexivity|].
  refine (proj1 (X10_huber_at_most_squared_error Scripted.sched0
                   Scripted.dqn_config Scenarios.squared_config
                   Scenarios.two_q [false; false] [] Scenarios.two_targets
                   _ _ _ _ eq_refl eq_refl _ _ _ _ _)).
  - vm_compute. reflexivity.
  - vm_compute. reflexivity.
  - discriminate.
  - reflexivity.
  - intros H. discriminate H.
Defined.

(** ** A zero target update interval *)

Section ZeroInterval.
Context {C : Carriers} {E : Externals}.
Variable cfg : Config.
Variable sched : Sched.

(** With [target_update_interval = 0] a pass of the loop raises at the
    modulo, after the gradient step and the report of the errors. *)
Lemma optimize_step_zero_interval (oi : OptInfo) (st : State) :
  optimizer sched = true ->
  target_update_interval cfg = 0%Z ->
  (forall batch, is_ok (loss cfg sched (agent st) batch) = true) ->
  exists st' batch l errors,
    optimize_step cfg sched oi st = (Raise ZeroDivisionError, st') /\
    loss cfg sched (agent st) batch = Ok (l, errors) /\
    update_counter st' = (update_counter st + 1)%Z /\
    agent st' = fst (gradient_step (clip_grad_norm cfg) batch (agent st)) /\
    calls st' =
      calls st ++ CallSampleBatch (batch_size cfg) batch
        :: (if prioritized_replay cfg
            then [CallUpdateBatchPriorities errors] else []).
Proof.
  intros Ho Ht Hl.
  unfold optimize_step, call_sample_batch, apply_optimization, bind, get_state,
    set_buffer, log, lift, ret, set_agent, call_update_batch_priorities,
    call_update_target, set_update_counter.
  simpl.
  destruct (sample_batch (batch_size cfg) (replay_buffer st)) as [batch buf].
  simpl. rewrite Ho. simpl. specialize (Hl batch).
  destruct (loss cfg sched (agent st) batch) as [[l e]|ex] eqn:Hloss;
    [|discriminate].
  destruct (gradient_step (clip_grad_norm cfg) batch (agent st)) as [ag gn]
    eqn:Hg.
  simpl. rewrite Ht.
  destruct (prioritized_replay cfg); simpl;
    eexists; exists batch, l, e;
    (split; [reflexivity|]); (split; [exact Hloss|]);
    rewrite Hg; simpl; rewrite <- ?app_assoc; repeat split; reflexivity.
Qed.

(** X11. With [target_update_interval = 0] the first learning iteration of
    DQN ([mid_batch_reset] true, the optimizer built, at least one update
    per iteration), called with or without samples to append, raises
    [ZeroDivisionError] at the modulo of the first pass, that is after the
    given samples were appended, one batch was sampled, one gradient step
    was taken on it, its errors were reported to a prioritized buffer and
    the update counter was incremented; no target update and no further
    pass follow. *)
Theorem X11_zero_interval_raises :
  forall (itr : Z) (samples : option Samples) (sampler_itr : option Z)
         (st : State),
    kind cfg = DQN ->
    mid_batch_reset sched = true ->
    optimizer sched = true ->
    target_update_interval cfg = 0%Z ->
    (0 <= effective_itr itr sampler_itr)%Z ->
    (min_itr_learn sched <= effective_itr itr sampler_itr)%Z ->
    (1 <= updates_per_optimize sched)%Z ->
    exists st' batch l errors,
      optimize_agent cfg sched itr samples sampler_itr st =
        (Raise ZeroDivisionError, st') /\
      loss cfg sched (agent st) batch = Ok (l, errors) /\
      update_counter st' = (update_counter st + 1)%Z /\
      agent st' = fst (gradient_step (clip_grad_norm cfg) batch (agent st)) /\
      calls st' =
        calls st ++ append_calls (effective_itr itr sampler_itr) samples
          ++ CallSampleBatch (batch_size cfg) batch
          :: (if prioritized_replay cfg
              then [CallUpdateBatchPriorities errors] else []).
Proof.
  intros itr samples sampler_itr st Hk Hm Ho Ht H0 Hge Hn.
  rewrite optimize_agent_unfold. cbv zeta.
  set (itr' := effective_itr itr sampler_itr) in *.
  destruct (add_samples_ok itr' samples st H0)
    as [s1 [-> [Hc1 [Ha1 [Hl1 _]]]]].
  destruct (Z.ltb_spec itr' (min_itr_learn sched)); [lia|].
  destruct (Z.to_nat (updates_per_optimize sched)) as [|n] eqn:Hupo; [lia|].
  change (for_range (S n) (optimize_step cfg sched) get_empty_optim_info s1)
    with (match optimize_step cfg sched get_empty_optim_info s1 with
          | (Ok a, s') => for_range n (optimize_step cfg sched) a s'
          | (Raise e, s') => (Raise e, s')
          end).
  destruct (optimize_step_zero_interval get_empty_optim_info s1 Ho Ht)
    as [st' [batch [l [errors [-> [Hloss [Hc [Ha Hl]]]]]]]].
  { intros batch. apply dqn_loss_total; assumption. }
  exists st', batch, l, errors. split; [reflexivity|].
  rewrite Ha1 in Hloss, Ha. rewrite Hc1 in Hc. rewrite Hl1 in Hl.
  split; [exact Hloss|]. split; [exact Hc|]. split; [exact Ha|].
  rewrite Hl, <- app_assoc. reflexivity.
Qed.

End ZeroInterval.

Lemma X11_witness :
  exists st' batch l errors,
    optimize_agent Scenarios.zero_interval_config Scripted.sched0 2
      (Some Scripted.some_samples) None
      (Scripted.load [Scripted.exact_batch] Scripted.state0) =
      (Raise ZeroDivisionError, st') /\
    loss Scenarios.zero_interval_config Scripted.sched0 Scripted.some_agent
      batch = Ok (l, errors) /\
    update_counter st' = 1%Z.
Proof.
  destruct (X11_zero_interval_raises Scenarios.zero_interval_config
              Scripted.sched0 2 (Some Scripted.some_samples) None
              (Scripted.load [Scripted.exact_batch] Scripted.state0)
              eq_refl eq_refl eq_refl eq_refl
              ltac:(simpl; lia) ltac:(simpl; lia) ltac:(simpl; lia))
    as [st' [batch [l [errors [H1 [H2 [H3 _]]]]]]].
  exists st', batch, l, errors. split; [exact H1|]. split; [exact H2|exact H3].
Defined.

(** ** The annealing schedule over the iterations *)

Section AnnealingFacts.
Context {C : Carriers} {E : Externals}.
Variable cfg : Config.
Variable sched : Sched.

(** A [set_beta] call at the end of the log of [update_itr_hyperparams]
    carries the value of the annealing branch. *)
Lemma set_beta_call_inv (itr : Z) (st : State) (b : Q) :
  calls (snd (update_itr_hyperparams cfg sched itr st)) =
    calls st ++ [CallSetBeta b] ->
  beta_set_by cfg sched itr b.
Proof.
  intros H.
  destruct (update_itr_hyperparams_log cfg sched itr st)
    as [post [Hpost Hcase]].
  rewrite Hpost in H. apply app_inv_head in H.
  destruct Hcase as [-> | [b' [-> Hb']]]; [discriminate|].
  injection H as <-. exact Hb'.
Qed.

Lemma beta_prog_monotone (pbi itr1 itr2 : Z) (p1 p2 : Q) :
  (itr1 <= itr2)%Z -> (itr2 <= pbi)%Z ->
  beta_prog sched pbi itr1 = Ok p1 -> beta_prog sched pbi itr2 = Ok p2 ->
  p1 <= p2.
Proof.
  intros H12 H2 Hp1 Hp2.
  destruct (Z.eq_dec pbi (min_itr_learn sched)) as [Heq|Hne].
  - unfold beta_prog in Hp1.
    replace (pbi - min_itr_learn sched)%Z with 0%Z in Hp1 by lia.
    discriminate.
  - rewrite beta_prog_eq in Hp1, Hp2 by assumption.
    injection Hp1 as <-. injection Hp2 as <-.
    destruct (Z.lt_trichotomy (min_itr_learn sched) pbi) as [Hlt|[Heq|Hgt]];
      [| congruence |].
    + apply Q.min_le_compat_l. unfold Qdiv.
      apply Qmult_le_compat_r.
      * rewrite <- Zle_Qle. lia.
      * apply Qinv_le_0_compat. apply Qlt_le_weak. apply inject_Z_pos. lia.
    + replace (Z.max 0 (itr1 - min_itr_learn sched)) with 0%Z by lia.
      replace (Z.max 0 (itr2 - min_itr_learn sched)) with 0%Z by lia.
      apply Qle_refl.
Qed.

Lemma beta_prog_before (pbi itr : Z) (p : Q) :
  (itr <= min_itr_learn sched)%Z -> beta_prog sched pbi itr = Ok p -> p == 0.
Proof.
  intros Hle Hp.
  destruct (Z.eq_dec pbi (min_itr_learn sched)) as [Heq|Hne].
  - unfold beta_prog in Hp.
    replace (pbi - min_itr_learn sched)%Z with 0%Z in Hp by lia.
    discriminate.
  - rewrite beta_prog_eq in Hp by assumption. injection Hp as <-.
    replace (Z.max 0 (itr - min_itr_learn sched)) with 0%Z by lia.
    assert (H0 : inject_Z 0 / inject_Z (pbi - min_itr_learn sched) == 0).
    { unfold Qdiv. change (inject_Z 0) with 0. ring. }
    rewrite Q.min_r; [exact H0 | rewrite H0; discriminate].
Qed.

(** X12. The values that [update_itr_hyperparams] gives to [set_beta] are
    monotone in the iteration: of two calls at [itr1 <= itr2], the later
    value is the closer one to [pri_beta_final]; and up to [min_itr_learn]
    the value is [pri_beta_init]. *)
Theorem X12_beta_schedule_monotone :
  forall (itr1 itr2 : Z) (st1 st2 : State) (b1 b2 : Q),
    (itr1 <= itr2)%Z ->
    calls (snd (update_itr_hyperparams cfg sched itr1 st1)) =
      calls st1 ++ [CallSetBeta b1] ->
    calls (snd (update_itr_hyperparams cfg sched itr2 st2)) =
      calls st2 ++ [CallSetBeta b2] ->
    (pri_beta_init cfg <= pri_beta_final cfg -> b1 <= b2) /\
    (pri_beta_final cfg <= pri_beta_init cfg -> b2 <= b1) /\
    ((itr1 <= min_itr_learn sched)%Z -> b1 == pri_beta_init cfg).
Proof.
  intros itr1 itr2 st1 st2 b1 b2 H12 H1 H2.
  apply set_beta_call_inv in H1. apply set_beta_call_inv in H2.
  destruct H1 as [pbi1 [p1 [_ [Hb1 [Hle1 [Hp1 ->]]]]]].
  destruct H2 as [pbi2 [p2 [_ [Hb2 [Hle2 [Hp2 ->]]]]]].
  rewrite Hb1 in Hb2. injection Hb2 as <-.
  pose proof (beta_prog_monotone pbi1 itr1 itr2 p1 p2 H12 Hle2 Hp1 Hp2) as Hp.
  unfold new_beta.
  set (a := pri_beta_init cfg). set (b := pri_beta_final cfg).
  split; [|split].
  - intros Hab.
    assert (0 <= (p2 - p1) * (b - a)) by (apply Qmult_le_0_compat; lra).
    lra.
  - intros Hba.
    assert (0 <= (p2 - p1) * (a - b)) by (apply Qmult_le_0_compat; lra).
    lra.
  - intros Hbefore.
    rewrite (beta_prog_before pbi1 itr1 p1 Hbefore Hp1). ring.
Qed.

End AnnealingFacts.

Lemma X12_witness :
  exists b1 b2,
    calls (snd (update_itr_hyperparams Scripted.pri_config Scripted.pri_sched 3
                  Scripted.state0)) = [CallSetBeta b1] /\
    calls (snd (update_itr_hyperparams Scripted.pri_config Scripted.pri_sched 5
                  Scripted.state0)) = [CallSetBeta b2] /\
    b1 <= b2.
Proof.
  eexists. eexists.
  split; [vm_compute; reflexivity|]. split; [vm_compute; reflexivity|].
  refine (proj1 (X12_beta_schedule_monotone Scripted.pri_config
                   Scripted.pri_sched 3 5 Scripted.state0 Scripted.state0
                   _ _ _ _ _) _).
  - lia.
  - vm_compute. reflexivity.
  - vm_compute. reflexivity.
  - vm_compute. discriminate.
Defined.

(** ** What the loss reads of a batch *)

Section LossInputs.
Context {C : Carriers} {E : Externals}.
Variable cfg : Config.
Variable sched : Sched.

(** X13. [DQN.loss] and, with [mid_batch_reset] true, [CategoricalDQN.loss]
    never read the [done] flags of the batch; without prioritized replay
    [DQN.loss] does not read the importance weights; and with them, the
    weights change the loss value only: the errors returned for the
    priorities are those of the same batch under any other weights. *)
Theorem X13_loss_inputs :
  forall (ag : Agent) (s : SamplesFromReplay) (d : list bool) (w : tensor),
    (kind cfg = DQN \/ mid_batch_reset sched = true ->
     loss cfg sched ag (with_done d s) = loss cfg sched ag s) /\
    (kind cfg = DQN -> prioritized_replay cfg = false ->
     loss cfg sched ag (with_is_weights w s) = loss cfg sched ag s) /\
    (forall l errors,
       List.length w = List.length (is_weights s) ->
       loss cfg sched ag s = Ok (l, errors) ->
       exists l', loss cfg sched ag (with_is_weights w s) = Ok (l', errors)).
Proof.
  intros ag s d w. split; [|split].
  - intros H. unfold loss, dqn_loss, cat_loss, dqn_get_loss_values,
      cat_get_loss_values, rbind.
    cbv zeta. simpl.
    destruct (kind cfg) eqn:Hk.
    + destruct (mid_batch_reset sched); reflexivity.
    + destruct H as [H|H]; [discriminate|]. rewrite H. reflexivity.
  - intros Hk Hp. unfold loss, dqn_loss. rewrite Hk. cbv zeta.
    rewrite Hp. reflexivity.
  - intros l errors _. unfold loss, dqn_loss, cat_loss, dqn_get_loss_values,
      cat_get_loss_values, rbind.
    cbv zeta. simpl.
    destruct (kind cfg).
    + destruct (mid_batch_reset sched); simpl; [|discriminate].
      intros H. injection H as _ He. eexists. rewrite He. reflexivity.
    + destruct (py_fdiv _ _); [|discriminate].
      destruct (prioritized_replay cfg); [|discriminate].
      destruct (mid_batch_reset sched); simpl;
        intros H; injection H as _ He; eexists; rewrite He; reflexivity.
Qed.

End LossInputs.

Lemma X13_witness :
  exists l errors,
    loss Scripted.pri_config Scripted.sched0 Scripted.some_agent
      (Scripted.of_raw Scenarios.off_batch) = Ok (l, errors) /\
    exists l',
      loss Scripted.pri_config Scripted.sched0 Scripted.some_agent
        (with_is_weights [5] (Scripted.of_raw Scenarios.off_batch)) =
        Ok (l', errors).
Proof.
  eexists. eexists. split; [vm_compute; reflexivity|].
  eapply (proj2 (proj2 (@X13_loss_inputs Scripted.carriers Scripted.externals
                          Scripted.pri_config Scripted.sched0
                          Scripted.some_agent
                          (Scripted.of_raw Scenarios.off_batch) [] [5]))).
  - reflexivity.
  - vm_compute. reflexivity.
Defined.

(** ** The errors kept in the optimization info *)

(** [t[::8]] keeps the entries 0, 8, 16, ... *)
Lemma every_from_8 {A} (l : list A) :
  forall s, (s <= 7)%nat ->
    List.length (every_from 8 s l) = ((List.length l + 7 - s) / 8)%nat /\
    forall i d, nth i (every_from 8 s l) d = nth (s + 8 * i) l d.
Proof.
  induction l as [|x t IH]; intros s Hs.
  - change (every_from 8 s (@nil A)) with (@nil A). split.
    + cbn [List.length]. symmetry. apply Nat.div_small. lia.
    + intros i d. destruct i; destruct (s + _)%nat; reflexivity.
  - destruct s as [|s'].
    + change (every_from 8 0 (x :: t)) with (x :: every_from 8 7 t).
      destruct (IH 7%nat ltac:(lia)) as [Hlen Hnth]. split.
      * cbn [List.length]. rewrite Hlen.
        replace (S (List.length t) + 7 - 0)%nat
          with (List.length t + 1 * 8)%nat by lia.
        rewrite Nat.div_add by lia.
        replace (List.length t + 7 - 7)%nat with (List.length t) by lia. lia.
      * intros i d. destruct i as [|i]; [reflexivity|].
        replace (0 + 8 * S i)%nat with (S (7 + 8 * i)) by lia.
        cbn [nth]. apply Hnth.
    + change (every_from 8 (S s') (x :: t)) with (every_from 8 s' t).
      destruct (IH s' ltac:(lia)) as [Hlen Hnth]. split.
      * rewrite Hlen. reflexivity.
      * intros i d. rewrite Hnth.
        change (S s' + 8 * i)%nat with (S (s' + 8 * i)). reflexivity.
Qed.

Section OptimInfo.
Context {C : Carriers} {E : Externals}.
Variable cfg : Config.
Variable sched : Sched.

(** X14. An update that returns appends to the optimization info the loss
    value, the gradient norm and every eighth error of the batch starting
    with the first: a batch of [B] errors adds [ceil(B / 8)] entries to
    [tdAbsErr], the entry [i] being the error [8 * i], and nothing recorded
    before is changed. *)
Theorem X14_optim_info_growth :
  forall (batch : SamplesFromReplay) (oi oi' : OptInfo) (st st' : State),
    apply_optimization cfg sched batch oi st = (Ok oi', st') ->
    exists l errors,
      loss cfg sched (agent st) batch = Ok (l, errors) /\
      loss_ oi' = loss_ oi ++ [l] /\
      gradNorm oi' =
        gradNorm oi
          ++ [snd (gradient_step (clip_grad_norm cfg) batch (agent st))] /\
      exists kept,
        tdAbsErr oi' = tdAbsErr oi ++ kept /\
        List.length kept = ((List.length errors + 7) / 8)%nat /\
        forall i, nth i kept 0 = nth (8 * i) errors 0.
Proof.
  intros batch oi oi' st st'.
  unfold apply_optimization, bind, get_state, lift, ret, raise, set_agent,
    call_update_batch_priorities, set_buffer, log.
  simpl.
  destruct (optimizer sched); simpl; [|discriminate].
  destruct (loss cfg sched (agent st) batch) as [[l errors]|e]; [|discriminate].
  destruct (gradient_step (clip_grad_norm cfg) batch (agent st)) as [ag gn].
  simpl.
  destruct (every_from_8 errors 0 ltac:(lia)) as [Hlen Hnth].
  destruct (prioritized_replay cfg); simpl;
    intros H; injection H as <- _;
    exists l, errors; simpl;
    (split; [reflexivity|]); (split; [reflexivity|]); (split; [reflexivity|]);
    exists (downsample8 errors); (split; [reflexivity|]);
    (split; [unfold downsample8; rewrite Hlen, Nat.sub_0_r; reflexivity|]);
    intros i; apply Hnth.
Qed.

End OptimInfo.

Lemma update_run_returns :
  apply_optimization Scripted.pri_config Scripted.sched0
    (Scripted.of_raw Scenarios.off_batch) get_empty_optim_info
    Scripted.state0 =
    (Ok (Scenarios.info_of Scenarios.update_run), snd Scenarios.update_run).
Proof. vm_compute. reflexivity. Qed.

Lemma X14_witness :
  exists kept,
    tdAbsErr (Scenarios.info_of Scenarios.update_run) =
      tdAbsErr get_empty_optim_info ++ kept /\
    List.length kept = 1%nat.
Proof.
  destruct (@X14_optim_info_growth Scripted.carriers Scripted.externals
              Scripted.pri_config Scripted.sched0
              (Scripted.of_raw Scenarios.off_batch) get_empty_optim_info
              (Scenarios.info_of Scenarios.update_run) Scripted.state0
              (snd Scenarios.update_run) update_run_returns)
    as [l [errors [Hl [_ [_ [kept [Hk [Hlen _]]]]]]]].
  exists kept. split; [exact Hk|].
  rewrite Hlen.
  vm_compute in Hl. injection Hl as _ He. subst errors. reflexivity.
Defined.

(** ** The projection of CategoricalDQN *)

Lemma t_sum_app (a b : tensor) : t_sum (a ++ b) == t_sum a + t_sum b.
Proof.
  induction a as [|x a IH]; simpl; [ring|]. rewrite IH. ring.
Qed.

(** Adding the hat function of the atom [N] to the sum over the atoms
    below it. *)
Lemma hat_step (u N N' : Q) :
  N' == N + 1 ->
  Qmin 1 (Qmax 0 (N - u)) + clamp 0 1 (1 - Qabs (u - N))
  == Qmin 1 (Qmax 0 (N' - u)).
Proof.
  intros HN. unfold clamp.
  pose proof (Q.max_spec 0 (N - u)) as Ha. set (a := Qmax 0 (N - u)) in *.
  pose proof (Q.max_spec 0 (N' - u)) as Hb. set (b := Qmax 0 (N' - u)) in *.
  assert (Hv : (u - N < 0 /\ Qabs (u - N) == - (u - N)) \/
               (0 <= u - N /\ Qabs (u - N) == u - N)).
  { destruct (Qlt_le_dec (u - N) 0) as [Hlt|Hge]; [left|right]; split;
      try assumption.
    - apply Qabs_neg. apply Qlt_le_weak. exact Hlt.
    - apply Qabs_pos. exact Hge. }
  set (v := Qabs (u - N)) in *.
  pose proof (Q.max_spec (1 - v) 0) as Hc. set (c := Qmax (1 - v) 0) in *.
  pose proof (Q.min_spec 1 a) as Hd. set (d := Qmin 1 a) in *.
  pose proof (Q.min_spec c 1) as He. set (e := Qmin c 1) in *.
  pose proof (Q.min_spec 1 b) as Hf. set (f := Qmin 1 b) in *.
  clearbody a b v c d e f.
  destruct Ha as [[? ?]|[? ?]], Hb as [[? ?]|[? ?]], Hv as [[? ?]|[? ?]],
    Hc as [[? ?]|[? ?]], Hd as [[? ?]|[? ?]], He as [[? ?]|[? ?]],
    Hf as [[? ?]|[? ?]]; lra.
Qed.

(** On the integer grid the hat functions of the atoms [0 .. n-1] add up
    to [min(1, max(0, n - u))] at every [u >= 0]. *)
Lemma unit_hat_sum (u : Q) (n : nat) :
  0 <= u ->
  t_sum (map (fun i => clamp 0 1 (1 - Qabs (u - inject_Z (Z.of_nat i))))
             (seq 0 n))
  == Qmin 1 (Qmax 0 (inject_Z (Z.of_nat n) - u)).
Proof.
  intros Hu. induction n as [|n IH].
  - cbn [seq map t_sum fold_right Z.of_nat]. change (inject_Z 0) with 0.
    pose proof (Q.max_spec 0 (0 - u)) as Ha. set (a := Qmax 0 (0 - u)) in *.
    pose proof (Q.min_spec 1 a) as Hb. set (b := Qmin 1 a) in *.
    clearbody a b.
    destruct Ha as [[? ?]|[? ?]], Hb as [[? ?]|[? ?]]; lra.
  - rewrite seq_S, map_app, t_sum_app, IH.
    cbn [Nat.add map t_sum fold_right]. rewrite Qplus_0_r.
    apply hat_step.
    rewrite Nat2Z.inj_succ. unfold Z.succ. rewrite inject_Z_plus. reflexivity.
Qed.

(** The hat function of an atom of the support, on the integer grid. *)
Lemma hat_norm (lo d x i : Q) :
  0 < d ->
  clamp 0 1 (1 - Qabs (x - (lo + i * d)) / d)
  == clamp 0 1 (1 - Qabs ((x - lo) / d - i)).
Proof.
  intros Hd. apply clamp_compat.
  assert (Hne : ~ d == 0) by (intros H0; rewrite H0 in Hd; discriminate Hd).
  assert (Hx : x - (lo + i * d) == d * ((x - lo) / d - i)) by (field; exact Hne).
  rewrite Hx, Qabs_Qmult, (Qabs_pos d) by (apply Qlt_le_weak; exact Hd).
  field. exact Hne.
Qed.

(** On the support the projection coefficients of a value in
    [[V_min, V_max]] add up to one. *)
Lemma grid_hat_sum (lo hi : Q) (n : Z) (x : Q) :
  (2 <= n)%Z -> lo < hi -> lo <= x -> x <= hi ->
  t_sum (map (fun zi =>
                clamp 0 1 (1 - Qabs (x - zi) / ((hi - lo) / inject_Z (n - 1))))
             (linspace lo hi n)) == 1.
Proof.
  intros Hn Hlh Hlo Hhi. unfold linspace. rewrite map_map.
  set (d := (hi - lo) / inject_Z (n - 1)).
  assert (Hm : 0 < inject_Z (n - 1)) by (apply inject_Z_pos; lia).
  assert (Hd : 0 < d).
  { unfold d, Qdiv. apply Qmult_lt_0_compat; [lra|].
    apply Qinv_lt_0_compat. exact Hm. }
  assert (Hspan : inject_Z (n - 1) * d == hi - lo).
  { unfold d. field. intros H0. rewrite H0 in Hm. discriminate Hm. }
  rewrite (t_sum_eq _
             (map (fun i => clamp 0 1
                              (1 - Qabs ((x - lo) / d - inject_Z (Z.of_nat i))))
                  (seq 0 (Z.to_nat n)))).
  2:{ apply Forall2_map_same. intros i _. apply hat_norm. exact Hd. }
  assert (Hu0 : 0 <= (x - lo) / d).
  { apply Qle_shift_div_l; [exact Hd | lra]. }
  assert (Hu1 : (x - lo) / d <= inject_Z (n - 1)).
  { apply Qle_shift_div_r; [exact Hd | lra]. }
  rewrite (unit_hat_sum ((x - lo) / d) (Z.to_nat n) Hu0).
  rewrite Z2Nat.id by lia.
  assert (Hn1 : inject_Z n == inject_Z (n - 1) + 1).
  { replace n with (n - 1 + 1)%Z at 1 by lia. rewrite inject_Z_plus.
    reflexivity. }
  set (u := (x - lo) / d) in *.
  pose proof (Q.max_spec 0 (inject_Z n - u)) as Ha.
  set (a := Qmax 0 (inject_Z n - u)) in *.
  pose proof (Q.min_spec 1 a) as Hb. set (b := Qmin 1 a) in *.
  clearbody a b.
  destruct Ha as [[? ?]|[? ?]], Hb as [[? ?]|[? ?]]; lra.
Qed.

(** Exchanging the sum over the atoms of the support with the weighted sum
    over the atoms of [next_z]. *)
Lemma t_sum_weighted_zero (a : tensor) (row : list Q) :
  t_sum (t_mul a (map (fun _ => 0) row)) == 0.
Proof.
  revert row. induction a as [|x a IH]; intros [|r row]; simpl; try reflexivity.
  fold (t_mul a (map (fun _ : Q => 0) row)). rewrite IH. ring.
Qed.

Lemma t_sum_weighted_plus (f g : Q -> Q) (a : tensor) (row : list Q) :
  t_sum (t_mul a (map (fun x => f x + g x) row))
  == t_sum (t_mul a (map f row)) + t_sum (t_mul a (map g row)).
Proof.
  revert row. induction a as [|x a IH]; intros [|r row]; simpl; try ring.
  fold (t_mul a (map (fun x : Q => f x + g x) row)).
  fold (t_mul a (map f row)). fold (t_mul a (map g row)).
  rewrite IH. ring.
Qed.

Lemma sum_exchange (f : Q -> Q -> Q) (z a : tensor) (row : list Q) :
  t_sum (map (fun zi => t_sum (t_mul a (map (f zi) row))) z)
  == t_sum (t_mul a (map (fun nz => t_sum (map (fun zi => f zi nz) z)) row)).
Proof.
  induction z as [|zi z IH].
  - cbn [map t_sum fold_right]. symmetry. apply t_sum_weighted_zero.
  - cbn [map t_sum fold_right]. fold (t_sum (map (fun zi => t_sum (t_mul a (map (f zi) row))) z)).
    rewrite IH. symmetry.
    apply (t_sum_weighted_plus (f zi)
             (fun nz => fold_right Qplus 0 (map (fun zi0 => f zi0 nz) z))).
Qed.

Lemma t_sum_weighted_one (g : Q -> Q) (a : tensor) (row : list Q) :
  List.length a = List.length row ->
  (forall x, In x row -> g x == 1) ->
  t_sum (t_mul a (map g row)) == t_sum a.
Proof.
  revert row. induction a as [|x a IH]; intros [|r row] Hlen Hg;
    try discriminate; [reflexivity|].
  simpl. fold (t_mul a (map g row)).
  rewrite IH.
  - rewrite (Hg r) by (left; reflexivity). ring.
  - simpl in Hlen. lia.
  - intros y Hy. apply Hg. right. exact Hy.
Qed.

Lemma linspace_length (lo hi : Q) (n : Z) :
  List.length (linspace lo hi n) = Z.to_nat n.
Proof. unfold linspace. rewrite length_map, length_seq. reflexivity. Qed.

(** The projection of one distribution. *)
Lemma project_row (lo hi : Q) (n : Z) (a row : tensor) :
  (2 <= n)%Z -> lo < hi ->
  List.length a = List.length row ->
  Forall (fun x => lo <= x /\ x <= hi) row ->
  let out :=
    map (fun c => t_sum (t_mul a c))
        (map (fun zi =>
                map (fun nz =>
                       clamp 0 1
                         (1 - Qabs (nz - zi) / ((hi - lo) / inject_Z (n - 1))))
                    row)
             (linspace lo hi n)) in
  List.length out = Z.to_nat n /\
  t_sum out == t_sum a /\
  (Forall (fun x => 0 <= x) a -> Forall (fun x => 0 <= x) out).
Proof.
  intros Hn Hlh Hlen Hrow out. subst out. rewrite map_map.
  split; [|split].
  - rewrite length_map. apply linspace_length.
  - rewrite (sum_exchange
               (fun zi nz =>
                  clamp 0 1
                    (1 - Qabs (nz - zi) / ((hi - lo) / inject_Z (n - 1))))).
    apply t_sum_weighted_one; [exact Hlen|].
    intros x Hx. rewrite Forall_forall in Hrow.
    destruct (Hrow x Hx) as [Hx0 Hx1].
    apply grid_hat_sum; assumption.
  - intros Ha. apply Forall_forall. intros y Hy.
    apply in_map_iff in Hy. destruct Hy as [zi [<- _]].
    apply t_sum_nonneg. apply Forall_weighted_nonneg; [exact Ha|].
    apply Forall_forall. intros c Hc. apply in_map_iff in Hc.
    destruct Hc as [nz [<- _]]. apply clamp_ge_lo. discriminate.
Qed.

Lemma Forall2_map2_map {A B B' D} (P : A -> D -> Prop) (Qp : B -> Prop)
    (F : A -> B' -> D) (G : B -> B') (l : list A) (l' : list B) :
  List.length l' = List.length l ->
  Forall Qp l' ->
  (forall a b, In a l -> Qp b -> P a (F a (G b))) ->
  Forall2 P l (map2 F l (map G l')).
Proof.
  revert l'. induction l as [|a l IH]; intros [|b l'] Hlen HQ HP;
    try discriminate; simpl; constructor.
  - apply HP; [left; reflexivity | inversion HQ; assumption].
  - apply IH.
    + simpl in Hlen. lia.
    + inversion HQ; assumption.
    + intros a' b' Ha' Hb'. apply HP; [right|]; assumption.
Qed.

Section Projection.
Context {C : Carriers} {E : Externals}.
Variable cfg : Config.
Variable sched : Sched.

(** Every row of [next_z] has one entry per atom, inside [[V_min, V_max]]. *)
Lemma cat_next_z_rows (z ret_ : tensor) (done_n_ : list bool) :
  V_min cfg <= V_max cfg ->
  Forall (fun row =>
            List.length row = List.length z /\
            Forall (fun x => V_min cfg <= x /\ x <= V_max cfg) row)
         (cat_next_z cfg z ret_ done_n_).
Proof.
  intros Hv. unfold cat_next_z, t_float. cbv zeta.
  revert done_n_.
  induction ret_ as [|r ret_ IH]; intros [|dn done_n_]; simpl;
    constructor.
  - split; [rewrite !length_map; reflexivity|].
    apply Forall_forall. intros x Hx. apply in_map_iff in Hx.
    destruct Hx as [y [<- _]].
    split; [apply clamp_ge_lo; exact Hv | apply clamp_le_hi].
  - apply IH.
Qed.

Lemma cat_next_z_length (z ret_ : tensor) (done_n_ : list bool) :
  List.length (cat_next_z cfg z ret_ done_n_) =
    Nat.min (List.length ret_) (List.length done_n_).
Proof.
  unfold cat_next_z, t_float. cbv zeta. revert done_n_.
  induction ret_ as [|r ret_ IH]; intros [|dn done_n_]; simpl;
    try reflexivity.
  f_equal. apply IH.
Qed.

(** X15. The projection of [CategoricalDQN.loss] keeps the probability
    mass: with at least two atoms and [V_min < V_max], every row of the
    [target_p] that is passed to [_get_loss_values] has one entry per atom,
    sums to what the unprojected target distribution of that sample sums
    to, and has no negative entry when that distribution has none. *)
Theorem X15_projection_preserves_mass :
  forall (ag : Agent) (s : SamplesFromReplay) (delta_z : Q),
    py_fdiv (V_max cfg - V_min cfg) (n_atoms ag - 1) = Ok delta_z ->
    (2 <= n_atoms ag)%Z ->
    V_min cfg < V_max cfg ->
    List.length (return_ s) = List.length (cat_target_p_unproj cfg ag s) ->
    List.length (done_n s) = List.length (cat_target_p_unproj cfg ag s) ->
    Forall (fun row => List.length row = Z.to_nat (n_atoms ag))
           (cat_target_p_unproj cfg ag s) ->
    (prioritized_replay cfg = true ->
     cat_loss cfg sched ag s =
       cat_get_loss_values cfg sched
         (select_at_indexes tensor (action s)
            (agent_call_p ag (agent_inputs s)))
         (done s) (is_weights s) (cat_target_p cfg ag s delta_z)) /\
    Forall2 (fun tpu tp =>
               List.length tp = Z.to_nat (n_atoms ag) /\
               t_sum tp == t_sum tpu /\
               (Forall (fun x => 0 <= x) tpu -> Forall (fun x => 0 <= x) tp))
            (cat_target_p_unproj cfg ag s) (cat_target_p cfg ag s delta_z).
Proof.
  intros ag s delta_z Hdz Hn Hv Hret Hdn Hshape. split.
  - intros Hp. unfold cat_loss, rbind. rewrite Hdz, Hp. reflexivity.
  - unfold py_fdiv in Hdz.
    destruct (Z.eqb_spec (n_atoms ag - 1) 0) as [H0|H0]; [lia|].
    injection Hdz as <-.
    unfold cat_target_p, cat_project, cat_projection_coeffs. cbv zeta.
    set (z := linspace (V_min cfg) (V_max cfg) (n_atoms ag)).
    apply (Forall2_map2_map _
             (fun row =>
                List.length row = List.length z /\
                Forall (fun x => V_min cfg <= x /\ x <= V_max cfg) row)).
    + rewrite cat_next_z_length, Hret, Hdn. apply Nat.min_id.
    + apply cat_next_z_rows. apply Qlt_le_weak. exact Hv.
    + intros a row Ha [Hrl Hrange].
      rewrite Forall_forall in Hshape.
      apply (project_row (V_min cfg) (V_max cfg) (n_atoms ag) a row);
        try assumption.
      rewrite (Hshape a Ha), Hrl. unfold z. rewrite linspace_length.
      reflexivity.
Qed.

End Projection.

Lemma X15_witness :
  Forall2 (fun tpu tp =>
             List.length tp = 3%nat /\
             t_sum tp == t_sum tpu /\
             (Forall (fun x => 0 <= x) tpu -> Forall (fun x => 0 <= x) tp))
    (cat_target_p_unproj Scripted.cat_config Scripted.some_agent
       (Scripted.of_raw Scripted.cat_batch))
    (cat_target_p Scripted.cat_config Scripted.some_agent
       (Scripted.of_raw Scripted.cat_batch)
       ((V_max Scripted.cat_config - V_min Scripted.cat_config)
        / inject_Z (3 - 1))).
Proof.
  apply (proj2 (@X15_projection_preserves_mass Scripted.carriers
                  Scripted.externals Scripted.cat_config Scripted.sched0
                  Scripted.some_agent (Scripted.of_raw Scripted.cat_batch)
                  ((V_max Scripted.cat_config - V_min Scripted.cat_config)
                   / inject_Z (3 - 1))
                  eq_refl ltac:(simpl; lia) eq_refl eq_refl eq_refl
                  ltac:(vm_compute; repeat constructor))).
Defined.

(** ** The optimizer arguments of the constructor *)

Section ConstructorFacts.
Context {C : Carriers}.

Lemma dict_get_set_same (k : string) (v : KwVal) (d : kwargs) :
  dict_get k (dict_set k v d) = Some v.
Proof.
  induction d as [|[k' v'] d IH]; simpl.
  - rewrite String.eqb_refl. reflexivity.
  - destruct (String.eqb k k') eqn:Hk; simpl; rewrite ?String.eqb_refl, ?Hk;
      [reflexivity | exact IH].
Qed.

(** X16. The constructor raises [ZeroDivisionError], and nothing else,
    exactly when [batch_size = 0] and it has to compute the default
    [eps = 0.01 / batch_size] of the optimizer: when [optim_kwargs] is
    [None], or for CategoricalDQN when the given dict has no [eps].
    Otherwise a given dict with an [eps] is stored as it is, DQN stores any
    given dict as it is, and in every other case the stored dict has
    [eps = 0.01 / batch_size]. *)
Theorem X16_constructor_optim_kwargs :
  forall (k : AlgoKind) (bs : Z) (given : option kwargs),
    (init_optim_kwargs k bs given = Raise ZeroDivisionError <->
     bs = 0%Z /\
     (given = None \/
      (k = CategoricalDQN /\
       exists d, given = Some d /\ dict_get "eps" d = None))) /\
    (forall e, init_optim_kwargs k bs given = Raise e -> e = ZeroDivisionError) /\
    (forall stored,
       init_optim_kwargs k bs given = Ok stored ->
       (forall d v, given = Some d -> dict_get "eps" d = Some v -> stored = d) /\
       (forall d, k = DQN -> given = Some d -> stored = d) /\
       ((given = None \/
         (k = CategoricalDQN /\
          exists d, given = Some d /\ dict_get "eps" d = None)) ->
        dict_get "eps" stored = Some (KwNum ((1 # 100) / inject_Z bs)))).
Proof.
  intros k bs given.
  unfold init_optim_kwargs, cat_init_optim_kwargs, dqn_init_optim_kwargs,
    rbind, py_fdiv.
  destruct given as [d|].
  - destruct k.
    + split; [|split].
      * split; [discriminate|].
        intros [_ [H|[H _]]]; discriminate.
      * intros e H. discriminate.
      * intros stored H. injection H as <-.
        split; [|split].
        -- intros d' v H. injection H as <-. reflexivity.
        -- intros d' _ H. injection H as <-. reflexivity.
        -- intros [H|[H _]]; discriminate.
    + destruct (dict_get "eps" d) as [v|] eqn:Hget.
      * split; [|split].
        -- split; [discriminate|].
           intros [_ [H|[_ [d' [H Hn]]]]]; [discriminate|].
           injection H as <-. congruence.
        -- intros e H. discriminate.
        -- intros stored H. injection H as <-.
           split; [|split].
           ++ intros d' v' H. injection H as <-. reflexivity.
           ++ intros d' H. discriminate.
           ++ intros [H|[_ [d' [H Hn]]]]; [discriminate|].
              injection H as <-. congruence.
      * destruct (Z.eqb_spec bs 0) as [H0|H0].
        -- split; [|split].
           ++ split; [|reflexivity].
              intros _. split; [exact H0|]. right. split; [reflexivity|].
              exists d. split; [reflexivity | exact Hget].
           ++ intros e H. injection H as <-. reflexivity.
           ++ intros stored H. discriminate.
        -- split; [|split].
           ++ split; [discriminate|]. intros [H _]. contradiction.
           ++ intros e H. discriminate.
           ++ intros stored H. injection H as <-.
              split; [|split].
              ** intros d' v H. injection H as <-. congruence.
              ** intros d' H. discriminate.
              ** intros _. apply dict_get_set_same.
  - destruct (Z.eqb_spec bs 0) as [H0|H0].
    + destruct k; simpl;
        (split; [|split];
         [ split; [intros _; split; [exact H0 | left; reflexivity] | reflexivity]
         | intros e H; injection H as <-; reflexivity
         | intros stored H; discriminate ]).
    + destruct k; simpl;
        (split; [|split];
         [ split; [discriminate | intros [H _]; contradiction]
         | intros e H; discriminate
         | intros stored H; injection H as <-;
           (split; [|split]);
           [ intros d v H; discriminate
           | intros d _ H; discriminate
           | intros _; reflexivity ] ]).
Qed.

End ConstructorFacts.

Lemma X16_witness :
  init_optim_kwargs (C := Scripted.carriers) DQN 0 None = Raise ZeroDivisionError.
Proof.
  apply (proj2 (proj1 (@X16_constructor_optim_kwargs Scripted.carriers
                         DQN 0%Z None))).
  split; [reflexivity | left; reflexivity].
Defined.
